(** * Package emission core of melange ([pkg/build/package.go])

    A shallow embedding of the dependency scanner, the merge and
    self-provides filter, and the package assembler, followed by the
    properties of the specification that are settled against it.

    Go strings are byte sequences; they are modelled as [string] (a list
    of 8-bit [ascii]).  Slices are lists; Go maps are [gmap]s.  Code that
    touches the operating system threads a [World] explicitly. *)

From Stdlib Require Import ZArith NArith Ascii String List Sorted DecimalString Lia.
From stdpp Require Import base option list sorting strings gmap.

Local Open Scope list_scope.
Local Open Scope string_scope.

(** ** The parts of Go's [strings] package that the code calls *)

Module strings.

(** [strings.HasPrefix(s, prefix)] *)
Fixpoint HasPrefix (s pfx : string) {struct pfx} : bool :=
  match pfx, s with
  | EmptyString, _ => true
  | String _ _, EmptyString => false
  | String c pfx', String d s' => if Ascii.eqb c d then HasPrefix s' pfx' else false
  end.

(** [strings.Contains(s, substr)] *)
Fixpoint Contains (s substr : string) : bool :=
  HasPrefix s substr ||
  match s with
  | EmptyString => false
  | String _ s' => Contains s' substr
  end.

(** [strings.HasSuffix(s, suffix)] *)
Definition HasSuffix (s sfx : string) : bool :=
  (String.length sfx <=? String.length s)%nat &&
  String.eqb (substring (String.length s - String.length sfx) (String.length sfx) s) sfx.

(** [strings.CutSuffix(s, suffix)] *)
Definition CutSuffix (s sfx : string) : string * bool :=
  if HasSuffix s sfx
  then (substring 0 (String.length s - String.length sfx) s, true)
  else (s, false).

(** The scanning loop of [strings.Split(s, sep)] for a non-empty [sep]:
    [cur] is the field being read and [skip] the number of bytes of a
    separator that matched and are still to be passed over. *)
Fixpoint split_go (sep : string) (skip : nat) (cur s : string) : list string :=
  match s with
  | EmptyString => [cur]
  | String c s' =>
      match skip with
      | S k => split_go sep k cur s'
      | O =>
          if HasPrefix s sep
          then cur :: split_go sep (String.length sep - 1) EmptyString s'
          else split_go sep 0 (cur ++ String c EmptyString) s'
      end
  end.

(** [strings.Split(s, sep)], [sep] non-empty (every call site passes a
    literal). *)
Definition Split (s sep : string) : list string := split_go sep 0 EmptyString s.

(** The scanning loop of [strings.ReplaceAll(s, old, new)] for a
    non-empty [old]: matches are found left to right and do not
    overlap. *)
Fixpoint replace_go (old new : string) (skip : nat) (s : string) : string :=
  match s with
  | EmptyString => EmptyString
  | String c s' =>
      match skip with
      | S k => replace_go old new k s'
      | O =>
          if HasPrefix s old
          then new ++ replace_go old new (String.length old - 1) s'
          else String c (replace_go old new 0 s')
      end
  end.

Definition ReplaceAll (s old new : string) : string := replace_go old new 0 s.

(** [bytes.Trim(b, "\x00")]: leading and trailing NUL bytes removed. *)
Fixpoint trim_left_nul (s : string) : string :=
  match s with
  | String c s' => if Ascii.eqb c zero then trim_left_nul s' else s
  | EmptyString => EmptyString
  end.

Fixpoint trim_right_nul (s : string) : string :=
  match s with
  | EmptyString => EmptyString
  | String c s' =>
      match trim_right_nul s' with
      | EmptyString => if Ascii.eqb c zero then EmptyString else String c EmptyString
      | t => String c t
      end
  end.

Definition TrimNul (s : string) : string := trim_right_nul (trim_left_nul s).

End strings.

(** ** [sort.Strings]: ascending byte-wise lexicographic order *)

Module sort.

Definition string_le (a b : string) : Prop := String.leb a b = true.
Definition string_lt (a b : string) : Prop := String.ltb a b = true.

#[global] Instance string_le_dec a b : Decision (string_le a b).
Proof. unfold string_le. apply _. Defined.

#[global] Instance string_lt_dec a b : Decision (string_lt a b).
Proof. unfold string_lt. apply _. Defined.

(** The result of [sort.Strings] is the ascending arrangement of its
    argument; equal strings are indistinguishable, so the algorithm the
    library uses does not show. *)
Definition Strings (l : list string) : list string := merge_sort string_le l.

End sort.

(** ** [path/filepath] and [fmt] *)

Module filepath.

Definition slash : ascii := "/"%char.

(** Characters after the last separator (the whole string when there is
    none). *)
Fixpoint last_elem (s : string) : string :=
  match s with
  | EmptyString => EmptyString
  | String c s' =>
      if strings.Contains s' "/" then last_elem s'
      else if Ascii.eqb c slash then s' else s
  end.

(** Trailing separators removed. *)
Fixpoint strip_trailing (s : string) : string :=
  match s with
  | EmptyString => EmptyString
  | String c s' =>
      match strip_trailing s' with
      | EmptyString => if Ascii.eqb c slash then EmptyString else String c EmptyString
      | t => String c t
      end
  end.

(** [filepath.Base(path)] on a Unix host. *)
Definition Base (path : string) : string :=
  match path with
  | EmptyString => "."
  | _ =>
      match last_elem (strip_trailing path) with
      | EmptyString => "/"
      | b => b
      end
  end.

(** One step of [Clean]: [stack] holds the components kept so far, the
    most recent first. *)
Definition step (rooted : bool) (stack : list string) (comp : string) : list string :=
  if String.eqb comp "" || String.eqb comp "." then stack
  else if String.eqb comp ".." then
    match stack with
    | top :: rest => if String.eqb top ".." then comp :: stack else rest
    | [] => if rooted then [] else [comp]
    end
  else comp :: stack.

Fixpoint join_with (sep : string) (l : list string) : string :=
  match l with
  | [] => ""
  | [x] => x
  | x :: rest => x ++ sep ++ join_with sep rest
  end.

Definition Clean (path : string) : string :=
  let rooted := strings.HasPrefix path "/" in
  let kept := rev (fold_left (step rooted) (strings.Split path "/") []) in
  match kept, rooted with
  | [], true => "/"
  | [], false => "."
  | _, true => "/" ++ join_with "/" kept
  | _, false => join_with "/" kept
  end.

(** [filepath.Join(elem...)]: empty elements are ignored; the result of
    joining nothing is the empty string. *)
Definition Join (elems : list string) : string :=
  match List.filter (fun e => negb (String.eqb e "")) elems with
  | [] => ""
  | nonempty => Clean (join_with "/" nonempty)
  end.

End filepath.

Module fmt.
(** The [%d] verb for an unsigned and for a signed integer. *)
Definition d_N (n : N) : string := NilEmpty.string_of_uint (N.to_uint n).
Definition d_Z (z : Z) : string := NilEmpty.string_of_int (Z.to_int z).
End fmt.

(** ** [regexp]: the one pattern of the file *)

Module regexp.

(** A match of [-(alpha|beta|rc|pre)] at the start of [s]: the text of
    the group and the length of the whole match. *)
Definition match_here (s : string) : option (string * nat) :=
  if strings.HasPrefix s "-alpha" then Some ("alpha", 6)
  else if strings.HasPrefix s "-beta" then Some ("beta", 5)
  else if strings.HasPrefix s "-rc" then Some ("rc", 3)
  else if strings.HasPrefix s "-pre" then Some ("pre", 4)
  else None.

(** [pkgConfigVersionRegexp.ReplaceAllString(s, "_$1")]: every
    non-overlapping match, leftmost first, is replaced by an underscore
    followed by the text of the group. *)
Fixpoint replace_all_go (skip : nat) (s : string) : string :=
  match s with
  | EmptyString => EmptyString
  | String c s' =>
      match skip with
      | S k => replace_all_go k s'
      | O =>
          match match_here s with
          | Some (grp, len) => "_" ++ grp ++ replace_all_go (len - 1) s'
          | None => String c (replace_all_go 0 s')
          end
      end
  end.

Definition ReplaceAllString (s : string) : string := replace_all_go 0 s.

End regexp.

(** Go's built-in [append(s, elems...)]. *)
Definition append {A : Type} (s elems : list A) : list A := (s ++ elems)%list.

(** ** Errors, results and the logger *)

(** A Go [error] is modelled by its message; [None] is [nil]. *)
Definition error : Type := string.

Inductive result (A : Type) : Type :=
| Ok (a : A)
| Err (e : error).
Arguments Ok {A} a.
Arguments Err {A} e.

Inductive LogLine : Type :=
| LPrintf (msg : string)
| LWarnf (msg : string).

(** ** [config]: the resolved configuration the core consumes *)

Module config.

Record Dependencies : Type := {
  Runtime : list string;
  Provides : list string;
  Replaces : list string;
  ProviderPriority : Z;
}.

Definition no_Dependencies : Dependencies :=
  {| Runtime := []; Provides := []; Replaces := []; ProviderPriority := 0 |}.

Record PackageOption : Type := {
  NoProvides : bool;
  NoDepends : bool;
  NoCommands : bool;
}.

Record Trigger : Type := {
  Script : string;
  Paths : list string;
}.

Record Scriptlets : Type := {
  Trigger_ : Trigger;
  PreInstall : string;
  PostInstall : string;
  PreDeinstall : string;
  PostDeinstall : string;
  PreUpgrade : string;
  PostUpgrade : string;
}.

Record Copyright : Type := {
  License : string;
}.

Record Package : Type := {
  Name : string;
  Version : string;
  Epoch : N;
  Description : string;
  URL : string;
  Commit : string;
  Copyright_ : list Copyright;
  Dependencies_ : Dependencies;
  Options : PackageOption;
  Scriptlets_ : Scriptlets;
}.

Record Subpackage : Type := {
  sp_Name : string;
  sp_Dependencies : Dependencies;
  sp_Options : PackageOption;
  sp_Scriptlets : Scriptlets;
  sp_Description : string;
  sp_URL : string;
  sp_Commit : string;
}.

Record Configuration : Type := {
  Package_ : Package;
  Subpackages : list Subpackage;
}.

End config.

(** ** [debug/elf], [io/fs] and [pkgconfig] values as the scanner sees them *)

Module elf.

Definition PT_INTERP : N := 3%N.

(** A program header: its type and what reading its segment gives. *)
Record Prog : Type := {
  Type_ : N;
  Open : result string;
}.

(** An opened ELF object.  [ImportedLibraries] is [DT_NEEDED],
    [DynString_SONAME] is [DynString(elf.DT_SONAME)]. *)
Record File : Type := {
  Progs : list Prog;
  ImportedLibraries : result (list string);
  DynString_SONAME : result (list string);
}.

End elf.

Module fs.

(** [fs.FileMode] is a 32-bit word: type bits above, permission bits in
    the low nine. *)
Definition FileMode : Type := N.

Definition ModeDir : FileMode := (2 ^ 31)%N.
Definition ModeSymlink : FileMode := (2 ^ 27)%N.
Definition ModeDevice : FileMode := (2 ^ 26)%N.
Definition ModeNamedPipe : FileMode := (2 ^ 25)%N.
Definition ModeSocket : FileMode := (2 ^ 24)%N.
Definition ModeCharDevice : FileMode := (2 ^ 21)%N.
Definition ModeIrregular : FileMode := (2 ^ 19)%N.
Definition ModePerm : FileMode := 511%N.

Definition ModeType : FileMode :=
  N.lor ModeDir (N.lor ModeSymlink (N.lor ModeNamedPipe
    (N.lor ModeSocket (N.lor ModeDevice (N.lor ModeCharDevice ModeIrregular))))).

Definition IsRegular (m : FileMode) : bool := N.eqb (N.land m ModeType) 0%N.
Definition Type_ (m : FileMode) : FileMode := N.land m ModeType.
Definition Perm (m : FileMode) : FileMode := N.land m ModePerm.

Record FileInfo : Type := {
  Mode : FileMode;
  Size : Z;
}.

(** One call of the function handed to [fs.WalkDir]: the path, the
    error the walk passes in, and what [d.Info()] returns. *)
Record WalkEntry : Type := {
  path : string;
  walk_err : option error;
  Info : result FileInfo;
}.

(** The two implementations of [fs.FS] in use: the symlink-aware view
    of a directory, and an in-memory tree of (name, data, perm). *)
Inductive FS : Type :=
| readlinkFS (root : string)
| memfs (entries : list (string * string * N)).

End fs.

Module pkgconfig.

Record Dependency : Type := {
  Identifier : string;
}.

Record Package : Type := {
  Version : string;
  Requires : list Dependency;
  RequiresPrivate : list Dependency;
  RequiresInternal : list Dependency;
}.

End pkgconfig.

(** ** The operating system as the assembler sees it *)

(** The calls that can fail for reasons outside the program. *)
Inductive OsCall : Type :=
| CallMkdirAll (path : string)
| CallCreateTemp (pattern : string)
| CallCreate (path : string)
| CallOpenFile (path : string)
| CallWrite (path : string) (data : string)
| CallSeek (path : string).

(** [files] maps a path to the content of the file there, [dirs] are the
    directories made by [os.MkdirAll], [logger] is what [pc.Logger] has
    received (oldest first).  [fault] says which calls fail and how;
    [temp_dir] and [temp_rand] are [os.TempDir()] and the random part
    [os.CreateTemp] puts in place of the star. *)
Record World : Type := {
  files : gmap string string;
  dirs : gset string;
  logger : list LogLine;
  fault : OsCall → option error;
  temp_dir : string;
  temp_rand : string;
}.

Definition set_files (f : gmap string string → gmap string string) (w : World) : World :=
  {| files := f (files w); dirs := dirs w; logger := logger w;
     fault := fault w; temp_dir := temp_dir w; temp_rand := temp_rand w |}.

Definition set_dirs (f : gset string → gset string) (w : World) : World :=
  {| files := files w; dirs := f (dirs w); logger := logger w;
     fault := fault w; temp_dir := temp_dir w; temp_rand := temp_rand w |}.

Definition set_logger (f : list LogLine → list LogLine) (w : World) : World :=
  {| files := files w; dirs := dirs w; logger := f (logger w);
     fault := fault w; temp_dir := temp_dir w; temp_rand := temp_rand w |}.

(** State passing over the world. *)
Definition M (A : Type) : Type := World → A * World.

Definition ret {A} (a : A) : M A := fun w => (a, w).

Definition bind {A B} (m : M A) (k : A → M B) : M B :=
  fun w => let '(a, w') := m w in k a w'.

Declare Scope go_scope.
Delimit Scope go_scope with go.
Notation "'do' x <- m ; k" := (bind m (fun x => k))
  (at level 10, x pattern, m at level 100, k at level 200) : go_scope.
Notation "m ;; k" := (bind m (fun _ => k))
  (at level 100, k at level 200, right associativity) : go_scope.

Module Logger.
Definition Printf (msg : string) : M unit :=
  fun w => (tt, set_logger (fun l => append l [LPrintf msg]) w).
Definition Warnf (msg : string) : M unit :=
  fun w => (tt, set_logger (fun l => append l [LWarnf msg]) w).
End Logger.

Module os.

(** An open [*os.File]; [None] is the nil pointer. *)
Definition File : Type := option string.

Definition ErrInvalid : error := "invalid argument".

Definition MkdirAll (path : string) : M (option error) :=
  fun w =>
    match fault w (CallMkdirAll path) with
    | Some e => (Some e, w)
    | None => (None, set_dirs (fun d => {[ path ]} ∪ d) w)
    end.

(** [os.Create]: the file is created or truncated. *)
Definition Create (name : string) : M (File * option error) :=
  fun w =>
    match fault w (CallCreate name) with
    | Some e => ((None, Some e), w)
    | None => ((Some name, None), set_files (fun fs => <[ name := "" ]> fs) w)
    end.

(** [os.OpenFile(name, O_APPEND|O_CREATE|O_WRONLY, perm)]. *)
Definition OpenFile_append (name : string) : M (File * option error) :=
  fun w =>
    match fault w (CallOpenFile name) with
    | Some e => ((None, Some e), w)
    | None =>
        ((Some name, None),
         set_files (fun fs => <[ name := default "" (fs !! name) ]> fs) w)
    end.

(** [os.CreateTemp("", pattern)] with the pattern split at its star. *)
Definition CreateTemp (prefix suffix : string) : M (File * option error) :=
  fun w =>
    match fault w (CallCreateTemp (prefix ++ "*" ++ suffix)) with
    | Some e => ((None, Some e), w)
    | None =>
        let name := temp_dir w ++ "/" ++ prefix ++ temp_rand w ++ suffix in
        ((Some name, None), set_files (fun fs => <[ name := "" ]> fs) w)
    end.

(** [f.Write(data)]: on a nil file the call fails with [ErrInvalid];
    the bytes go to the end of the file. *)
Definition Write (f : File) (data : string) : M (option error) :=
  fun w =>
    match f with
    | None => (Some ErrInvalid, w)
    | Some name =>
        match fault w (CallWrite name data) with
        | Some e => (Some e, w)
        | None =>
            (None, set_files (fun fs => <[ name := default "" (fs !! name) ++ data ]> fs) w)
        end
    end.

Definition Seek_start (f : File) : M (option error) :=
  fun w =>
    match f with
    | None => (Some ErrInvalid, w)
    | Some name => (fault w (CallSeek name), w)
    end.

(** Everything that remains to be read from an open file. *)
Definition ReadAll (f : File) : M string :=
  fun w =>
    match f with
    | None => ("", w)
    | Some name => (default "" (files w !! name), w)
    end.

Definition Remove (name : string) : M unit :=
  fun w => (tt, set_files (fun fs => delete name fs) w).

End os.

(** ** External collaborators *)

Module tarball.
Inductive Option : Type :=
| WithSourceDateEpoch (t : Z)
| WithOverrideUIDGID (uid gid : Z)
| WithOverrideUname (uname : string)
| WithOverrideGname (gname : string)
| WithSkipClose (b : bool)
| WithUseChecksums (b : bool).
End tarball.

(** The two signers of the package ([ApkSigner] is an interface). *)
Inductive ApkSigner : Type :=
| FulcioApkSigner
| KeyApkSigner (KeyFile KeyPassphrase : string).

(** What the file under study calls and does not define: the view of the
    staged tree, the ELF and pkg-config readers, the tar and gzip
    writers, the digest, the JSON encoder, the signer and the summary of
    a dependency set. *)
Record Externals : Type := {
  (** the calls [fs.WalkDir(fsys, ".", fn)] makes to [fn], in order *)
  WalkDir : fs.FS → list fs.WalkEntry;
  Readlink : string → result string;
  Stat : string → option error;
  elf_Open : string → result elf.File;
  pkgconfig_Load : string → result pkgconfig.Package;
  json_Marshal : gmap string (list string) → result string;
  sha256_Sum_hex : string → string;
  tarball_NewContext : list tarball.Option → option error;
  (** the tar stream [tarctx.WriteTar] produces for a tree *)
  tarball_WriteTar : list tarball.Option → fs.FS → result string;
  (** a finished gzip member for a payload ([gzip.NewWriter], then
      [Close]) *)
  gzip_member : string → string;
  (** the same through pgzip with a block size and a number of blocks *)
  pgzip_member : Z → Z → string → string;
  GOMAXPROCS : Z;
  EmitSignature : ApkSigner → string → Z → result string;
  Summarize : config.Dependencies → list LogLine;
}.

(** ** [package build] *)

Definition min (l r : Z) : Z := if (l <? r)%Z then l else r.

Record Build : Type := {
  WorkspaceDir : string;
  SigningKey : string;
  SigningPassphrase : string;
  CreateBuildLog : bool;
  DependencyLog : string;
  Configuration : config.Configuration;
  SourceDateEpoch : Z;
  Build_OutDir : string;
  Build_Arch : string;
  StripOriginName : bool;
}.

Record PackageContext : Type := {
  Package : config.Package;
}.

Record PackageBuild : Type := {
  Build_ : Build;
  Origin : PackageContext;
  PackageName : string;
  OriginName : string;
  InstalledSize : Z;
  DataHash : string;
  OutDir : string;
  Dependencies : config.Dependencies;
  Arch : string;
  Options : config.PackageOption;
  Scriptlets : config.Scriptlets;
  Description : string;
  URL : string;
  Commit : string;
}.

Definition set_Dependencies (d : config.Dependencies) (pc : PackageBuild) : PackageBuild :=
  {| Build_ := Build_ pc; Origin := Origin pc; PackageName := PackageName pc;
     OriginName := OriginName pc; InstalledSize := InstalledSize pc;
     DataHash := DataHash pc; OutDir := OutDir pc; Dependencies := d;
     Arch := Arch pc; Options := Options pc; Scriptlets := Scriptlets pc;
     Description := Description pc; URL := URL pc; Commit := Commit pc |}.

Definition set_InstalledSize (n : Z) (pc : PackageBuild) : PackageBuild :=
  {| Build_ := Build_ pc; Origin := Origin pc; PackageName := PackageName pc;
     OriginName := OriginName pc; InstalledSize := n;
     DataHash := DataHash pc; OutDir := OutDir pc; Dependencies := Dependencies pc;
     Arch := Arch pc; Options := Options pc; Scriptlets := Scriptlets pc;
     Description := Description pc; URL := URL pc; Commit := Commit pc |}.

Definition set_DataHash (h : string) (pc : PackageBuild) : PackageBuild :=
  {| Build_ := Build_ pc; Origin := Origin pc; PackageName := PackageName pc;
     OriginName := OriginName pc; InstalledSize := InstalledSize pc;
     DataHash := h; OutDir := OutDir pc; Dependencies := Dependencies pc;
     Arch := Arch pc; Options := Options pc; Scriptlets := Scriptlets pc;
     Description := Description pc; URL := URL pc; Commit := Commit pc |}.

Definition set_OriginName (n : string) (pc : PackageBuild) : PackageBuild :=
  {| Build_ := Build_ pc; Origin := Origin pc; PackageName := PackageName pc;
     OriginName := n; InstalledSize := InstalledSize pc;
     DataHash := DataHash pc; OutDir := OutDir pc; Dependencies := Dependencies pc;
     Arch := Arch pc; Options := Options pc; Scriptlets := Scriptlets pc;
     Description := Description pc; URL := URL pc; Commit := Commit pc |}.

Definition set_Runtime (r : list string) (d : config.Dependencies) : config.Dependencies :=
  {| config.Runtime := r; config.Provides := config.Provides d;
     config.Replaces := config.Replaces d;
     config.ProviderPriority := config.ProviderPriority d |}.

Definition set_Provides (p : list string) (d : config.Dependencies) : config.Dependencies :=
  {| config.Runtime := config.Runtime d; config.Provides := p;
     config.Replaces := config.Replaces d;
     config.ProviderPriority := config.ProviderPriority d |}.

(** [pkgver] as the control template and the scanners print it. *)
Definition pkgver (pc : PackageBuild) : string :=
  config.Version (Package (Origin pc)) ++ "-r" ++ fmt.d_N (config.Epoch (Package (Origin pc))).

Definition Identity (pc : PackageBuild) : string :=
  PackageName pc ++ "-" ++ pkgver pc.

Definition Filename (pc : PackageBuild) : string :=
  OutDir pc ++ "/" ++ Identity pc ++ ".apk".

Definition WorkspaceSubdir (pc : PackageBuild) : string :=
  filepath.Join [WorkspaceDir (Build_ pc); "melange-out"; PackageName pc].

(** The loop of [dedup] over the sorted input: [prev] is the last string
    kept (the empty string before the first). *)
Fixpoint dedup_loop (prev : string) (in_ out : list string) : list string :=
  match in_ with
  | [] => out
  | cur :: rest =>
      if String.eqb cur prev then dedup_loop prev rest out
      else dedup_loop cur rest (append out [cur])
  end.

Definition dedup (in_ : list string) : list string :=
  dedup_loop "" (sort.Strings in_) [].

Fixpoint allowedPrefix (path : string) (prefixes : list string) : bool :=
  match prefixes with
  | [] => false
  | pfx :: rest => if strings.HasPrefix path pfx then true else allowedPrefix path rest
  end.

Definition cmdPrefixes : list string := ["bin"; "sbin"; "usr/bin"; "usr/sbin"].

Definition libDirs : list string := ["lib"; "usr/lib"; "lib64"; "usr/lib64"].

(** [fs.WalkDir]: the function is called on each entry in turn; the first
    error it returns ends the walk and is the result. *)
Fixpoint walk_loop {S : Type} (fn : fs.WalkEntry → S → M (option error * S))
    (entries : list fs.WalkEntry) (s : S) : M (option error * S) :=
  match entries with
  | [] => ret (None, s)
  | e :: rest =>
      (do (err, s') <- fn e s;
       match err with
       | Some _ => ret (err, s')
       | None => walk_loop fn rest s'
       end)%go
  end.

(** [findInterpreter] on the program headers of an ELF object. *)
Fixpoint findInterpreter (progs : list elf.Prog) : result string :=
  match progs with
  | [] => Ok ""
  | prog :: rest =>
      if negb (N.eqb (elf.Type_ prog) elf.PT_INTERP) then findInterpreter rest
      else
        match elf.Open prog with
        | Err err => Err err
        | Ok interpBuf => Ok (strings.TrimNul interpBuf)
        end
  end.

(** [libver] of a soname: the second field of the split on [.so.], or
    ["0"] when there is only one field. *)
Definition libver (soname : string) : string :=
  let parts := strings.Split soname ".so." in
  if (1 <? List.length parts)%nat then nth 1 parts "" else "0".

(** [removeSelfProvidedDeps] *)
Definition providedDepsMap (providedDeps : list string) : gmap string bool :=
  fold_left (fun m versionedDep => <[ nth 0 (strings.Split versionedDep "=") "" := true ]> m)
            providedDeps ∅.

Definition removeSelfProvidedDeps (runtimeDeps providedDeps : list string) : list string :=
  let m := providedDepsMap providedDeps in
  fold_left (fun newRuntimeDeps dep =>
               match m !! dep with
               | Some _ => newRuntimeDeps
               | None => append newRuntimeDeps [dep]
               end)
            runtimeDeps [].

Definition perm_rx : N := 365%N.  (* 0555 *)

(** The state the shared-object walk carries: the accumulator and the
    [depends] map of the enclosing function. *)
Definition Scan : Type := config.Dependencies * gmap string (list string).

Section Generators.

Variable X : Externals.

(** *** Command providers *)

Definition cmdWalkFn (pc : PackageBuild) (e : fs.WalkEntry)
    (generated : config.Dependencies) : M (option error * config.Dependencies) :=
  match fs.walk_err e with
  | Some err => ret (Some err, generated)
  | None =>
      match fs.Info e with
      | Err err => ret (Some err, generated)
      | Ok fi =>
          let mode := fs.Mode fi in
          if negb (fs.IsRegular mode) then ret (None, generated)
          else if N.eqb (N.land (fs.Perm mode) perm_rx) perm_rx then
            if allowedPrefix (fs.path e) cmdPrefixes then
              let basename := filepath.Base (fs.path e) in
              ret (None,
                   set_Provides
                     (append (config.Provides generated)
                             ["cmd:" ++ basename ++ "=" ++ pkgver pc])
                     generated)
            else ret (None, generated)
          else ret (None, generated)
      end
  end.

Definition generateCmdProviders (pc : PackageBuild) (generated : config.Dependencies)
    : M (option error * config.Dependencies) :=
  if config.NoCommands (Options pc) then ret (None, generated)
  else
    (Logger.Printf "scanning for commands..." ;;
     let fsys := fs.readlinkFS (WorkspaceSubdir pc) in
     walk_loop (cmdWalkFn pc) (WalkDir X fsys) generated)%go.

(** *** Shared-object dependencies and providers *)

Definition dereferenceCrossPackageSymlink (pc : PackageBuild) (path : string)
    : result string :=
  let targetPackageNames :=
    [PackageName pc; config.Name (config.Package_ (Configuration (Build_ pc)))] in
  match Readlink X (filepath.Join [WorkspaceSubdir pc; path]) with
  | Err err => Err err
  | Ok realPath =>
      let realPath := filepath.Base realPath in
      let targetPackageNames :=
        append targetPackageNames
               (List.map config.sp_Name (config.Subpackages (Configuration (Build_ pc)))) in
      let candidates :=
        List.flat_map
          (fun pkgName =>
             let basePath :=
               filepath.Join [WorkspaceDir (Build_ pc); "melange-out"; pkgName] in
             List.map (fun libDir => filepath.Join [basePath; libDir; realPath]) libDirs)
          targetPackageNames in
      match List.find (fun testPath => bool_decide (Stat X testPath = None)) candidates with
      | Some testPath => Ok testPath
      | None => Ok ""
      end
  end.

(** The symlink branch of the walk function. *)
Definition soSymlink (pc : PackageBuild) (path : string) (st : Scan)
    : M (option error * Scan) :=
  let '(generated, depends) := st in
  if negb (strings.Contains path ".so") then ret (None, st)
  else
    match dereferenceCrossPackageSymlink pc path with
    | Err _ => ret (None, st)
    | Ok realPath =>
        if String.eqb realPath "" then ret (None, st)
        else
          match elf_Open X realPath with
          | Err _ => ret (None, st)
          | Ok ef =>
              match elf.DynString_SONAME ef with
              | Err _ =>
                  (Logger.Warnf ("library " ++ path ++ " lacks SONAME") ;;
                   ret (None, st))%go
              | Ok sonames =>
                  ret (None,
                       (set_Runtime
                          (append (config.Runtime generated)
                                  (List.map (fun soname => "so:" ++ soname) sonames))
                          generated,
                        depends))
              end
          end
    end.

(** The runtime entry for an interpreter path. *)
Definition interpName (interp : string) : string :=
  strings.ReplaceAll ("so:" ++ filepath.Base interp) "so:ld-musl" "so:libc.musl".

(** The loop over [DT_NEEDED]. *)
Definition scanLibs (path : string) (libs : list string) (st : Scan) : Scan :=
  fold_left
    (fun '(generated, depends) lib =>
       if strings.Contains lib ".so." then
         (set_Runtime (append (config.Runtime generated) ["so:" ++ lib]) generated,
          <[ lib := append (default [] (depends !! lib)) [path] ]> depends)
       else (generated, depends))
    libs st.

(** The provides entry for a soname. *)
Definition soProvide (soname : string) : string :=
  "so:" ++ soname ++ "=" ++ libver soname.

(** The branch for a regular file with the 0555 bits set. *)
Definition soExecutable (pc : PackageBuild) (path : string) (st : Scan)
    : M (option error * Scan) :=
  let basename := filepath.Base path in
  match elf_Open X (filepath.Join [WorkspaceSubdir pc; path]) with
  | Err _ => ret (None, st)
  | Ok ef =>
      match findInterpreter (elf.Progs ef) with
      | Err err => ret (Some err, st)
      | Ok interp =>
          (do st1 <-
             (if negb (String.eqb interp "") && negb (config.NoDepends (Options pc)) then
                Logger.Printf ("interpreter for " ++ basename ++ " => " ++ interp) ;;
                ret (set_Runtime (append (config.Runtime (fst st)) [interpName interp])
                                 (fst st),
                     snd st)
              else ret st);
           match elf.ImportedLibraries ef with
           | Err err =>
               Logger.Warnf ("WTF: ImportedLibraries() returned error: " ++ err) ;;
               ret (None, st1)
           | Ok libs =>
               let st2 :=
                 if negb (config.NoDepends (Options pc)) then scanLibs path libs st1
                 else st1 in
               if negb (config.NoProvides (Options pc))
                  && (String.eqb interp "" || strings.HasPrefix basename "libc")
               then
                 if negb (allowedPrefix path libDirs) then ret (None, st2)
                 else
                   match elf.DynString_SONAME ef with
                   | Err _ =>
                       Logger.Warnf ("library " ++ path ++ " lacks SONAME") ;;
                       ret (None, st2)
                   | Ok sonames =>
                       ret (None,
                            (set_Provides
                               (append (config.Provides (fst st2))
                                       (List.map soProvide sonames))
                               (fst st2),
                             snd st2))
                   end
               else ret (None, st2)
           end)%go
      end
  end.

Definition soWalkFn (pc : PackageBuild) (e : fs.WalkEntry) (st : Scan)
    : M (option error * Scan) :=
  match fs.walk_err e with
  | Some err => ret (Some err, st)
  | None =>
      match fs.Info e with
      | Err err => ret (Some err, st)
      | Ok fi =>
          let mode := fs.Mode fi in
          if N.eqb (N.land (fs.Type_ mode) fs.ModeSymlink) fs.ModeSymlink then
            soSymlink pc (fs.path e) st
          else if negb (fs.IsRegular mode) then ret (None, st)
          else if N.eqb (N.land (fs.Perm mode) perm_rx) perm_rx then
            soExecutable pc (fs.path e) st
          else ret (None, st)
      end
  end.

(** [json.NewEncoder(logFile).Encode(depends)]: the value is marshalled,
    a newline is added, and the bytes are written to the file. *)
Definition json_Encode (logFile : os.File) (depends : gmap string (list string))
    : M (option error) :=
  match json_Marshal X depends with
  | Err err => ret (Some err)
  | Ok b => os.Write logFile (b ++ String "010"%char "")
  end.

Definition generateSharedObjectNameDeps (pc : PackageBuild)
    (generated : config.Dependencies) : M (option error * config.Dependencies) :=
  (Logger.Printf "scanning for shared object dependencies..." ;;
   let depends : gmap string (list string) := ∅ in
   let fsys := fs.readlinkFS (WorkspaceSubdir pc) in
   do (err, st) <- walk_loop (soWalkFn pc) (WalkDir X fsys) (generated, depends);
   let '(generated, depends) := st in
   match err with
   | Some _ => ret (err, generated)
   | None =>
       if negb (String.eqb (DependencyLog (Build_ pc)) "") then
         Logger.Printf "writing dependency log" ;;
         do (logFile, err) <- os.Create (DependencyLog (Build_ pc) ++ "." ++ Arch pc);
         (match err with
          | Some e => Logger.Warnf ("Unable to open dependency log: " ++ e)
          | None => ret tt
          end) ;;
         do err <- json_Encode logFile depends;
         match err with
         | Some _ => ret (err, generated)
         | None => ret (None, generated)
         end
       else ret (None, generated)
   end)%go.

End Generators.

Definition generateRuntimePkgConfigDeps : bool := false.

Definition DependencyGenerator : Type :=
  PackageBuild → config.Dependencies → M (option error * config.Dependencies).

Section Assembler.

Variable X : Externals.

(** *** pkg-config providers *)

(** The provides entry for a [.pc] file at [path] whose descriptor has
    version [version]. *)
Definition pcProvide (path version : string) : string :=
  let pcName := filepath.Base path in
  let pcName := fst (strings.CutSuffix pcName ".pc") in
  let apkVersion := regexp.ReplaceAllString version in
  "pc:" ++ pcName ++ "=" ++ apkVersion.

Definition pcRequires (deps : list pkgconfig.Dependency) : list string :=
  List.map (fun dep => "pc:" ++ pkgconfig.Identifier dep) deps.

Definition pcWalkFn (pc : PackageBuild) (e : fs.WalkEntry)
    (generated : config.Dependencies) : M (option error * config.Dependencies) :=
  match fs.walk_err e with
  | Some err => ret (Some err, generated)
  | None =>
      if negb (strings.HasSuffix (fs.path e) ".pc") then ret (None, generated)
      else
        match fs.Info e with
        | Err err => ret (Some err, generated)
        | Ok fi =>
            let mode := fs.Mode fi in
            if N.eqb (N.land (fs.Type_ mode) fs.ModeSymlink) fs.ModeSymlink
            then ret (None, generated)
            else
              match pkgconfig_Load X (filepath.Join [WorkspaceSubdir pc; fs.path e]) with
              | Err err =>
                  (Logger.Warnf ("Unable to load .pc file (" ++ fs.path e
                                 ++ ") using pkgconfig: " ++ err) ;;
                   ret (None, generated))%go
              | Ok pkg =>
                  let generated :=
                    if negb (config.NoProvides (Options pc)) then
                      set_Provides
                        (append (config.Provides generated)
                                [pcProvide (fs.path e) (pkgconfig.Version pkg)])
                        generated
                    else generated in
                  let generated :=
                    if generateRuntimePkgConfigDeps then
                      set_Runtime
                        (append (append (append (config.Runtime generated)
                                   (pcRequires (pkgconfig.Requires pkg)))
                                   (pcRequires (pkgconfig.RequiresPrivate pkg)))
                                   (pcRequires (pkgconfig.RequiresInternal pkg)))
                        generated
                    else generated in
                  ret (None, generated)
              end
        end
  end.

Definition generatePkgConfigDeps (pc : PackageBuild) (generated : config.Dependencies)
    : M (option error * config.Dependencies) :=
  (Logger.Printf "scanning for pkg-config data..." ;;
   let fsys := fs.readlinkFS (WorkspaceSubdir pc) in
   walk_loop (pcWalkFn pc) (WalkDir X fsys) generated)%go.

(** *** Merge and self-filter *)

Definition generators : list DependencyGenerator :=
  [generateSharedObjectNameDeps X; generateCmdProviders X; generatePkgConfigDeps].

Fixpoint run_generators (gens : list DependencyGenerator) (pc : PackageBuild)
    (generated : config.Dependencies) : M (option error * config.Dependencies) :=
  match gens with
  | [] => ret (None, generated)
  | gen :: rest =>
      (do (err, generated') <- gen pc generated;
       match err with
       | Some _ => ret (err, generated')
       | None => run_generators rest pc generated'
       end)%go
  end.

(** The three assignments that follow the generators. *)
Definition mergeDependencies (declared generated : config.Dependencies)
    : config.Dependencies :=
  let newruntime := append (config.Runtime declared) (config.Runtime generated) in
  let d1 := set_Runtime (dedup newruntime) declared in
  let newprovides := append (config.Provides d1) (config.Provides generated) in
  let d2 := set_Provides (dedup newprovides) d1 in
  set_Runtime (removeSelfProvidedDeps (config.Runtime d2) (config.Provides d2)) d2.

Definition GenerateDependencies (pc : PackageBuild) : M (option error * PackageBuild) :=
  (let generated := config.no_Dependencies in
   do (err, generated) <- run_generators generators pc generated;
   match err with
   | Some _ => ret (err, pc)
   | None =>
       let pc := set_Dependencies (mergeDependencies (Dependencies pc) generated) pc in
       (fun w => (tt, set_logger (fun l => append l (Summarize X (Dependencies pc))) w)) ;;
       ret (None, pc)
   end)%go.

(** *** Build log *)

Definition AppendBuildLog (pc : PackageBuild) (dir : string) : M (option error) :=
  if negb (CreateBuildLog (Build_ pc)) then ret None
  else
    (do (f, err) <- os.OpenFile_append (filepath.Join [dir; "packages.log"]);
     match err with
     | Some _ => ret err
     | None =>
         os.Write f (Arch pc ++ "|" ++ OriginName pc ++ "|" ++ PackageName pc ++ "|"
                     ++ pkgver pc ++ String "010"%char "")
     end)%go.

(** *** Control section *)

Definition nl : string := String "010"%char "".

Definition lines (key : string) (values : list string) : string :=
  String.concat "" (List.map (fun v => nl ++ key ++ " = " ++ v) values).

(** The text [controlTemplate] renders for a job. *)
Definition GenerateControlData (pc : PackageBuild) : string :=
  "# Generated by melange." ++ nl
  ++ "pkgname = " ++ PackageName pc ++ nl
  ++ "pkgver = " ++ pkgver pc ++ nl
  ++ "arch = " ++ Arch pc ++ nl
  ++ "size = " ++ fmt.d_Z (InstalledSize pc) ++ nl
  ++ "origin = " ++ OriginName pc ++ nl
  ++ "pkgdesc = " ++ Description pc ++ nl
  ++ "url = " ++ URL pc ++ nl
  ++ "commit = " ++ Commit pc
  ++ (if negb (Z.eqb (SourceDateEpoch (Build_ pc)) 0)
      then nl ++ "builddate = " ++ fmt.d_Z (SourceDateEpoch (Build_ pc)) else "")
  ++ lines "license" (List.map config.License (config.Copyright_ (Package (Origin pc))))
  ++ lines "depend" (config.Runtime (Dependencies pc))
  ++ lines "provides" (config.Provides (Dependencies pc))
  ++ lines "replaces" (config.Replaces (Dependencies pc))
  ++ (if negb (Z.eqb (config.ProviderPriority (Dependencies pc)) 0)
      then nl ++ "provider_priority = " ++ fmt.d_Z (config.ProviderPriority (Dependencies pc))
      else "")
  ++ (match config.Paths (config.Trigger_ (Scriptlets pc)) with
      | [] => ""
      | paths => nl ++ "triggers = " ++ String.concat "" (List.map (fun p => p ++ " ") paths)
      end)
  ++ nl ++ "datahash = " ++ DataHash pc ++ nl.

(** One scriptlet file, written when the scriptlet is not empty. *)
Definition scriptlet (name body : string) : list (string * string * N) :=
  if negb (String.eqb body "") then [(name, body, 493%N)] else [].

(** The in-memory tree of the control section. *)
Definition controlFS (pc : PackageBuild) : list (string * string * N) :=
  let s := Scriptlets pc in
  append [(".PKGINFO", GenerateControlData pc, 420%N)]
    (append (scriptlet ".trigger" (config.Script (config.Trigger_ s)))
    (append (scriptlet ".pre-install" (config.PreInstall s))
    (append (scriptlet ".post-install" (config.PostInstall s))
    (append (scriptlet ".pre-deinstall" (config.PreDeinstall s))
    (append (scriptlet ".post-deinstall" (config.PostDeinstall s))
    (append (scriptlet ".pre-upgrade" (config.PreUpgrade s))
            (scriptlet ".post-upgrade" (config.PostUpgrade s)))))))).

Definition controlTarOptions (pc : PackageBuild) : list tarball.Option :=
  [tarball.WithSourceDateEpoch (SourceDateEpoch (Build_ pc));
   tarball.WithOverrideUIDGID 0 0;
   tarball.WithOverrideUname "root";
   tarball.WithOverrideGname "root";
   tarball.WithSkipClose true].

(** Rendering the template into a buffer and writing top-level names
    into the in-memory tree do not fail; the gzip writer works on a
    buffer, so closing it does not fail either. *)
Definition generateControlSection (pc : PackageBuild) : result string :=
  match tarball_NewContext X (controlTarOptions pc) with
  | Some err => Err ("unable to build tarball context: " ++ err)
  | None =>
      let fsys := fs.memfs (controlFS pc) in
      match tarball_WriteTar X (controlTarOptions pc) fsys with
      | Err err => Err ("unable to write control tarball: " ++ err)
      | Ok tar => Ok (gzip_member X tar)
      end
  end.

Definition SignatureName (pc : PackageBuild) : string :=
  ".SIGN.RSA." ++ filepath.Base (SigningKey (Build_ pc)) ++ ".pub".

End Assembler.

(** Two's-complement wrap-around of a 64-bit signed sum. *)
Definition wrap64 (z : Z) : Z := ((z + 2 ^ 63) mod 2 ^ 64 - 2 ^ 63)%Z.

(** What [combine] reads from: a [bytes.Reader] or an open file. *)
Inductive Reader : Type :=
| BytesReader (b : string)
| FileReader (f : os.File).

Module pgzip.
Definition tailSize : Z := 16384.

Definition SetConcurrency (blockSize blocks : Z) : option error :=
  if (blockSize <=? tailSize)%Z
  then Some "gzip: block size cannot be less than or equal to 16384"
  else if (blocks <=? 0)%Z then Some "gzip: blocks cannot be zero or less"
  else None.
End pgzip.

Section Emission.

Variable X : Externals.

Definition pgzipThreads : Z := min (GOMAXPROCS X) 8.

Definition sizeWalkFn (e : fs.WalkEntry) (pc : PackageBuild)
    : M (option error * PackageBuild) :=
  match fs.walk_err e with
  | Some err => ret (Some err, pc)
  | None =>
      match fs.Info e with
      | Err err => ret (Some err, pc)
      | Ok fi => ret (None, set_InstalledSize (wrap64 (InstalledSize pc + fs.Size fi)) pc)
      end
  end.

Definition calculateInstalledSize (pc : PackageBuild) (fsys : fs.FS)
    : M (option error * PackageBuild) :=
  (do (err, pc) <- walk_loop sizeWalkFn (WalkDir X fsys) pc;
   match err with
   | Some e => ret (Some ("unable to preprocess package data: " ++ e), pc)
   | None => ret (None, pc)
   end)%go.

Definition dataTarOptions (pc : PackageBuild) : list tarball.Option :=
  [tarball.WithSourceDateEpoch (SourceDateEpoch (Build_ pc));
   tarball.WithOverrideUIDGID 0 0;
   tarball.WithOverrideUname "root";
   tarball.WithOverrideGname "root";
   tarball.WithUseChecksums true].

(** The gzip member the data section consists of, for a tar stream. *)
Definition dataMember (tar : string) : string :=
  pgzip_member X (2 ^ 20) pgzipThreads tar.

(** The compressed stream reaches the file when the writer is closed;
    a write that fails shows as the error of [Close]. *)
Definition emitDataSection (pc : PackageBuild) (fsys : fs.FS) (w : os.File)
    : M (option error * PackageBuild) :=
  match tarball_NewContext X (dataTarOptions pc) with
  | Some err => ret (Some ("unable to build tarball context: " ++ err), pc)
  | None =>
      match pgzip.SetConcurrency (2 ^ 20) pgzipThreads with
      | Some err =>
          ret (Some ("tried to set pgzip concurrency to " ++ fmt.d_Z pgzipThreads
                     ++ ": " ++ err), pc)
      | None =>
          match tarball_WriteTar X (dataTarOptions pc) fsys with
          | Err err => ret (Some ("unable to write data tarball: " ++ err), pc)
          | Ok tar =>
              (do err <- os.Write w (dataMember tar);
               match err with
               | Some e => ret (Some ("flushing data section gzip: " ++ e), pc)
               | None =>
                   let pc := set_DataHash (sha256_Sum_hex X (dataMember tar)) pc in
                   Logger.Printf ("  data.tar.gz digest: " ++ DataHash pc) ;;
                   do err <- os.Seek_start w;
                   match err with
                   | Some e => ret (Some ("unable to rewind data tarball: " ++ e), pc)
                   | None => ret (None, pc)
                   end
               end)%go
          end
      end
  end.

Definition wantSignature (pc : PackageBuild) : bool :=
  negb (String.eqb (SigningKey (Build_ pc)) "").

Definition Signer (pc : PackageBuild) : ApkSigner :=
  if String.eqb (SigningKey (Build_ pc)) "" then FulcioApkSigner
  else KeyApkSigner (SigningKey (Build_ pc)) (SigningPassphrase (Build_ pc)).

(** [io.Copy(out, input)]: nothing is written for an empty input. *)
Definition io_Copy (out : os.File) (input : Reader) : M (option error) :=
  (do data <- match input with
              | BytesReader b => ret b
              | FileReader f => os.ReadAll f
              end;
   if String.eqb data "" then ret None else os.Write out data)%go.

Fixpoint combine (out : os.File) (inputs : list Reader) : M (option error) :=
  match inputs with
  | [] => ret None
  | input :: rest =>
      (do err <- io_Copy out input;
       match err with
       | Some _ => ret err
       | None => combine out rest
       end)%go
  end.

(** [EmitPackage] from the point where the temporary file is open. *)
Definition emitWithTemp (pc : PackageBuild) (fsys : fs.FS) (dataTarGz : os.File)
    : M (option error * PackageBuild) :=
  (do (err, pc) <- emitDataSection pc fsys dataTarGz;
   match err with
   | Some _ => ret (err, pc)
   | None =>
       match generateControlSection X pc with
       | Err e => ret (Some e, pc)
       | Ok controlSectionData =>
           let combinedParts := [BytesReader controlSectionData; FileReader dataTarGz] in
           match
             (if wantSignature pc then
                match EmitSignature X (Signer pc) controlSectionData
                                    (SourceDateEpoch (Build_ pc)) with
                | Err e => Err ("emitting signature: " ++ e)
                | Ok signatureData =>
                    Ok (append [BytesReader signatureData] combinedParts)
                end
              else Ok combinedParts)
           with
           | Err e => ret (Some e, pc)
           | Ok combinedParts =>
               do err <- os.MkdirAll (OutDir pc);
               match err with
               | Some e => ret (Some ("unable to create output directory: " ++ e), pc)
               | None =>
                   do (outFile, err) <- os.Create (Filename pc);
                   match err with
                   | Some e => ret (Some ("unable to create apk file: " ++ e), pc)
                   | None =>
                       do err <- combine outFile combinedParts;
                       match err with
                       | Some e => ret (Some ("unable to write apk file: " ++ e), pc)
                       | None =>
                           Logger.Printf ("wrote " ++ Filename pc) ;;
                           do err <- AppendBuildLog pc "";
                           (match err with
                            | Some e =>
                                Logger.Warnf ("unable to append package log: " ++ e)
                            | None => ret tt
                            end) ;;
                           ret (None, pc)
                       end
                   end
               end
           end
       end
   end)%go.

Definition EmitPackage (pc : PackageBuild) : M (option error * PackageBuild) :=
  (do err <- os.MkdirAll (WorkspaceSubdir pc);
   match err with
   | Some e => ret (Some ("unable to ensure workspace exists: " ++ e), pc)
   | None =>
       Logger.Printf ("generating package " ++ Identity pc) ;;
       let fsys := fs.readlinkFS (WorkspaceSubdir pc) in
       do (err, pc) <- GenerateDependencies X pc;
       match err with
       | Some e => ret (Some ("unable to build final dependencies set: " ++ e), pc)
       | None =>
           do (err, pc) <- calculateInstalledSize pc fsys;
           match err with
           | Some _ => ret (err, pc)
           | None =>
               Logger.Printf ("  installed-size: " ++ fmt.d_Z (InstalledSize pc)) ;;
               do (dataTarGz, err) <- os.CreateTemp "melange-data-" ".tar.gz";
               match err, dataTarGz with
               | Some e, _ =>
                   ret (Some ("unable to open temporary file for writing: " ++ e), pc)
               | None, None => ret (Some os.ErrInvalid, pc)
               | None, Some tmpName =>
                   do r <- emitWithTemp pc fsys dataTarGz;
                   os.Remove tmpName ;;
                   ret r
               end
           end
       end
   end)%go.

(** *** Subpackage dispatcher *)

Definition SubpackageContext_Emit (spkg : config.Subpackage) (b : Build)
    : M (option error * PackageBuild) :=
  let pkgctx := {| Package := config.Package_ (Configuration b) |} in
  let pc :=
    {| Build_ := b; Origin := pkgctx;
       PackageName := config.sp_Name spkg; OriginName := config.sp_Name spkg;
       InstalledSize := 0; DataHash := "";
       OutDir := filepath.Join [Build_OutDir b; Build_Arch b];
       Dependencies := config.sp_Dependencies spkg;
       Arch := Build_Arch b;
       Options := config.sp_Options spkg;
       Scriptlets := config.sp_Scriptlets spkg;
       Description := config.sp_Description spkg;
       URL := config.sp_URL spkg;
       Commit := config.sp_Commit spkg |} in
  let pc :=
    if negb (StripOriginName b) then set_OriginName (config.Name (Package (Origin pc))) pc
    else pc in
  EmitPackage pc.

Definition PackageContext_Emit (pkg : PackageContext) (b : Build)
    : M (option error * PackageBuild) :=
  let fakesp :=
    {| config.sp_Name := config.Name (Package pkg);
       config.sp_Dependencies := config.Dependencies_ (Package pkg);
       config.sp_Options := config.Options (Package pkg);
       config.sp_Scriptlets := config.Scriptlets_ (Package pkg);
       config.sp_Description := config.Description (Package pkg);
       config.sp_URL := config.URL (Package pkg);
       config.sp_Commit := config.Commit (Package pkg) |} in
  SubpackageContext_Emit fakesp b.

End Emission.

(** ** The spec's words, for comparison with the code *)

(** The name of a versioned dependency: the bytes before its first [=]. *)
Fixpoint name_prefix (p : string) : string :=
  match p with
  | EmptyString => EmptyString
  | String c p' => if Ascii.eqb "="%char c then EmptyString else String c (name_prefix p')
  end.

(** A list of strings in strictly ascending byte order. *)
Definition strictly_ascending (l : list string) : Prop :=
  StronglySorted sort.string_lt l.

(** ** Auxiliary notions the statements use *)

Definition provided_name (versionedDep : string) : string :=
  nth 0 (strings.Split versionedDep "=") "".

Definition not_provided (m : gmap string bool) (dep : string) : bool :=
  match m !! dep with
  | Some _ => false
  | None => true
  end.

(** ** More of the spec's words *)

(** The version rewrite as the testable property words it: the first
    match of the pattern has its dash turned into an underscore. *)
Fixpoint apk_version_first (v : string) : string :=
  match v with
  | EmptyString => EmptyString
  | String c v' =>
      match regexp.match_here v with
      | Some _ => String "_"%char v'
      | None => String c (apk_version_first v')
      end
  end.

(** The version rewrite that turns the dash of every match into an
    underscore. *)
Fixpoint apk_version_every (v : string) : string :=
  match v with
  | EmptyString => EmptyString
  | String c v' =>
      String (match regexp.match_here v with Some _ => "_"%char | None => c end)
             (apk_version_every v')
  end.

Fixpoint string_drop (n : nat) (s : string) : string :=
  match n, s with
  | O, _ => s
  | S k, String _ s' => string_drop k s'
  | S _, EmptyString => EmptyString
  end.

(** The bytes before the first occurrence of [sep] (all of [s] when there
    is none) and the bytes after it. *)
Fixpoint before_first (sep s : string) : string :=
  match s with
  | EmptyString => EmptyString
  | String c s' => if strings.HasPrefix s sep then EmptyString else String c (before_first sep s')
  end.

Fixpoint after_first (sep s : string) : option string :=
  match s with
  | EmptyString => None
  | String _ s' =>
      if strings.HasPrefix s sep then Some (string_drop (String.length sep) s)
      else after_first sep s'
  end.

(** [libver] read as "all that stands to the right of [.so.]". *)
Definition libver_right_of (soname : string) : string :=
  match after_first ".so." soname with
  | Some r => r
  | None => "0"
  end.

(** [libver] read as "what stands between the first [.so.] and the next
    one, or the end". *)
Definition libver_field (soname : string) : string :=
  match after_first ".so." soname with
  | Some r => before_first ".so." r
  | None => "0"
  end.

(** The musl substitution applied to a leading [so:ld-musl] only. *)
Definition musl_prefix_subst (name : string) : string :=
  if strings.HasPrefix name "so:ld-musl"
  then "so:libc.musl" ++ string_drop 10 name
  else name.

(** A path inside one of the directories [dirs]. *)
Definition within (dirs : list string) (path : string) : Prop :=
  ∃ d rest, d ∈ dirs ∧ path = d ++ "/" ++ rest.

Definition logs_only {A : Type} (m : M A) : Prop :=
  ∀ w, (m w).2 = set_logger (fun _ => logger (m w).2) w.

(** The name of the dependency log of a job. *)
Definition dependencyLogName (pc : PackageBuild) : string :=
  DependencyLog (Build_ pc) ++ "." ++ Arch pc.

Definition with_CreateBuildLog (flag : bool) (pc : PackageBuild) : PackageBuild :=
  let b := Build_ pc in
  {| Build_ :=
       {| WorkspaceDir := WorkspaceDir b; SigningKey := SigningKey b;
          SigningPassphrase := SigningPassphrase b; CreateBuildLog := flag;
          DependencyLog := DependencyLog b; Configuration := Configuration b;
          SourceDateEpoch := SourceDateEpoch b; Build_OutDir := Build_OutDir b;
          Build_Arch := Build_Arch b; StripOriginName := StripOriginName b |};
     Origin := Origin pc; PackageName := PackageName pc;
     OriginName := OriginName pc; InstalledSize := InstalledSize pc;
     DataHash := DataHash pc; OutDir := OutDir pc; Dependencies := Dependencies pc;
     Arch := Arch pc; Options := Options pc; Scriptlets := Scriptlets pc;
     Description := Description pc; URL := URL pc; Commit := Commit pc |}.

(** The result of a step on a job, with the flag set afterwards. *)
Definition flagged (flag : bool) (r : option error * PackageBuild * World)
    : option error * PackageBuild * World :=
  (r.1.1, with_CreateBuildLog flag r.1.2, r.2).

Definition same_identity (pc pc' : PackageBuild) : Prop :=
  Build_ pc' = Build_ pc ∧ Origin pc' = Origin pc
  ∧ PackageName pc' = PackageName pc ∧ OutDir pc' = OutDir pc.

(** Two results that differ at most in the build-log flag of the job, in
    the logger, and in the file [packages.log]. *)
Definition agree_off_log (r0 r1 : option error * PackageBuild * World) : Prop :=
  r0.1.1 = r1.1.1
  ∧ r1.1.2 = with_CreateBuildLog true r0.1.2
  ∧ dirs r0.2 = dirs r1.2
  ∧ ∀ path, path ≠ "packages.log" → files r0.2 !! path = files r1.2 !! path.

Fixpoint last_byte (s : string) : option ascii :=
  match s with
  | EmptyString => None
  | String c EmptyString => Some c
  | String _ s' => last_byte s'
  end.

(** What [io.Copy] reads from an input in a given world. *)
Definition read_input (w : World) (input : Reader) : string :=
  match input with
  | BytesReader b => b
  | FileReader None => ""
  | FileReader (Some name) => default "" (files w !! name)
  end.

Definition reads_from (out : string) (input : Reader) : Prop :=
  input = FileReader (Some out).

(** The sections of the package a successful emission has written:
    the signature when there is one, the control section and the data
    section. *)
Record Sections : Type := {
  signatureData : option string;
  controlSectionData : string;
  dataSectionData : string;
  controlTar : string;
  dataTar : string;
}.

Definition apk_bytes (s : Sections) : string :=
  default "" (signatureData s) ++ controlSectionData s ++ dataSectionData s.

(** The sections are those the code has computed for the job [pc'] it
    returns. *)
Definition sections_of (X : Externals) (pc' : PackageBuild) (s : Sections) : Prop :=
  tarball_WriteTar X (dataTarOptions pc') (fs.readlinkFS (WorkspaceSubdir pc')) = Ok (dataTar s)
  ∧ dataSectionData s = dataMember X (dataTar s)
  ∧ tarball_WriteTar X (controlTarOptions pc') (fs.memfs (controlFS pc')) = Ok (controlTar s)
  ∧ controlSectionData s = gzip_member X (controlTar s)
  ∧ generateControlSection X pc' = Ok (controlSectionData s)
  ∧ match signatureData s with
    | Some sig =>
        wantSignature pc' = true
        ∧ EmitSignature X (Signer pc') (controlSectionData s) (SourceDateEpoch (Build_ pc'))
          = Ok sig
    | None => wantSignature pc' = false
    end.

(** A decoder of one gzip member: the payload of the member the input
    starts with, and the input that follows the member. *)
Definition Gunzip : Type := string → option (string * string).

(** [bytes] is a finished member with payload [payload]: wherever it
    stands, the decoder reads it and stops at its end. *)
Definition is_member (gunzip : Gunzip) (bytes payload : string) : Prop :=
  bytes ≠ "" ∧ ∀ rest, gunzip (bytes ++ rest) = Some (payload, rest).

(** Reading members until the input is used up, at most [fuel] of
    them. *)
Fixpoint gunzip_all (gunzip : Gunzip) (fuel : nat) (input : string)
    : option (list string) :=
  if String.eqb input "" then Some []
  else
    match fuel with
    | O => None
    | S fuel' =>
        match gunzip input with
        | Some (payload, rest) =>
            match gunzip_all gunzip fuel' rest with
            | Some payloads => Some (payload :: payloads)
            | None => None
            end
        | None => None
        end
    end.

(** The payloads a decoder is to find in a package, in order. *)
Definition payloads_of (signaturePayload : option string) (s : Sections) : list string :=
  match signaturePayload with
  | Some p => [p; controlTar s; dataTar s]
  | None => [controlTar s; dataTar s]
  end.

(** The same collaborators with another signer. *)
Definition with_EmitSignature (sign : ApkSigner → string → Z → result string)
    (X : Externals) : Externals :=
  {| WalkDir := WalkDir X; Readlink := Readlink X; Stat := Stat X;
     elf_Open := elf_Open X; pkgconfig_Load := pkgconfig_Load X;
     json_Marshal := json_Marshal X; sha256_Sum_hex := sha256_Sum_hex X;
     tarball_NewContext := tarball_NewContext X;
     tarball_WriteTar := tarball_WriteTar X;
     gzip_member := gzip_member X; pgzip_member := pgzip_member X;
     GOMAXPROCS := GOMAXPROCS X; EmitSignature := sign;
     Summarize := Summarize X |}.

(** ** A staged tree to run the code on *)

Module Scenario.

Definition NUL : string := String zero "".

Definition app_elf : elf.File :=
  {| elf.Progs :=
       [ {| elf.Type_ := 1%N; elf.Open := Ok "" |};
         {| elf.Type_ := elf.PT_INTERP; elf.Open := Ok ("/lib/ld-musl-x86_64.so.1" ++ NUL) |} ];
     elf.ImportedLibraries := Ok ["libssl.so.3"; "libfoo.so.2"; "libdl.so"];
     elf.DynString_SONAME := Err "no SONAME" |}.

Definition libfoo_elf : elf.File :=
  {| elf.Progs := [ {| elf.Type_ := 1%N; elf.Open := Ok "" |} ];
     elf.ImportedLibraries := Ok [];
     elf.DynString_SONAME := Ok ["libfoo.so.2"] |}.

Definition libbar_elf : elf.File :=
  {| elf.Progs := [];
     elf.ImportedLibraries := Ok ["libc.musl-x86_64.so.1"];
     elf.DynString_SONAME := Ok ["libbar.so.1"] |}.

(** A library whose soname holds [.so.] twice. *)
Definition libodd_elf : elf.File :=
  {| elf.Progs := [];
     elf.ImportedLibraries := Ok [];
     elf.DynString_SONAME := Ok ["libodd.so.1.so.2"] |}.

(** A program whose interpreter has [so:ld-musl] inside its name. *)
Definition odd_elf : elf.File :=
  {| elf.Progs :=
       [ {| elf.Type_ := elf.PT_INTERP;
            elf.Open := Ok ("/lib/compat-so:ld-musl-x86_64.so.1" ++ NUL) |} ];
     elf.ImportedLibraries := Ok [];
     elf.DynString_SONAME := Err "no SONAME" |}.

Definition regular (perm : N) (size : Z) : result fs.FileInfo :=
  Ok {| fs.Mode := perm; fs.Size := size |}.

Definition directory : result fs.FileInfo :=
  Ok {| fs.Mode := N.lor fs.ModeDir 493; fs.Size := 4096 |}.

Definition symlink : result fs.FileInfo :=
  Ok {| fs.Mode := N.lor fs.ModeSymlink 511; fs.Size := 13 |}.

Definition entry (p : string) (i : result fs.FileInfo) : fs.WalkEntry :=
  {| fs.path := p; fs.walk_err := None; fs.Info := i |}.

Definition tree : list fs.WalkEntry :=
  [ entry "." directory;
    entry "binx" directory;
    entry "binx/helper" (regular 493 10);
    entry "libexec" directory;
    entry "libexec/libbar.so.1" (regular 493 200);
    entry "usr" directory;
    entry "usr/bin" directory;
    entry "usr/bin/app" (regular 493 100);
    entry "usr/bin/tool" (regular 493 20);
    entry "usr/lib" directory;
    entry "usr/lib/libfoo.so.2" symlink;
    entry "usr/lib/libfoo.so.2.1" (regular 493 300);
    entry "usr/lib/pkgconfig" directory;
    entry "usr/lib/pkgconfig/bar.pc" (regular 420 40);
    entry "usr/lib/pkgconfig/foo.pc" (regular 420 50);
    entry "usr/share" directory;
    entry "usr/share/README" (regular 420 7) ].

(** A toy framing in place of gzip: the length of the payload in unary,
    a zero, the payload. *)
Fixpoint unary (n : nat) : string :=
  match n with
  | O => "0"
  | S k => String "1"%char (unary k)
  end.

Definition frame (payload : string) : string :=
  unary (String.length payload) ++ payload.

Fixpoint take_drop (n : nat) (s : string) : option (string * string) :=
  match n, s with
  | O, _ => Some ("", s)
  | S k, String c s' =>
      match take_drop k s' with
      | Some (t, d) => Some (String c t, d)
      | None => None
      end
  | S _, EmptyString => None
  end.

Fixpoint unframe_go (n : nat) (s : string) : option (string * string) :=
  match s with
  | EmptyString => None
  | String c s' =>
      if Ascii.eqb c "1"%char then unframe_go (S n) s'
      else if Ascii.eqb c "0"%char then take_drop n s'
      else None
  end.

Definition unframe (s : string) : option (string * string) := unframe_go 0 s.

Definition tar_of (fsys : fs.FS) : string :=
  match fsys with
  | fs.readlinkFS root => "tar:" ++ root
  | fs.memfs entries =>
      "tar:" ++ String.concat "," (List.map (fun '(name, _, _) => name) entries)
  end.

Definition X : Externals :=
  {| WalkDir := fun fsys =>
       match fsys with
       | fs.readlinkFS "/work/melange-out/hello" => tree
       | _ => []
       end;
     Readlink := fun p =>
       if String.eqb p "/work/melange-out/hello/usr/lib/libfoo.so.2"
       then Ok "libfoo.so.2.1" else Err "readlink: invalid argument";
     Stat := fun p =>
       if String.eqb p "/work/melange-out/hello/usr/lib/libfoo.so.2.1"
       then None else Some "stat: no such file or directory";
     elf_Open := fun p =>
       if String.eqb p "/work/melange-out/hello/usr/bin/app" then Ok app_elf
       else if String.eqb p "/work/melange-out/hello/usr/lib/libfoo.so.2.1" then Ok libfoo_elf
       else if String.eqb p "/work/melange-out/hello/libexec/libbar.so.1" then Ok libbar_elf
       else if String.eqb p "/work/melange-out/hello/usr/lib/libodd.so" then Ok libodd_elf
       else if String.eqb p "/work/melange-out/hello/usr/bin/odd" then Ok odd_elf
       else Err "bad magic number";
     pkgconfig_Load := fun p =>
       if String.eqb p "/work/melange-out/hello/usr/lib/pkgconfig/foo.pc"
       then Ok {| pkgconfig.Version := "1.0-rc2"; pkgconfig.Requires := [];
                  pkgconfig.RequiresPrivate := []; pkgconfig.RequiresInternal := [] |}
       else if String.eqb p "/work/melange-out/hello/usr/lib/pkgconfig/bar.pc"
       then Ok {| pkgconfig.Version := "2.0-rc1-pre2"; pkgconfig.Requires := [];
                  pkgconfig.RequiresPrivate := []; pkgconfig.RequiresInternal := [] |}
       else Err "no such file";
     json_Marshal := fun m => Ok ("{" ++ String.concat "," (fst <$> map_to_list m) ++ "}");
     sha256_Sum_hex := fun b => "sha256:" ++ fmt.d_N (N.of_nat (String.length b));
     tarball_NewContext := fun _ => None;
     tarball_WriteTar := fun _ fsys => Ok (tar_of fsys);
     gzip_member := frame;
     pgzip_member := fun _ _ => frame;
     GOMAXPROCS := 4;
     EmitSignature := fun signer control _ =>
       match signer with
       | FulcioApkSigner => Ok (frame "keyless-signature")
       | KeyApkSigner keyfile _ => Ok (frame ("signature-by:" ++ keyfile))
       end;
     Summarize := fun _ => [] |}.

Definition hello : config.Package :=
  {| config.Name := "hello"; config.Version := "1.0"; config.Epoch := 0;
     config.Description := "greets"; config.URL := ""; config.Commit := "";
     config.Copyright_ := [ {| config.License := "Apache-2.0" |} ];
     config.Dependencies_ :=
       {| config.Runtime := ["so:libfoo.so.2"; "busybox"; "busybox"];
          config.Provides := ["hello-virtual=1.0"];
          config.Replaces := []; config.ProviderPriority := 0 |};
     config.Options :=
       {| config.NoProvides := false; config.NoDepends := false;
          config.NoCommands := false |};
     config.Scriptlets_ :=
       {| config.Trigger_ := {| config.Script := ""; config.Paths := [] |};
          config.PreInstall := ""; config.PostInstall := "";
          config.PreDeinstall := ""; config.PostDeinstall := "";
          config.PreUpgrade := ""; config.PostUpgrade := "" |} |}.

Definition build (key deplog : string) (buildlog : bool) : Build :=
  {| WorkspaceDir := "/work"; SigningKey := key; SigningPassphrase := "";
     CreateBuildLog := buildlog; DependencyLog := deplog;
     Configuration := {| config.Package_ := hello; config.Subpackages := [] |};
     SourceDateEpoch := 0; Build_OutDir := "/out"; Build_Arch := "x86_64";
     StripOriginName := false |}.

Definition job (b : Build) : PackageBuild :=
  {| Build_ := b; Origin := {| Package := hello |};
     PackageName := "hello"; OriginName := "hello";
     InstalledSize := 0; DataHash := "";
     OutDir := "/out/x86_64";
     Dependencies := config.Dependencies_ hello;
     Arch := "x86_64";
     Options := config.Options hello;
     Scriptlets := config.Scriptlets_ hello;
     Description := config.Description hello;
     URL := config.URL hello; Commit := config.Commit hello |}.

(** A world in which the calls in [failing] fail. *)
Definition world (failing : OsCall → option error) : World :=
  {| files := ∅; dirs := ∅; logger := [];
     fault := failing; temp_dir := "/tmp"; temp_rand := "123456" |}.

Definition no_fault : OsCall → option error := fun _ => None.

(** The dependency log cannot be written (the disk is full). *)
Definition deplog_write_fails : OsCall → option error :=
  fun call =>
    match call with
    | CallWrite "/tmp/deps.x86_64" _ => Some "no space left on device"
    | _ => None
    end.

(** The dependency log cannot be created. *)
Definition deplog_create_fails : OsCall → option error :=
  fun call =>
    match call with
    | CallCreate "/tmp/deps.x86_64" => Some "permission denied"
    | _ => None
    end.

(** The build log cannot be opened. *)
Definition buildlog_open_fails : OsCall → option error :=
  fun call =>
    match call with
    | CallOpenFile "packages.log" => Some "permission denied"
    | _ => None
    end.

End Scenario.

(** ** Notions for the further properties *)

(** [g'] is [g] with entries added at the end of its runtime and of its
    provides, the added ones satisfying [okR] and [okP]; nothing else is
    changed. *)
Definition appends (okR okP : string → Prop) (g g' : config.Dependencies) : Prop :=
  (∃ more, config.Runtime g' = (config.Runtime g ++ more)%list ∧ Forall okR more)
  ∧ (∃ more, config.Provides g' = (config.Provides g ++ more)%list ∧ Forall okP more)
  ∧ config.Replaces g' = config.Replaces g
  ∧ config.ProviderPriority g' = config.ProviderPriority g.

Definition starts_with (pfx x : string) : Prop := strings.HasPrefix x pfx = true.

Definition never (x : string) : Prop := False.


(** The entry the command scanner makes for a file name. *)
Definition cmdProvide (pc : PackageBuild) (basename : string) : string :=
  "cmd:" ++ basename ++ "=" ++ pkgver pc.


(** The name [os.CreateTemp] gives the data section in a world. *)
Definition tempName (w : World) : string :=
  temp_dir w ++ "/" ++ "melange-data-" ++ temp_rand w ++ ".tar.gz".

(** The line [AppendBuildLog] writes for a job. *)
Definition buildLogLine (pc : PackageBuild) : string :=
  Arch pc ++ "|" ++ OriginName pc ++ "|" ++ PackageName pc ++ "|" ++ pkgver pc
  ++ String "010"%char "".

(** The sum of the sizes a walk reports, as the 64-bit counter holds
    it. *)
Fixpoint sum_sizes (acc : Z) (infos : list fs.FileInfo) : Z :=
  match infos with
  | [] => acc
  | fi :: rest => sum_sizes (wrap64 (acc + fs.Size fi)) rest
  end.



(** Between [w] and [w'] no file outside [names] has changed, and the
    faults and the source of temporary names are the same. *)
Definition writes_within (names : list string) (w w' : World) : Prop :=
  fault w' = fault w ∧ temp_dir w' = temp_dir w ∧ temp_rand w' = temp_rand w
  ∧ ∀ name, name ∉ names → files w' !! name = files w !! name.

(** A computation that, run where temporary files are named from [dir]
    and [rand], writes within [names]. *)
Definition frames {A : Type} (dir rand : string) (names : list string) (m : M A) : Prop :=
  ∀ w, temp_dir w = dir → temp_rand w = rand → writes_within names w (m w).2.

(** A signer that fails whenever it is asked to sign without a key. *)
Definition keyed_only (sign : ApkSigner → string → Z → result string)
    : ApkSigner → string → Z → result string :=
  fun signer data epoch =>
    match signer with
    | FulcioApkSigner => Err "keyless signing is not available"
    | KeyApkSigner _ _ => sign signer data epoch
    end.

(** The files an emission of [pc] from [w] may write: the dependency log
    when one is asked for, the temporary data file, the package, and the
    build log when one is asked for. *)
Definition emissionFiles (pc : PackageBuild) (w : World) : list string :=
  ((if String.eqb (DependencyLog (Build_ pc)) "" then [] else [dependencyLogName pc])
   ++ [tempName w; Filename pc]
   ++ (if CreateBuildLog (Build_ pc) then ["packages.log"] else []))%list.



(** The walk reports the entry without error and as a symbolic link. *)
Definition symlink_entry (e : fs.WalkEntry) : bool :=
  match fs.walk_err e, fs.Info e with
  | None, Ok fi => N.eqb (N.land (fs.Type_ (fs.Mode fi)) fs.ModeSymlink) fs.ModeSymlink
  | _, _ => false
  end.

Definition with_Options (o : config.PackageOption) (pc : PackageBuild) : PackageBuild :=
  {| Build_ := Build_ pc; Origin := Origin pc; PackageName := PackageName pc;
     OriginName := OriginName pc; InstalledSize := InstalledSize pc;
     DataHash := DataHash pc; OutDir := OutDir pc; Dependencies := Dependencies pc;
     Arch := Arch pc; Options := o; Scriptlets := Scriptlets pc;
     Description := Description pc; URL := URL pc; Commit := Commit pc |}.

Definition with_WalkDir (walk : fs.FS → list fs.WalkEntry) (X : Externals) : Externals :=
  {| WalkDir := walk; Readlink := Readlink X; Stat := Stat X;
     elf_Open := elf_Open X; pkgconfig_Load := pkgconfig_Load X;
     json_Marshal := json_Marshal X; sha256_Sum_hex := sha256_Sum_hex X;
     tarball_NewContext := tarball_NewContext X;
     tarball_WriteTar := tarball_WriteTar X;
     gzip_member := gzip_member X; pgzip_member := pgzip_member X;
     GOMAXPROCS := GOMAXPROCS X; EmitSignature := EmitSignature X;
     Summarize := Summarize X |}.

(** * Properties *)

(** ** Strings *)

Section StringFacts.

Lemma string_app_cons (c : ascii) (s t : string) : String c s ++ t = String c (s ++ t).
Proof. reflexivity. Qed.

Lemma string_app_nil_l (s : string) : "" ++ s = s.
Proof. reflexivity. Qed.

Lemma string_app_nil_r (s : string) : s ++ "" = s.
Proof.
  induction s as [|c s IH]; [reflexivity |].
  now rewrite string_app_cons, IH.
Qed.

Lemma string_app_assoc (a b c : string) : (a ++ b) ++ c = a ++ (b ++ c).
Proof.
  induction a as [|x a IH]; [reflexivity |].
  now rewrite !string_app_cons, IH.
Qed.

Lemma HasPrefix_nil (s : string) : strings.HasPrefix s "" = true.
Proof. reflexivity. Qed.

Lemma HasPrefix_cons (c d : ascii) (s p : string) :
  strings.HasPrefix (String d s) (String c p)
  = if Ascii.eqb c d then strings.HasPrefix s p else false.
Proof. reflexivity. Qed.

Lemma HasPrefix_app (p r : string) : strings.HasPrefix (p ++ r) p = true.
Proof.
  induction p as [|c p IH]; [reflexivity |].
  rewrite string_app_cons. simpl. now rewrite Ascii.eqb_refl.
Qed.

Lemma HasPrefix_inv (s p : string) :
  strings.HasPrefix s p = true → ∃ r, s = p ++ r.
Proof.
  revert s; induction p as [|c p IH]; intros s H.
  - exists s; reflexivity.
  - destruct s as [|d s]; simpl in H; [discriminate |].
    destruct (Ascii.eqb c d) eqn:E; [| discriminate].
    apply Ascii.eqb_eq in E; subst d.
    destruct (IH _ H) as [r ->]. now exists r.
Qed.

Lemma HasPrefix_iff (s p : string) :
  strings.HasPrefix s p = true ↔ ∃ r, s = p ++ r.
Proof.
  split; [apply HasPrefix_inv | intros [r ->]; apply HasPrefix_app].
Qed.

Lemma split_go_head (sep cur s : string) :
  sep = "=" →
  nth 0 (strings.split_go sep 0 cur s) "" = cur ++ name_prefix s.
Proof.
  intros ->. revert cur; induction s as [|c s IH]; intros cur;
    cbn [strings.split_go name_prefix].
  - now rewrite string_app_nil_r.
  - rewrite HasPrefix_cons, HasPrefix_nil.
    destruct (Ascii.eqb "="%char c) eqn:E.
    + cbn [nth]. now rewrite string_app_nil_r.
    + rewrite IH, string_app_assoc. reflexivity.
Qed.

Lemma Split_eq_head (p : string) : nth 0 (strings.Split p "=") "" = name_prefix p.
Proof. unfold strings.Split. now rewrite split_go_head. Qed.

End StringFacts.

(** ** The order of [sort.Strings] *)

Section StringOrder.

Lemma ascii_compare_refl (a : ascii) : Ascii.compare a a = Eq.
Proof. unfold Ascii.compare. apply N.compare_refl. Qed.

Lemma string_compare_refl (s : string) : String.compare s s = Eq.
Proof.
  induction s as [|c s IH]; simpl; [reflexivity |].
  now rewrite ascii_compare_refl.
Qed.

Lemma string_compare_eq (a b : string) : String.compare a b = Eq ↔ a = b.
Proof.
  split; [apply String.compare_eq_iff | intros ->; apply string_compare_refl].
Qed.

Lemma ascii_compare_lt_trans (a b c : ascii) :
  Ascii.compare a b = Lt → Ascii.compare b c = Lt → Ascii.compare a c = Lt.
Proof.
  unfold Ascii.compare. rewrite !N.compare_lt_iff. apply N.lt_trans.
Qed.

Lemma string_compare_lt_trans (a b c : string) :
  String.compare a b = Lt → String.compare b c = Lt → String.compare a c = Lt.
Proof.
  revert b c; induction a as [|x a IH]; intros [|y b] [|z c]; simpl;
    try discriminate; try reflexivity.
  destruct (Ascii.compare x y) eqn:Exy; try discriminate;
    destruct (Ascii.compare y z) eqn:Eyz; try discriminate; intros Hab Hbc.
  - apply Ascii.compare_eq_iff in Exy, Eyz. subst.
    rewrite ascii_compare_refl. eauto.
  - apply Ascii.compare_eq_iff in Exy. subst. now rewrite Eyz.
  - apply Ascii.compare_eq_iff in Eyz. subst. now rewrite Exy.
  - now rewrite (ascii_compare_lt_trans _ _ _ Exy Eyz).
Qed.

Lemma string_le_lt_eq (a b : string) :
  sort.string_le a b ↔ sort.string_lt a b ∨ a = b.
Proof.
  unfold sort.string_le, sort.string_lt, String.leb, String.ltb.
  destruct (String.compare a b) eqn:E.
  - apply string_compare_eq in E. tauto.
  - tauto.
  - split; [discriminate |]. intros [? | ->]; [discriminate |].
    rewrite string_compare_refl in E. discriminate.
Qed.

Lemma string_lt_irrefl (a : string) : ¬ sort.string_lt a a.
Proof.
  unfold sort.string_lt, String.ltb. now rewrite string_compare_refl.
Qed.

Lemma string_lt_trans (a b c : string) :
  sort.string_lt a b → sort.string_lt b c → sort.string_lt a c.
Proof.
  unfold sort.string_lt, String.ltb.
  destruct (String.compare a b) eqn:Eab; try discriminate.
  destruct (String.compare b c) eqn:Ebc; try discriminate.
  now rewrite (string_compare_lt_trans _ _ _ Eab Ebc).
Qed.

Lemma string_lt_le_trans (a b c : string) :
  sort.string_lt a b → sort.string_le b c → sort.string_lt a c.
Proof.
  intros Hab Hbc. apply string_le_lt_eq in Hbc as [Hbc | ->]; [| assumption].
  eapply string_lt_trans; eassumption.
Qed.

#[local] Instance string_le_trans : Transitive sort.string_le.
Proof.
  intros a b c Hab Hbc. apply string_le_lt_eq in Hab as [Hab | ->]; [| assumption].
  apply string_le_lt_eq. left. eapply string_lt_le_trans; eassumption.
Qed.

#[local] Instance string_le_total : Total sort.string_le.
Proof. intros a b. apply String.leb_total. Qed.

Lemma string_le_empty (s : string) : sort.string_le "" s.
Proof. destruct s; reflexivity. Qed.

Lemma Strings_sorted (l : list string) : StronglySorted sort.string_le (sort.Strings l).
Proof. apply StronglySorted_merge_sort; apply _. Qed.

Lemma Strings_elem (l : list string) (x : string) : x ∈ sort.Strings l ↔ x ∈ l.
Proof. unfold sort.Strings. now rewrite merge_sort_Permutation. Qed.

Lemma strictly_ascending_NoDup (l : list string) : strictly_ascending l → NoDup l.
Proof.
  induction 1 as [|a l _ IH Hall]; constructor; [| assumption].
  intros Hin. rewrite Forall_forall in Hall.
  apply (string_lt_irrefl a). now apply Hall.
Qed.

End StringOrder.

(** ** [dedup] *)

Section Dedup.

Lemma dedup_loop_out (prev : string) (l out : list string) :
  dedup_loop prev l out = (out ++ dedup_loop prev l [])%list.
Proof.
  revert prev out; induction l as [|cur rest IH]; intros prev out; simpl.
  - now rewrite app_nil_r.
  - destruct (String.eqb cur prev); [apply IH |].
    rewrite (IH cur (append out [cur])), (IH cur [cur]).
    unfold append. now rewrite <- app_assoc.
Qed.

Lemma dedup_loop_cons (prev cur : string) (rest : list string) :
  dedup_loop prev (cur :: rest) [] =
    if String.eqb cur prev then dedup_loop prev rest []
    else cur :: dedup_loop cur rest [].
Proof.
  simpl. destruct (String.eqb cur prev); [reflexivity |].
  now rewrite dedup_loop_out.
Qed.

(** On an ascending input none of whose entries is below [prev], the
    loop keeps strictly more than [prev], in strictly ascending order. *)
Lemma dedup_loop_ascending (l : list string) :
  ∀ prev,
    StronglySorted sort.string_le l →
    Forall (sort.string_le prev) l →
    strictly_ascending (dedup_loop prev l [])
    ∧ Forall (sort.string_lt prev) (dedup_loop prev l []).
Proof.
  induction l as [|cur rest IH]; intros prev Hs Hp.
  - split; constructor.
  - apply StronglySorted_inv in Hs as [Hs Hcur].
    apply Forall_cons in Hp as [Hpc Hp].
    rewrite dedup_loop_cons. destruct (String.eqb_spec cur prev) as [-> | Hne].
    + now apply IH.
    + destruct (IH cur Hs Hcur) as [Hasc Hgt].
      assert (Hlt : sort.string_lt prev cur).
      { apply string_le_lt_eq in Hpc as [? | ->]; [assumption | congruence]. }
      split.
      * constructor; [exact Hasc | exact Hgt].
      * constructor; [exact Hlt |].
        eapply Forall_impl; [exact Hgt |].
        intros x Hx. eapply string_lt_trans; eassumption.
Qed.

Lemma dedup_loop_elem (l : list string) :
  ∀ prev x,
    StronglySorted sort.string_le l →
    Forall (sort.string_le prev) l →
    x ∈ dedup_loop prev l [] ↔ x ∈ l ∧ x ≠ prev.
Proof.
  induction l as [|cur rest IH]; intros prev x Hs Hp.
  - simpl. rewrite elem_of_nil. tauto.
  - apply StronglySorted_inv in Hs as [Hs Hcur].
    apply Forall_cons in Hp as [Hpc Hp].
    rewrite dedup_loop_cons. destruct (String.eqb_spec cur prev) as [-> | Hne].
    + rewrite (IH prev x Hs Hp), elem_of_cons. intuition congruence.
    + rewrite !elem_of_cons, (IH cur x Hs Hcur). split.
      * intros [-> | [Hin Hx]]; [tauto |]. split; [tauto |]. intros ->.
        rewrite Forall_forall in Hcur. specialize (Hcur _ Hin).
        apply Hx. apply String.leb_antisym; assumption.
      * intros [[-> | Hin] Hx]; [tauto |].
        destruct (String.eqb_spec x cur); tauto.
Qed.

Lemma dedup_ascending (l : list string) : strictly_ascending (dedup l).
Proof.
  unfold dedup. apply dedup_loop_ascending.
  - apply Strings_sorted.
  - apply Forall_forall. intros x _. apply string_le_empty.
Qed.

(** What [dedup] keeps: every string of the input but the empty one. *)
Lemma dedup_elem (l : list string) (x : string) : x ∈ dedup l ↔ x ∈ l ∧ x ≠ "".
Proof.
  unfold dedup. rewrite dedup_loop_elem, Strings_elem; [reflexivity | |].
  - apply Strings_sorted.
  - apply Forall_forall. intros y _. apply string_le_empty.
Qed.

(** [prev] starts as the empty string, so an empty entry is dropped like
    a repetition. *)
Example dedup_drops_empty : dedup [""; "b"; "a"; "b"; ""] = ["a"; "b"].
Proof. reflexivity. Qed.

End Dedup.

(** ** [removeSelfProvidedDeps] *)

Section SelfProvided.

Lemma providedDepsMap_fold (l : list string) :
  ∀ (m : gmap string bool) (k : string),
    is_Some (fold_left (fun m v => <[ provided_name v := true ]> m) l m !! k)
    ↔ is_Some (m !! k) ∨ ∃ v, v ∈ l ∧ provided_name v = k.
Proof.
  induction l as [|v l IH]; intros m k; simpl.
  - split; [tauto |]. intros [? | (v & Hv & _)]; [assumption |].
    now apply elem_of_nil in Hv.
  - rewrite IH. split.
    + intros [Hk | (v' & Hin & Hk)].
      * destruct (decide (provided_name v = k)) as [E | E].
        -- right. exists v. split; [left | exact E].
        -- left. now rewrite lookup_insert_ne in Hk.
      * right. exists v'. split; [now right | exact Hk].
    + intros [Hk | (v' & Hin & Hk)].
      * left. destruct (decide (provided_name v = k)) as [<- | E].
        -- rewrite lookup_insert_eq. eauto.
        -- now rewrite lookup_insert_ne.
      * apply elem_of_cons in Hin as [-> | Hin].
        -- left. subst k. rewrite lookup_insert_eq. eauto.
        -- right. eauto.
Qed.

Lemma providedDepsMap_lookup (providedDeps : list string) (k : string) :
  is_Some (providedDepsMap providedDeps !! k)
  ↔ ∃ v, v ∈ providedDeps ∧ name_prefix v = k.
Proof.
  unfold providedDepsMap.
  change (fun m versionedDep => <[ nth 0 (strings.Split versionedDep "=") "" := true ]> m)
    with (fun (m : gmap string bool) v => <[ provided_name v := true ]> m).
  rewrite providedDepsMap_fold, lookup_empty. unfold provided_name. split.
  - intros [[? [=]] | (v & Hv & Hk)]. exists v. now rewrite <- Split_eq_head.
  - intros (v & Hv & Hk). right. exists v. now rewrite Split_eq_head.
Qed.

Lemma remove_loop (m : gmap string bool) (l : list string) :
  ∀ acc : list string,
    fold_left (fun newRuntimeDeps dep =>
                 match m !! dep with
                 | Some _ => newRuntimeDeps
                 | None => append newRuntimeDeps [dep]
                 end) l acc
    = (acc ++ List.filter (not_provided m) l)%list.
Proof.
  induction l as [|dep l IH]; intros acc; simpl.
  - now rewrite app_nil_r.
  - rewrite IH. unfold not_provided. destruct (m !! dep); [reflexivity |].
    unfold append. now rewrite <- app_assoc.
Qed.

Lemma removeSelfProvidedDeps_filter (runtimeDeps providedDeps : list string) :
  removeSelfProvidedDeps runtimeDeps providedDeps
  = List.filter (not_provided (providedDepsMap providedDeps)) runtimeDeps.
Proof. unfold removeSelfProvidedDeps. now rewrite remove_loop. Qed.

Lemma removeSelfProvidedDeps_elem (runtimeDeps providedDeps : list string) (r : string) :
  r ∈ removeSelfProvidedDeps runtimeDeps providedDeps
  ↔ r ∈ runtimeDeps ∧ ∀ p, p ∈ providedDeps → r ≠ name_prefix p.
Proof.
  rewrite removeSelfProvidedDeps_filter, list_elem_of_In, filter_In, <- list_elem_of_In.
  apply and_iff_compat_l. unfold not_provided.
  pose proof (providedDepsMap_lookup providedDeps r) as Hm.
  destruct (providedDepsMap providedDeps !! r) as [b|].
  - split; [discriminate |]. intros Hno.
    destruct (proj1 Hm (ltac:(eauto))) as (v & Hv & Hk).
    exfalso. now apply (Hno v).
  - split; [| reflexivity]. intros _ p Hp ->.
    destruct (proj2 Hm (ex_intro _ p (conj Hp eq_refl))) as [? [=]].
Qed.

Lemma StronglySorted_filter {A : Type} (R : relation A) (keep : A → bool) (l : list A) :
  StronglySorted R l → StronglySorted R (List.filter keep l).
Proof.
  induction 1 as [|a l _ IH Hall]; simpl; [constructor |].
  destruct (keep a); [| exact IH].
  constructor; [exact IH |].
  apply Forall_forall. intros x Hx.
  apply list_elem_of_In, filter_In in Hx as [Hx _].
  rewrite Forall_forall in Hall. now apply Hall, list_elem_of_In.
Qed.

End SelfProvided.

(** ** [GenerateDependencies] *)

Section Generation.

Variable X : Externals.

Lemma mergeDependencies_Provides (declared generated : config.Dependencies) :
  config.Provides (mergeDependencies declared generated)
  = dedup (append (config.Provides declared) (config.Provides generated)).
Proof. reflexivity. Qed.

Lemma mergeDependencies_Runtime (declared generated : config.Dependencies) :
  config.Runtime (mergeDependencies declared generated)
  = removeSelfProvidedDeps
      (dedup (append (config.Runtime declared) (config.Runtime generated)))
      (dedup (append (config.Provides declared) (config.Provides generated))).
Proof. reflexivity. Qed.

(** A successful return has run the merge on the declared set and on
    what the generators produced; a failing return leaves the job as it
    was. *)
Lemma GenerateDependencies_inv (pc pc' : PackageBuild) (w w' : World) (r : option error) :
  GenerateDependencies X pc w = (r, pc', w') →
  match r with
  | None =>
      ∃ generated,
        Dependencies pc' = mergeDependencies (Dependencies pc) generated
  | Some _ => pc' = pc
  end.
Proof.
  unfold GenerateDependencies, bind, ret.
  destruct (run_generators (generators X) pc config.no_Dependencies w)
    as [[[e|] generated] w1]; intros [= <- <- <-].
  - reflexivity.
  - exists generated. reflexivity.
Qed.

End Generation.

(** C1.  After a successful [GenerateDependencies], no entry of the
    runtime list is the name (the bytes before the first [=]) of an entry
    of the provides list. *)
Theorem self_provides_filter (X : Externals) (pc pc' : PackageBuild) (w w' : World) :
  GenerateDependencies X pc w = (None, pc', w') →
  ∀ r p,
    r ∈ config.Runtime (Dependencies pc') →
    p ∈ config.Provides (Dependencies pc') →
    r ≠ name_prefix p.
Proof.
  intros Hgen r p Hr Hp.
  apply GenerateDependencies_inv in Hgen as [generated Hd].
  rewrite Hd, mergeDependencies_Runtime in Hr.
  rewrite Hd, mergeDependencies_Provides in Hp.
  apply removeSelfProvidedDeps_elem in Hr as [_ Hr].
  now apply Hr.
Qed.

Lemma self_provides_filter_witness :
  let res := GenerateDependencies Scenario.X (Scenario.job (Scenario.build "" "" false))
               (Scenario.world Scenario.no_fault) in
  res.1.1 = None
  ∧ "so:libfoo.so.2=2" ∈ config.Provides (Dependencies res.1.2)
  ∧ ∀ r p,
      r ∈ config.Runtime (Dependencies res.1.2) →
      p ∈ config.Provides (Dependencies res.1.2) →
      r ≠ name_prefix p.
Proof.
  intros res. split; [vm_compute; reflexivity |]. split.
  - vm_compute. do 7 right. left.
  - apply (self_provides_filter Scenario.X
             (Scenario.job (Scenario.build "" "" false))
             res.1.2 (Scenario.world Scenario.no_fault) res.2).
    vm_compute. reflexivity.
Defined.

(** C2.  After a successful [GenerateDependencies], the runtime list and
    the provides list are strictly ascending in byte-wise lexicographic
    order, and so hold no string twice. *)
Theorem sorted_and_deduplicated (X : Externals) (pc pc' : PackageBuild) (w w' : World) :
  GenerateDependencies X pc w = (None, pc', w') →
  strictly_ascending (config.Runtime (Dependencies pc'))
  ∧ strictly_ascending (config.Provides (Dependencies pc'))
  ∧ NoDup (config.Runtime (Dependencies pc'))
  ∧ NoDup (config.Provides (Dependencies pc')).
Proof.
  intros Hgen.
  apply GenerateDependencies_inv in Hgen as [generated Hd].
  assert (Hr : strictly_ascending (config.Runtime (Dependencies pc'))).
  { rewrite Hd, mergeDependencies_Runtime, removeSelfProvidedDeps_filter.
    apply StronglySorted_filter, dedup_ascending. }
  assert (Hp : strictly_ascending (config.Provides (Dependencies pc'))).
  { rewrite Hd, mergeDependencies_Provides. apply dedup_ascending. }
  auto using strictly_ascending_NoDup.
Qed.

Lemma sorted_and_deduplicated_witness :
  let res := GenerateDependencies Scenario.X (Scenario.job (Scenario.build "" "" false))
               (Scenario.world Scenario.no_fault) in
  config.Runtime (Dependencies res.1.2)
  = ["busybox"; "so:libc.musl-x86_64.so.1"; "so:libssl.so.3"]
  ∧ config.Provides (Dependencies res.1.2)
    = ["cmd:app=1.0-r0"; "cmd:helper=1.0-r0"; "cmd:tool=1.0-r0"; "hello-virtual=1.0";
       "pc:bar=2.0_rc1_pre2"; "pc:foo=1.0_rc2"; "so:libbar.so.1=1"; "so:libfoo.so.2=2"]
  ∧ strictly_ascending (config.Runtime (Dependencies res.1.2))
  ∧ strictly_ascending (config.Provides (Dependencies res.1.2))
  ∧ NoDup (config.Runtime (Dependencies res.1.2))
  ∧ NoDup (config.Provides (Dependencies res.1.2)).
Proof.
  intros res. split; [vm_compute; reflexivity |].
  split; [vm_compute; reflexivity |].
  apply (sorted_and_deduplicated Scenario.X
           (Scenario.job (Scenario.build "" "" false))
           res.1.2 (Scenario.world Scenario.no_fault) res.2).
  vm_compute. reflexivity.
Defined.

(** ** Splitting and replacing *)

Section SplitReplace.

Lemma string_drop_app (t r : string) : string_drop (String.length t) (t ++ r) = r.
Proof. induction t as [|c t IH]; [reflexivity | exact IH]. Qed.

Lemma split_go_skip (sep t r cur : string) :
  strings.split_go sep (String.length t) cur (t ++ r) = strings.split_go sep 0 cur r.
Proof. induction t as [|c t IH]; [reflexivity | exact IH]. Qed.

Lemma replace_go_skip (old new t r : string) :
  strings.replace_go old new (String.length t) (t ++ r) = strings.replace_go old new 0 r.
Proof. induction t as [|c t IH]; [reflexivity | exact IH]. Qed.

Lemma replace_all_go_skip (t r : string) :
  regexp.replace_all_go (String.length t) (t ++ r) = regexp.replace_all_go 0 r.
Proof. induction t as [|c t IH]; [reflexivity | exact IH]. Qed.

(** The fields of a split: the bytes before the first separator, then
    the fields of what follows it. *)
Lemma split_go_fields (d : ascii) (sep' s : string) :
  ∀ cur,
    strings.split_go (String d sep') 0 cur s
    = (cur ++ before_first (String d sep') s)
      :: match after_first (String d sep') s with
         | Some r => strings.Split r (String d sep')
         | None => []
         end.
Proof.
  induction s as [|c s IH]; intros cur.
  - simpl. now rewrite string_app_nil_r.
  - cbn [strings.split_go before_first after_first].
    destruct (strings.HasPrefix (String c s) (String d sep')) eqn:E.
    + apply HasPrefix_inv in E as [r E]. rewrite string_app_cons in E.
      injection E as -> ->.
      cbn [String.length Nat.sub string_drop].
      rewrite Nat.sub_0_r, split_go_skip, string_drop_app, string_app_nil_r.
      reflexivity.
    + rewrite IH, string_app_assoc. reflexivity.
Qed.

Lemma libver_is_field (soname : string) : libver soname = libver_field soname.
Proof.
  unfold libver, libver_field, strings.Split.
  rewrite split_go_fields.
  destruct (after_first ".so." soname) as [r|]; [| reflexivity].
  unfold strings.Split. rewrite split_go_fields. reflexivity.
Qed.

Lemma ReplaceAll_at_prefix (d : ascii) (old' new r : string) :
  strings.ReplaceAll (String d old' ++ r) (String d old') new
  = new ++ strings.ReplaceAll r (String d old') new.
Proof.
  unfold strings.ReplaceAll. rewrite string_app_cons.
  cbn [strings.replace_go].
  rewrite HasPrefix_cons, Ascii.eqb_refl, HasPrefix_app.
  cbn [String.length Nat.sub]. now rewrite Nat.sub_0_r, replace_go_skip.
Qed.

Lemma Contains_cons_false (c : ascii) (s sub : string) :
  strings.Contains (String c s) sub = false →
  strings.HasPrefix (String c s) sub = false ∧ strings.Contains s sub = false.
Proof. cbn [strings.Contains]. apply orb_false_elim. Qed.

Lemma ReplaceAll_absent (s old new : string) :
  strings.Contains s old = false → strings.ReplaceAll s old new = s.
Proof.
  unfold strings.ReplaceAll. induction s as [|c s IH]; intros H; [reflexivity |].
  apply Contains_cons_false in H as [Hp Hc].
  cbn [strings.replace_go]. now rewrite Hp, IH.
Qed.

End SplitReplace.

(** ** The pkg-config version rewrite *)

Section VersionRewrite.

Lemma string_length_app (a b : string) :
  String.length (a ++ b) = (String.length a + String.length b)%nat.
Proof.
  induction a as [|c a IH]; [reflexivity |].
  rewrite string_app_cons. simpl. now rewrite IH.
Qed.

Local Ltac matched g E IH :=
  let r := fresh "r" in
  let Hr := fresh "Hr" in
  apply HasPrefix_inv in E as [r Hr];
  rewrite string_app_cons in Hr; injection Hr as -> ->;
  change (regexp.replace_all_go _ (g ++ r))
    with (regexp.replace_all_go (String.length g) (g ++ r));
  rewrite replace_all_go_skip, IH;
  [reflexivity
  | match goal with
    | H : (String.length _ ≤ _)%nat |- _ =>
        simpl in H; rewrite string_length_app in H; simpl in H; lia
    end].

Lemma replace_all_go_every (n : nat) :
  ∀ s, (String.length s ≤ n)%nat → regexp.replace_all_go 0 s = apk_version_every s.
Proof.
  induction n as [|n IH]; intros [|c s] Hlen; try reflexivity.
  { simpl in Hlen. lia. }
  cbn [regexp.replace_all_go apk_version_every]. unfold regexp.match_here.
  destruct (strings.HasPrefix (String c s) "-alpha") eqn:E1; [matched "alpha" E1 IH |].
  destruct (strings.HasPrefix (String c s) "-beta") eqn:E2; [matched "beta" E2 IH |].
  destruct (strings.HasPrefix (String c s) "-rc") eqn:E3; [matched "rc" E3 IH |].
  destruct (strings.HasPrefix (String c s) "-pre") eqn:E4; [matched "pre" E4 IH |].
  rewrite IH; [reflexivity | simpl in Hlen; lia].
Qed.

(** [ReplaceAllString] turns the dash of every match into an
    underscore. *)
Lemma ReplaceAllString_every (v : string) :
  regexp.ReplaceAllString v = apk_version_every v.
Proof. apply (replace_all_go_every (String.length v)). lia. Qed.

End VersionRewrite.

(** ** The walk functions *)

Section WalkFunctions.

Variable X : Externals.

Lemma regular_not_symlink (m : fs.FileMode) :
  fs.IsRegular m = true →
  N.eqb (N.land (fs.Type_ m) fs.ModeSymlink) fs.ModeSymlink = false.
Proof.
  unfold fs.IsRegular, fs.Type_. intros H. apply N.eqb_eq in H. now rewrite H.
Qed.

Lemma allowedPrefix_iff (path : string) (prefixes : list string) :
  allowedPrefix path prefixes = true
  ↔ ∃ pfx rest, pfx ∈ prefixes ∧ path = pfx ++ rest.
Proof.
  induction prefixes as [|p l IH]; simpl.
  - split; [discriminate |]. intros (? & ? & H & _). now apply elem_of_nil in H.
  - destruct (strings.HasPrefix path p) eqn:E.
    + split; [| reflexivity]. intros _.
      apply HasPrefix_inv in E as [r ->]. exists p, r. split; [left | reflexivity].
    + rewrite IH. split.
      * intros (pfx & rest & Hin & ->). exists pfx, rest. split; [now right | reflexivity].
      * intros (pfx & rest & Hin & ->). apply elem_of_cons in Hin as [-> | Hin].
        -- now rewrite HasPrefix_app in E.
        -- eauto.
Qed.

Lemma within_allowedPrefix (dirs : list string) (path : string) :
  within dirs path → allowedPrefix path dirs = true.
Proof.
  intros (d & rest & Hd & ->). apply allowedPrefix_iff. eauto.
Qed.

Lemma scanLibs_Provides (path : string) (libs : list string) :
  ∀ st, config.Provides (scanLibs path libs st).1 = config.Provides st.1.
Proof.
  unfold scanLibs. induction libs as [|lib libs IH]; intros [g d]; [reflexivity |].
  simpl. destruct (strings.Contains lib ".so."); rewrite IH; reflexivity.
Qed.

Lemma scanLibs_Runtime (path : string) (libs : list string) :
  ∀ st, ∃ more,
    config.Runtime (scanLibs path libs st).1 = (config.Runtime st.1 ++ more)%list.
Proof.
  unfold scanLibs. induction libs as [|lib libs IH]; intros [g d].
  - exists []. simpl. now rewrite app_nil_r.
  - simpl. destruct (strings.Contains lib ".so.").
    + edestruct IH as [more ->]. simpl. unfold append. rewrite <- app_assoc. eauto.
    + apply IH.
Qed.

(** The walk function on a regular file with the 0555 bits set goes to
    the branch for executables. *)
Lemma soWalkFn_executable (pc : PackageBuild) (e : fs.WalkEntry) (fi : fs.FileInfo)
    (st : Scan) :
  fs.walk_err e = None →
  fs.Info e = Ok fi →
  fs.IsRegular (fs.Mode fi) = true →
  N.land (fs.Perm (fs.Mode fi)) perm_rx = perm_rx →
  soWalkFn X pc e st = soExecutable X pc (fs.path e) st.
Proof.
  intros He Hi Hr Hp. unfold soWalkFn.
  now rewrite He, Hi, (regular_not_symlink _ Hr), Hr, Hp, N.eqb_refl.
Qed.

End WalkFunctions.

(** C4 (amended).  For a [.pc] file that is not a symlink and whose
    descriptor loads with version [v], with no-provides unset, the walk
    function appends [pc:{basename-without-.pc}={apk-version(v)}] to the
    provides, where [apk-version] turns the dash of every occurrence of
    [-alpha], [-beta], [-rc] or [-pre] into an underscore; [1.0-rc2]
    becomes [1.0_rc2]. *)
Theorem pkgconfig_provides_entry (X : Externals) (pc : PackageBuild) (e : fs.WalkEntry)
    (generated : config.Dependencies) (w : World) (fi : fs.FileInfo)
    (pkg : pkgconfig.Package) :
  fs.walk_err e = None →
  strings.HasSuffix (fs.path e) ".pc" = true →
  fs.Info e = Ok fi →
  N.land (fs.Type_ (fs.Mode fi)) fs.ModeSymlink ≠ fs.ModeSymlink →
  pkgconfig_Load X (filepath.Join [WorkspaceSubdir pc; fs.path e]) = Ok pkg →
  config.NoProvides (Options pc) = false →
  pcWalkFn X pc e generated w
  = (None,
     set_Provides
       (append (config.Provides generated)
               ["pc:" ++ (strings.CutSuffix (filepath.Base (fs.path e)) ".pc").1
                ++ "=" ++ apk_version_every (pkgconfig.Version pkg)])
       generated,
     w)
  ∧ apk_version_every "1.0-rc2" = "1.0_rc2".
Proof.
  intros He Hs Hi Hl Hp Hn. split; [| reflexivity].
  unfold pcWalkFn. rewrite He, Hs, Hi. cbn [negb].
  apply N.eqb_neq in Hl. rewrite Hl, Hp, Hn. cbn [negb].
  unfold generateRuntimePkgConfigDeps, pcProvide, ret, append.
  now rewrite ReplaceAllString_every.
Qed.

Lemma pkgconfig_provides_entry_witness :
  let e := Scenario.entry "usr/lib/pkgconfig/foo.pc" (Scenario.regular 420 50) in
  let pc := Scenario.job (Scenario.build "" "" false) in
  config.Provides
    (pcWalkFn Scenario.X pc e config.no_Dependencies (Scenario.world Scenario.no_fault)).1.2
  = ["pc:foo=1.0_rc2"].
Proof.
  intros e pc.
  rewrite (proj1 (pkgconfig_provides_entry Scenario.X pc e config.no_Dependencies
                    (Scenario.world Scenario.no_fault)
                    {| fs.Mode := 420%N; fs.Size := 50 |}
                    {| pkgconfig.Version := "1.0-rc2"; pkgconfig.Requires := [];
                       pkgconfig.RequiresPrivate := []; pkgconfig.RequiresInternal := [] |}
                    eq_refl eq_refl eq_refl ltac:(vm_compute; discriminate)
                    eq_refl eq_refl)).
  reflexivity.
Defined.

(** C4 as worded fails: a version with two matches has both rewritten,
    not the first alone. *)
Lemma pkgconfig_first_occurrence_counterexample :
  let e := Scenario.entry "usr/lib/pkgconfig/bar.pc" (Scenario.regular 420 40) in
  let pc := Scenario.job (Scenario.build "" "" false) in
  let provides :=
    config.Provides
      (pcWalkFn Scenario.X pc e config.no_Dependencies
                (Scenario.world Scenario.no_fault)).1.2 in
  pkgconfig_Load Scenario.X (filepath.Join [WorkspaceSubdir pc; fs.path e])
  = Ok {| pkgconfig.Version := "2.0-rc1-pre2"; pkgconfig.Requires := [];
          pkgconfig.RequiresPrivate := []; pkgconfig.RequiresInternal := [] |}
  ∧ provides = ["pc:bar=2.0_rc1_pre2"]
  ∧ "pc:bar=" ++ apk_version_first "2.0-rc1-pre2" = "pc:bar=2.0_rc1-pre2"
  ∧ provides ≠ ["pc:bar=" ++ apk_version_first "2.0-rc1-pre2"].
Proof.
  vm_compute. repeat split; discriminate.
Qed.

(** C7 (amended).  For a regular file with the 0555 bits set that lies
    in one of the library directories, opens as ELF with a readable
    interpreter and list of needed libraries, and has no interpreter or a
    basename that begins with [libc], with no-provides unset, the walk
    function appends [so:{soname}={libver}] to the provides for each of
    its [DT_SONAME] strings, where [libver] is what stands between the
    first [.so.] of the soname and the next one (or the end), or ["0"]
    when the soname has no [.so.]. *)
Theorem soname_provides (X : Externals) (pc : PackageBuild) (e : fs.WalkEntry)
    (st : Scan) (w : World) (fi : fs.FileInfo) (ef : elf.File)
    (interp : string) (libs sonames : list string) :
  fs.walk_err e = None →
  fs.Info e = Ok fi →
  fs.IsRegular (fs.Mode fi) = true →
  N.land (fs.Perm (fs.Mode fi)) perm_rx = perm_rx →
  within libDirs (fs.path e) →
  elf_Open X (filepath.Join [WorkspaceSubdir pc; fs.path e]) = Ok ef →
  findInterpreter (elf.Progs ef) = Ok interp →
  elf.ImportedLibraries ef = Ok libs →
  elf.DynString_SONAME ef = Ok sonames →
  interp = "" ∨ strings.HasPrefix (filepath.Base (fs.path e)) "libc" = true →
  config.NoProvides (Options pc) = false →
  ∃ st' w',
    soWalkFn X pc e st w = (None, st', w')
    ∧ config.Provides st'.1
      = append (config.Provides st.1)
               (List.map (fun soname => "so:" ++ soname ++ "=" ++ libver_field soname) sonames).
Proof.
  intros He Hi Hr Hp Hdir Hopen Hinterp Hlibs Hso Hlibc Hnp.
  rewrite (soWalkFn_executable X pc e fi st He Hi Hr Hp).
  unfold soExecutable. rewrite Hopen, Hinterp, Hlibs, Hso, Hnp.
  rewrite (within_allowedPrefix _ _ Hdir). cbn [negb andb].
  assert (Hcond : String.eqb interp "" || strings.HasPrefix (filepath.Base (fs.path e)) "libc"
                  = true).
  { destruct Hlibc as [-> | ->]; [reflexivity | apply orb_true_r]. }
  rewrite Hcond.
  assert (Hmap : List.map soProvide sonames
                 = List.map (fun soname => "so:" ++ soname ++ "=" ++ libver_field soname)
                            sonames).
  { apply map_ext. intros s. unfold soProvide. now rewrite libver_is_field. }
  unfold bind, ret.
  destruct (negb (String.eqb interp "") && negb (config.NoDepends (Options pc)));
    destruct (negb (config.NoDepends (Options pc)));
    unfold bind, ret, Logger.Printf; do 2 eexists; (split; [reflexivity |]);
    cbn [fst snd]; rewrite ?scanLibs_Provides, Hmap; reflexivity.
Qed.

Lemma soname_provides_witness :
  let e := Scenario.entry "usr/lib/libfoo.so.2.1" (Scenario.regular 493 300) in
  let pc := Scenario.job (Scenario.build "" "" false) in
  ∃ st' w',
    soWalkFn Scenario.X pc e (config.no_Dependencies, ∅) (Scenario.world Scenario.no_fault)
    = (None, st', w')
    ∧ config.Provides st'.1 = ["so:libfoo.so.2=2"].
Proof.
  intros e pc.
  apply (soname_provides Scenario.X pc e (config.no_Dependencies, ∅)
           (Scenario.world Scenario.no_fault)
           {| fs.Mode := 493%N; fs.Size := 300 |} Scenario.libfoo_elf ""
           [] ["libfoo.so.2"]); try reflexivity.
  - exists "usr/lib", "libfoo.so.2.1". split; [| reflexivity].
    right; left.
  - now left.
Defined.

(** C7 as worded fails on a soname that holds [.so.] twice: the code's
    [libver] is the field between the two, which is not what stands to
    the right of either. *)
Lemma soname_right_part_counterexample :
  let e := Scenario.entry "usr/lib/libodd.so" (Scenario.regular 493 300) in
  let pc := Scenario.job (Scenario.build "" "" false) in
  let provides :=
    config.Provides
      (soWalkFn Scenario.X pc e (config.no_Dependencies, ∅)
                (Scenario.world Scenario.no_fault)).1.2.1 in
  provides = ["so:libodd.so.1.so.2=1"]
  ∧ libver_right_of "libodd.so.1.so.2" = "1.so.2"
  ∧ provides ≠ ["so:libodd.so.1.so.2=" ++ libver_right_of "libodd.so.1.so.2"]
  ∧ strings.HasSuffix "libodd.so.1.so.2" (".so." ++ "1") = false.
Proof.
  vm_compute. repeat split; discriminate.
Qed.

(** C8 (amended).  For a regular file with the 0555 bits set that opens
    as ELF and has a non-empty interpreter, with no-depends unset, the
    walk function appends to the runtime the entry
    [so:{basename(interpreter)}] in which every occurrence of
    [so:ld-musl] is replaced by [so:libc.musl]: a basename [ld-musl*]
    gives an entry [so:libc.musl*], and a name in which [so:ld-musl] does
    not occur is left as it is. *)
Theorem interpreter_runtime (X : Externals) (pc : PackageBuild) (e : fs.WalkEntry)
    (st : Scan) (w : World) (fi : fs.FileInfo) (ef : elf.File) (interp : string) :
  fs.walk_err e = None →
  fs.Info e = Ok fi →
  fs.IsRegular (fs.Mode fi) = true →
  N.land (fs.Perm (fs.Mode fi)) perm_rx = perm_rx →
  elf_Open X (filepath.Join [WorkspaceSubdir pc; fs.path e]) = Ok ef →
  findInterpreter (elf.Progs ef) = Ok interp →
  interp ≠ "" →
  config.NoDepends (Options pc) = false →
  (∃ st' w' more,
     soWalkFn X pc e st w = (None, st', w')
     ∧ config.Runtime st'.1
       = append (config.Runtime st.1)
           (strings.ReplaceAll ("so:" ++ filepath.Base interp) "so:ld-musl" "so:libc.musl"
            :: more))
  ∧ (∀ rest,
       filepath.Base interp = "ld-musl" ++ rest →
       strings.ReplaceAll ("so:" ++ filepath.Base interp) "so:ld-musl" "so:libc.musl"
       = "so:libc.musl" ++ strings.ReplaceAll rest "so:ld-musl" "so:libc.musl")
  ∧ (strings.Contains ("so:" ++ filepath.Base interp) "so:ld-musl" = false →
     strings.ReplaceAll ("so:" ++ filepath.Base interp) "so:ld-musl" "so:libc.musl"
     = "so:" ++ filepath.Base interp).
Proof.
  intros He Hi Hr Hp Hopen Hinterp Hne Hnd. split; [| split].
  - rewrite (soWalkFn_executable X pc e fi st He Hi Hr Hp).
    unfold soExecutable. rewrite Hopen, Hinterp, Hnd.
    apply String.eqb_neq in Hne. rewrite Hne. cbn [negb andb].
    unfold bind, ret, Logger.Printf, Logger.Warnf, interpName.
    set (entry := strings.ReplaceAll _ _ _).
    set (st1 := (set_Runtime (append (config.Runtime st.1) [entry]) st.1, st.2)).
    destruct (scanLibs_Runtime (fs.path e)
                (match elf.ImportedLibraries ef with Ok l => l | Err _ => [] end) st1)
      as [more Hmore].
    destruct (elf.ImportedLibraries ef) as [libs | err].
    + destruct (negb (config.NoProvides (Options pc))
                && (false || strings.HasPrefix (filepath.Base (fs.path e)) "libc")).
      * destruct (negb (allowedPrefix (fs.path e) libDirs)).
        -- do 3 eexists. split; [reflexivity |]. cbn [fst]. rewrite Hmore.
           unfold st1, append. cbn [fst set_Runtime config.Runtime].
           now rewrite <- app_assoc.
        -- destruct (elf.DynString_SONAME ef).
           ++ do 3 eexists. split; [reflexivity |]. cbn [fst set_Provides config.Runtime].
              rewrite Hmore. unfold st1, append. cbn [fst set_Runtime config.Runtime].
              now rewrite <- app_assoc.
           ++ do 3 eexists. split; [reflexivity |]. cbn [fst]. rewrite Hmore.
              unfold st1, append. cbn [fst set_Runtime config.Runtime].
              now rewrite <- app_assoc.
      * do 3 eexists. split; [reflexivity |]. cbn [fst]. rewrite Hmore.
        unfold st1, append. cbn [fst set_Runtime config.Runtime].
        now rewrite <- app_assoc.
    + exists st1, (set_logger
                     (fun l => append l [LWarnf ("WTF: ImportedLibraries() returned error: "
                                                 ++ err)])
                     (set_logger
                        (fun l => append l [LPrintf ("interpreter for "
                                                     ++ filepath.Base (fs.path e)
                                                     ++ " => " ++ interp)]) w)), [].
      split; reflexivity.
  - intros rest ->.
    change ("so:" ++ "ld-musl" ++ rest) with ("so:ld-musl" ++ rest).
    apply ReplaceAll_at_prefix.
  - apply ReplaceAll_absent.
Qed.

Lemma interpreter_runtime_witness :
  let e := Scenario.entry "usr/bin/app" (Scenario.regular 493 100) in
  let pc := Scenario.job (Scenario.build "" "" false) in
  ∃ st' w' more,
    soWalkFn Scenario.X pc e (config.no_Dependencies, ∅) (Scenario.world Scenario.no_fault)
    = (None, st', w')
    ∧ config.Runtime st'.1 = "so:libc.musl-x86_64.so.1" :: more.
Proof.
  intros e pc.
  apply (interpreter_runtime Scenario.X pc e (config.no_Dependencies, ∅)
           (Scenario.world Scenario.no_fault)
           {| fs.Mode := 493%N; fs.Size := 100 |} Scenario.app_elf
           "/lib/ld-musl-x86_64.so.1"); try reflexivity.
  discriminate.
Defined.

(** C8 as worded fails on an interpreter whose basename holds
    [so:ld-musl] after its first byte: the code rewrites that occurrence
    too, a substitution of the prefix would not. *)
Lemma musl_prefix_counterexample :
  let e := Scenario.entry "usr/bin/odd" (Scenario.regular 493 100) in
  let pc := Scenario.job (Scenario.build "" "" false) in
  let runtime :=
    config.Runtime
      (soWalkFn Scenario.X pc e (config.no_Dependencies, ∅)
                (Scenario.world Scenario.no_fault)).1.2.1 in
  findInterpreter (elf.Progs Scenario.odd_elf) = Ok "/lib/compat-so:ld-musl-x86_64.so.1"
  ∧ runtime = ["so:compat-so:libc.musl-x86_64.so.1"]
  ∧ musl_prefix_subst ("so:" ++ filepath.Base "/lib/compat-so:ld-musl-x86_64.so.1")
    = "so:compat-so:ld-musl-x86_64.so.1"
  ∧ runtime
    ≠ [musl_prefix_subst ("so:" ++ filepath.Base "/lib/compat-so:ld-musl-x86_64.so.1")].
Proof.
  vm_compute. repeat split; discriminate.
Qed.

(** C9.  Membership in the command directories and in the library
    directories is a test on the bytes the path begins with: a regular
    executable file under [binx/] gets a [cmd:] entry and one under
    [libexec/] has its soname scanned, though neither lies inside a
    listed directory. *)
Theorem prefix_not_containment :
  (∀ path prefixes,
     allowedPrefix path prefixes = true ↔ ∃ pfx rest, pfx ∈ prefixes ∧ path = pfx ++ rest)
  ∧ (let pc := Scenario.job (Scenario.build "" "" false) in
     let w := Scenario.world Scenario.no_fault in
     let helper := Scenario.entry "binx/helper" (Scenario.regular 493 10) in
     let libbar := Scenario.entry "libexec/libbar.so.1" (Scenario.regular 493 200) in
     (∀ d, d ∈ cmdPrefixes → strings.HasPrefix (fs.path helper) (d ++ "/") = false)
     ∧ config.Provides (cmdWalkFn pc helper config.no_Dependencies w).1.2
       = ["cmd:helper=1.0-r0"]
     ∧ (∀ d, d ∈ libDirs → strings.HasPrefix (fs.path libbar) (d ++ "/") = false)
     ∧ config.Provides (soWalkFn Scenario.X pc libbar (config.no_Dependencies, ∅) w).1.2.1
       = ["so:libbar.so.1=1"]).
Proof.
  split; [apply allowedPrefix_iff |].
  cbv zeta. split; [| split; [| split]].
  - intros d Hd. unfold cmdPrefixes in Hd.
    repeat (apply elem_of_cons in Hd as [-> | Hd]; [reflexivity |]).
    now apply elem_of_nil in Hd.
  - vm_compute. reflexivity.
  - intros d Hd. unfold libDirs in Hd.
    repeat (apply elem_of_cons in Hd as [-> | Hd]; [reflexivity |]).
    now apply elem_of_nil in Hd.
  - vm_compute. reflexivity.
Qed.

(** ** Computations that only write to the logger *)

Section LogsOnly.

Variable X : Externals.

Lemma logs_only_ret {A : Type} (a : A) : logs_only (ret a).
Proof. intros [? ? ? ? ? ?]. reflexivity. Qed.

Lemma logs_only_Printf (msg : string) : logs_only (Logger.Printf msg).
Proof. intros [? ? ? ? ? ?]. reflexivity. Qed.

Lemma logs_only_Warnf (msg : string) : logs_only (Logger.Warnf msg).
Proof. intros [? ? ? ? ? ?]. reflexivity. Qed.

Lemma logs_only_bind {A B : Type} (m : M A) (k : A → M B) :
  logs_only m → (∀ a, logs_only (k a)) → logs_only (bind m k).
Proof.
  intros Hm Hk w. unfold bind. specialize (Hm w).
  destruct (m w) as [a w1]. specialize (Hk a w1). simpl in *.
  rewrite Hk, Hm. now destruct w.
Qed.

Local Ltac logs :=
  repeat first
    [ apply logs_only_ret
    | apply logs_only_Printf
    | apply logs_only_Warnf
    | apply logs_only_bind; [| intros ?]
    | case_match ].

Lemma logs_only_walk_loop {S : Type} (fn : fs.WalkEntry → S → M (option error * S)) :
  (∀ e s, logs_only (fn e s)) →
  ∀ entries s, logs_only (walk_loop fn entries s).
Proof.
  intros Hfn. induction entries as [|e rest IH]; intros s; simpl.
  - apply logs_only_ret.
  - apply logs_only_bind; [apply Hfn |]. intros [[err|] s']; [apply logs_only_ret | apply IH].
Qed.

Lemma logs_only_soWalkFn (pc : PackageBuild) (e : fs.WalkEntry) (st : Scan) :
  logs_only (soWalkFn X pc e st).
Proof.
  unfold soWalkFn, soSymlink, soExecutable. destruct st as [generated depends]. logs.
Qed.

Lemma logs_only_cmdWalkFn (pc : PackageBuild) (e : fs.WalkEntry)
    (generated : config.Dependencies) :
  logs_only (cmdWalkFn pc e generated).
Proof. unfold cmdWalkFn. logs. Qed.

Lemma logs_only_pcWalkFn (pc : PackageBuild) (e : fs.WalkEntry)
    (generated : config.Dependencies) :
  logs_only (pcWalkFn X pc e generated).
Proof. unfold pcWalkFn. logs. Qed.

Lemma logs_only_fault {A : Type} (m : M A) (w : World) :
  logs_only m → fault (m w).2 = fault w ∧ files (m w).2 = files w.
Proof. intros H. rewrite (H w). now destruct w. Qed.

End LogsOnly.

(** ** The dependency log *)

(** C6 (amended).  With dependency-log set and a walk that ends without
    error: a failure to create the log file is logged as a warning; a
    failure to encode the map or to write the file is fatal, the scan
    returns that error and logs no warning for it; when both calls
    succeed the scan returns no error and the file holds the encoded
    map. *)
Theorem dependency_log_failures (X : Externals) (pc : PackageBuild)
    (generated g : config.Dependencies) (depends : gmap string (list string))
    (w w1 : World) :
  DependencyLog (Build_ pc) ≠ "" →
  walk_loop (soWalkFn X pc) (WalkDir X (fs.readlinkFS (WorkspaceSubdir pc)))
            (generated, ∅)
            (Logger.Printf "scanning for shared object dependencies..." w).2
  = (None, (g, depends), w1) →
  let res := generateSharedObjectNameDeps X pc generated w in
  (∀ e, fault w (CallCreate (dependencyLogName pc)) = Some e →
        LWarnf ("Unable to open dependency log: " ++ e) ∈ logger res.2)
  ∧ (∀ e, fault w (CallCreate (dependencyLogName pc)) = None →
          json_Marshal X depends = Err e →
          res.1 = (Some e, g))
  ∧ (∀ b e, fault w (CallCreate (dependencyLogName pc)) = None →
            json_Marshal X depends = Ok b →
            fault w (CallWrite (dependencyLogName pc) (b ++ nl)) = Some e →
            res.1 = (Some e, g)
            ∧ logger res.2 = append (logger w1) [LPrintf "writing dependency log"])
  ∧ (∀ b, fault w (CallCreate (dependencyLogName pc)) = None →
          json_Marshal X depends = Ok b →
          fault w (CallWrite (dependencyLogName pc) (b ++ nl)) = None →
          res.1 = (None, g)
          ∧ files res.2 !! dependencyLogName pc = Some (b ++ nl)).
Proof.
  intros Hset Hwalk res.
  assert (Hw1 : fault w1 = fault w ∧ files w1 = files w).
  { pose proof (logs_only_fault
                  (walk_loop (soWalkFn X pc) (WalkDir X (fs.readlinkFS (WorkspaceSubdir pc)))
                             (generated, ∅))
                  (Logger.Printf "scanning for shared object dependencies..." w).2
                  (logs_only_walk_loop _ (logs_only_soWalkFn X pc) _ _)) as [Hf Hfi].
    rewrite Hwalk in Hf, Hfi. simpl in Hf, Hfi. now destruct w. }
  destruct Hw1 as [Hfault Hfiles].
  assert (Hres : res
                 = (do _ <- Logger.Printf "writing dependency log";
                    do (logFile, err) <- os.Create (dependencyLogName pc);
                    do _ <- match err with
                            | Some e => Logger.Warnf ("Unable to open dependency log: " ++ e)
                            | None => ret tt
                            end;
                    do err <- json_Encode X logFile depends;
                    match err with
                    | Some _ => ret (err, g)
                    | None => ret (None, g)
                    end)%go w1).
  { unfold res, generateSharedObjectNameDeps.
    unfold bind at 1. fold (Logger.Printf "scanning for shared object dependencies..." w).
    destruct (Logger.Printf _ w) as [[] w0] eqn:Ew0. simpl in Hwalk.
    unfold bind at 1. rewrite Hwalk.
    apply String.eqb_neq in Hset. now rewrite Hset. }
  rewrite Hres. clear Hres res. unfold bind, Logger.Printf, os.Create, json_Encode.
  cbn [fault set_logger]. rewrite Hfault. split; [| split; [| split]].
  - intros e He. rewrite He.
    destruct (json_Marshal X depends); simpl; apply list_elem_of_In, in_or_app; right; now left.
  - intros e Hc Hm. rewrite Hc, Hm. reflexivity.
  - intros b e Hc Hm Hwr. rewrite Hc, Hm. simpl. unfold os.Write. cbn [fault set_files].
    rewrite Hfault. fold nl. rewrite Hwr. split; reflexivity.
  - intros b Hc Hm Hwr. rewrite Hc, Hm. simpl. unfold os.Write. cbn [fault set_files].
    rewrite Hfault. fold nl. rewrite Hwr. simpl.
    rewrite lookup_insert_eq, lookup_insert_eq. split; reflexivity.
Qed.

Lemma dependency_log_failures_witness :
  let pc := Scenario.job (Scenario.build "" "/tmp/deps" false) in
  let res := generateSharedObjectNameDeps Scenario.X pc config.no_Dependencies
               (Scenario.world Scenario.no_fault) in
  res.1.1 = None
  ∧ files res.2 !! "/tmp/deps.x86_64"
    = Some ("{libssl.so.3,libc.musl-x86_64.so.1,libfoo.so.2}" ++ nl).
Proof.
  intros pc res.
  set (walk := walk_loop (soWalkFn Scenario.X pc)
                 (WalkDir Scenario.X (fs.readlinkFS (WorkspaceSubdir pc)))
                 (config.no_Dependencies, ∅)
                 (Logger.Printf "scanning for shared object dependencies..."
                    (Scenario.world Scenario.no_fault)).2).
  destruct (dependency_log_failures Scenario.X pc config.no_Dependencies
              walk.1.2.1 walk.1.2.2 (Scenario.world Scenario.no_fault) walk.2
              ltac:(discriminate) ltac:(vm_compute; reflexivity))
    as (_ & _ & _ & Hok).
  destruct (Hok "{libssl.so.3,libc.musl-x86_64.so.1,libfoo.so.2}"
              eq_refl ltac:(vm_compute; reflexivity) eq_refl) as [Hres Hfile].
  split; [| exact Hfile].
  change res with (generateSharedObjectNameDeps Scenario.X pc config.no_Dependencies
                     (Scenario.world Scenario.no_fault)).
  now rewrite Hres.
Defined.

(** C6 as worded fails: when the log file cannot be written the scan
    returns the error, and no warning is logged. *)
Lemma dependency_log_write_failure_counterexample :
  let pc := Scenario.job (Scenario.build "" "/tmp/deps" false) in
  let res := generateSharedObjectNameDeps Scenario.X pc config.no_Dependencies
               (Scenario.world Scenario.deplog_write_fails) in
  res.1.1 = Some "no space left on device"
  ∧ res.1.1 ≠ None
  ∧ logger res.2
    = [LPrintf "scanning for shared object dependencies...";
       LPrintf "interpreter for app => /lib/ld-musl-x86_64.so.1";
       LPrintf "writing dependency log"].
Proof.
  vm_compute. repeat split; discriminate.
Qed.

(** When the log file cannot be created the warning is logged, the nil
    file is handed to the encoder all the same, and the write to it
    fails. *)
Lemma dependency_log_create_failure :
  let pc := Scenario.job (Scenario.build "" "/tmp/deps" false) in
  let res := generateSharedObjectNameDeps Scenario.X pc config.no_Dependencies
               (Scenario.world Scenario.deplog_create_fails) in
  res.1.1 = Some os.ErrInvalid
  ∧ logger res.2
    = [LPrintf "scanning for shared object dependencies...";
       LPrintf "interpreter for app => /lib/ld-musl-x86_64.so.1";
       LPrintf "writing dependency log";
       LWarnf "Unable to open dependency log: permission denied"].
Proof.
  vm_compute. split; reflexivity.
Qed.

(** ** The build log *)

Section BuildLogFlag.

Variable X : Externals.
Variable flag : bool.

Lemma flag_run_generators (pc : PackageBuild) (generated : config.Dependencies) (w : World) :
  run_generators (generators X) (with_CreateBuildLog flag pc) generated w
  = run_generators (generators X) pc generated w.
Proof. destruct pc as [[] ? ? ? ? ? ? ? ? ? ? ? ? ?]. reflexivity. Qed.

Lemma flag_GenerateDependencies (pc : PackageBuild) (w : World) :
  GenerateDependencies X (with_CreateBuildLog flag pc) w
  = flagged flag (GenerateDependencies X pc w).
Proof.
  unfold GenerateDependencies, bind. rewrite flag_run_generators.
  destruct (run_generators (generators X) pc config.no_Dependencies w)
    as [[[e|] generated] w1]; reflexivity.
Qed.

Lemma flag_sizeWalk (fsys : list fs.WalkEntry) :
  ∀ pc w,
    walk_loop sizeWalkFn fsys (with_CreateBuildLog flag pc) w
    = flagged flag (walk_loop sizeWalkFn fsys pc w).
Proof.
  induction fsys as [|e rest IH]; intros pc w; [reflexivity |].
  simpl. unfold bind, sizeWalkFn.
  destruct (fs.walk_err e); [reflexivity |].
  destruct (fs.Info e); [| reflexivity].
  simpl. apply (IH (set_InstalledSize _ pc)).
Qed.

Lemma flag_calculateInstalledSize (pc : PackageBuild) (fsys : fs.FS) (w : World) :
  calculateInstalledSize X (with_CreateBuildLog flag pc) fsys w
  = flagged flag (calculateInstalledSize X pc fsys w).
Proof.
  unfold calculateInstalledSize, bind. rewrite flag_sizeWalk.
  destruct (walk_loop sizeWalkFn (WalkDir X fsys) pc w) as [[[e|] pc'] w1]; reflexivity.
Qed.

Lemma flag_emitDataSection (pc : PackageBuild) (fsys : fs.FS) (f : os.File) (w : World) :
  emitDataSection X (with_CreateBuildLog flag pc) fsys f w
  = flagged flag (emitDataSection X pc fsys f w).
Proof.
  unfold emitDataSection.
  change (dataTarOptions (with_CreateBuildLog flag pc)) with (dataTarOptions pc).
  destruct (tarball_NewContext X (dataTarOptions pc)); [reflexivity |].
  destruct (pgzip.SetConcurrency (2 ^ 20) (pgzipThreads X)); [reflexivity |].
  destruct (tarball_WriteTar X (dataTarOptions pc) fsys); [| reflexivity].
  unfold bind. destruct (os.Write f (dataMember X a) w) as [[e|] w1]; [reflexivity |].
  simpl. destruct (os.Seek_start f _) as [[e|] w2]; reflexivity.
Qed.

Lemma flag_generateControlSection (pc : PackageBuild) :
  generateControlSection X (with_CreateBuildLog flag pc) = generateControlSection X pc.
Proof. reflexivity. Qed.

End BuildLogFlag.

(** ** What the steps of the assembler leave alone in a job *)

Section JobFrame.

Variable X : Externals.

Lemma same_identity_refl (pc : PackageBuild) : same_identity pc pc.
Proof. repeat split. Qed.

Lemma same_identity_trans (a b c : PackageBuild) :
  same_identity a b → same_identity b c → same_identity a c.
Proof. unfold same_identity. intuition congruence. Qed.

Lemma same_identity_Filename (pc pc' : PackageBuild) :
  same_identity pc pc' →
  Filename pc' = Filename pc ∧ WorkspaceSubdir pc' = WorkspaceSubdir pc.
Proof.
  intros (Hb & Ho & Hn & Hd).
  unfold Filename, Identity, pkgver, WorkspaceSubdir. now rewrite Hb, Ho, Hn, Hd.
Qed.

Lemma GenerateDependencies_identity (pc pc' : PackageBuild) (w w' : World)
    (r : option error) :
  GenerateDependencies X pc w = (r, pc', w') → same_identity pc pc'.
Proof.
  unfold GenerateDependencies, bind, ret.
  destruct (run_generators (generators X) pc config.no_Dependencies w)
    as [[[e|] generated] w1]; intros [= <- <- <-]; repeat split.
Qed.

Lemma sizeWalk_identity (entries : list fs.WalkEntry) :
  ∀ pc pc' w w' r,
    walk_loop sizeWalkFn entries pc w = (r, pc', w') → same_identity pc pc'.
Proof.
  induction entries as [|e rest IH]; intros pc pc' w w' r; simpl.
  - intros [= <- <- <-]. apply same_identity_refl.
  - unfold bind, sizeWalkFn, ret.
    destruct (fs.walk_err e); [intros [= <- <- <-]; apply same_identity_refl |].
    destruct (fs.Info e); [| intros [= <- <- <-]; apply same_identity_refl].
    intros H. apply IH in H. revert H. apply same_identity_trans. repeat split.
Qed.

Lemma calculateInstalledSize_identity (pc pc' : PackageBuild) (fsys : fs.FS)
    (w w' : World) (r : option error) :
  calculateInstalledSize X pc fsys w = (r, pc', w') → same_identity pc pc'.
Proof.
  unfold calculateInstalledSize, bind, ret.
  destruct (walk_loop sizeWalkFn (WalkDir X fsys) pc w) as [[[e|] pc1] w1] eqn:E;
    intros [= <- <- <-]; eapply sizeWalk_identity; eassumption.
Qed.

Lemma emitDataSection_identity (pc pc' : PackageBuild) (fsys : fs.FS) (f : os.File)
    (w w' : World) (r : option error) :
  emitDataSection X pc fsys f w = (r, pc', w') → same_identity pc pc'.
Proof.
  unfold emitDataSection, bind, ret.
  repeat case_match; intros [= <- <- <-]; repeat split.
Qed.

End JobFrame.

Section BuildLog.

Variable X : Externals.

Lemma AppendBuildLog_unset (pc : PackageBuild) (dir : string) (w : World) :
  CreateBuildLog (Build_ pc) = false → AppendBuildLog pc dir w = (None, w).
Proof. intros H. unfold AppendBuildLog. now rewrite H. Qed.

(** Whatever the flag, the call touches no directory and no file but
    [packages.log] in [dir]. *)
Lemma AppendBuildLog_frame (pc : PackageBuild) (dir : string) (w : World) :
  dirs (AppendBuildLog pc dir w).2 = dirs w
  ∧ ∀ path, path ≠ filepath.Join [dir; "packages.log"] →
            files (AppendBuildLog pc dir w).2 !! path = files w !! path.
Proof.
  unfold AppendBuildLog.
  destruct (CreateBuildLog (Build_ pc)); cbn [negb]; [| now split].
  unfold bind, os.OpenFile_append.
  destruct (fault w (CallOpenFile _)) as [e|]; [now split |].
  unfold os.Write. cbn [fault set_files].
  destruct (fault w (CallWrite _ _)) as [e|]; cbn [snd dirs files set_files]; split;
    try reflexivity; intros path Hne; now rewrite ?lookup_insert_ne by congruence.
Qed.

Lemma agree_off_log_error (e : error) (pc : PackageBuild) (w : World) :
  agree_off_log (Some e, pc, w) (Some e, with_CreateBuildLog true pc, w).
Proof. repeat split. Qed.

Lemma emitWithTemp_flag (pc : PackageBuild) (fsys : fs.FS) (tmp : os.File) (w : World) :
  CreateBuildLog (Build_ pc) = false →
  agree_off_log (emitWithTemp X pc fsys tmp w)
                (emitWithTemp X (with_CreateBuildLog true pc) fsys tmp w).
Proof.
  intros Hflag. unfold emitWithTemp, bind. rewrite flag_emitDataSection.
  destruct (emitDataSection X pc fsys tmp w) as [[[e|] pc1] w1] eqn:Edata;
    unfold flagged; cbn [fst snd]; [apply agree_off_log_error |].
  apply emitDataSection_identity in Edata as (Hb & _).
  rewrite flag_generateControlSection.
  destruct (generateControlSection X pc1) as [control | e];
    [| apply agree_off_log_error].
  change (wantSignature (with_CreateBuildLog true pc1)) with (wantSignature pc1).
  change (Signer (with_CreateBuildLog true pc1)) with (Signer pc1).
  change (SourceDateEpoch (Build_ (with_CreateBuildLog true pc1)))
    with (SourceDateEpoch (Build_ pc1)).
  change (OutDir (with_CreateBuildLog true pc1)) with (OutDir pc1).
  change (Filename (with_CreateBuildLog true pc1)) with (Filename pc1).
  match goal with
  | |- context [match ?sig with Ok _ => _ | Err _ => _ end] =>
      destruct sig as [parts | e]; [| apply agree_off_log_error]
  end.
  destruct (os.MkdirAll (OutDir pc1) w1) as [[e|] w2]; [apply agree_off_log_error |].
  destruct (os.Create (Filename pc1) w2) as [[outFile [e|]] w3];
    [apply agree_off_log_error |].
  destruct (combine outFile parts w3) as [[e|] w4]; [apply agree_off_log_error |].
  destruct (Logger.Printf ("wrote " ++ Filename pc1) w4) as [[] w5].
  rewrite (AppendBuildLog_unset pc1 "" w5) by congruence.
  pose proof (AppendBuildLog_frame (with_CreateBuildLog true pc1) "" w5) as [Hd Hf].
  destruct (AppendBuildLog (with_CreateBuildLog true pc1) "" w5) as [[e|] w6];
    cbn [fst snd] in *; repeat split; cbn [fst snd dirs files set_logger];
    try (symmetry; exact Hd); intros path Hne; symmetry; now apply Hf.
Qed.

End BuildLog.

(** C10.  With create-build-log unset, [AppendBuildLog] returns nil and
    leaves the world as it is; and a run of [EmitPackage] with the flag
    unset differs from the run on the same inputs with the flag set in
    nothing but [packages.log] (and the lines of the logger): same
    result, same job fields, same directories, same content of every
    other file. *)
Theorem build_log_unset (X : Externals) (pc : PackageBuild) (dir : string) (w : World) :
  CreateBuildLog (Build_ pc) = false →
  AppendBuildLog pc dir w = (None, w)
  ∧ agree_off_log (EmitPackage X pc w) (EmitPackage X (with_CreateBuildLog true pc) w).
Proof.
  intros Hflag. split; [now apply AppendBuildLog_unset |].
  unfold EmitPackage, bind.
  change (WorkspaceSubdir (with_CreateBuildLog true pc)) with (WorkspaceSubdir pc).
  change (Identity (with_CreateBuildLog true pc)) with (Identity pc).
  destruct (os.MkdirAll (WorkspaceSubdir pc) w) as [[e|] w1]; [apply agree_off_log_error |].
  destruct (Logger.Printf ("generating package " ++ Identity pc) w1) as [[] w2].
  rewrite flag_GenerateDependencies.
  destruct (GenerateDependencies X pc w2) as [[[e|] pc1] w3] eqn:Egen;
    unfold flagged; cbn [fst snd]; [apply agree_off_log_error |].
  apply GenerateDependencies_identity in Egen as (Hb1 & _).
  rewrite flag_calculateInstalledSize.
  destruct (calculateInstalledSize X pc1 (fs.readlinkFS (WorkspaceSubdir pc)) w3)
    as [[[e|] pc2] w4] eqn:Esize;
    unfold flagged; cbn [fst snd]; [apply agree_off_log_error |].
  apply calculateInstalledSize_identity in Esize as (Hb2 & _).
  change (InstalledSize (with_CreateBuildLog true pc2)) with (InstalledSize pc2).
  destruct (Logger.Printf ("  installed-size: " ++ fmt.d_Z (InstalledSize pc2)) w4)
    as [[] w5].
  destruct (os.CreateTemp "melange-data-" ".tar.gz" w5) as [[[tmpName|] [e|]] w6];
    try apply agree_off_log_error.
  pose proof (emitWithTemp_flag X pc2 (fs.readlinkFS (WorkspaceSubdir pc)) (Some tmpName) w6
                ltac:(congruence)) as (Hr & Hpc & Hd & Hf).
  destruct (emitWithTemp X pc2 _ _ w6) as [[r0 pc3] w7].
  destruct (emitWithTemp X (with_CreateBuildLog true pc2) _ _ w6) as [[r1 pc3'] w7'].
  cbn [fst snd] in *. unfold ret.
  repeat split; cbn [fst snd dirs files set_files os.Remove]; try assumption.
  intros path Hne. destruct (decide (tmpName = path)) as [-> | Hp].
  - now rewrite !lookup_delete_eq.
  - rewrite !lookup_delete_ne by assumption. now apply Hf.
Qed.

Lemma build_log_unset_witness :
  let pc := Scenario.job (Scenario.build "/keys/melange.rsa" "" false) in
  let w := Scenario.world Scenario.no_fault in
  (EmitPackage Scenario.X pc w).1.1 = None
  ∧ files (EmitPackage Scenario.X pc w).2 !! "packages.log" = None
  ∧ files (EmitPackage Scenario.X (with_CreateBuildLog true pc) w).2 !! "packages.log"
    = Some ("x86_64|hello|hello|1.0-r0" ++ nl)
  ∧ AppendBuildLog pc "" w = (None, w)
  ∧ agree_off_log (EmitPackage Scenario.X pc w)
                  (EmitPackage Scenario.X (with_CreateBuildLog true pc) w).
Proof.
  intros pc w. split; [vm_compute; reflexivity |].
  split; [vm_compute; reflexivity |].
  split; [vm_compute; reflexivity |].
  apply (build_log_unset Scenario.X pc "" w). reflexivity.
Defined.

(** A build log that cannot be opened costs a warning, not the package. *)
Example build_log_failure_is_warned :
  let pc := Scenario.job (Scenario.build "" "" true) in
  let res := EmitPackage Scenario.X pc (Scenario.world Scenario.buildlog_open_fails) in
  res.1.1 = None
  ∧ files res.2 !! "packages.log" = None
  ∧ last (logger res.2) = Some (LWarnf "unable to append package log: permission denied").
Proof. vm_compute. repeat split. Qed.

(** ** Names of files *)

Section FileNames.

Lemma last_byte_app (a : string) (c : ascii) (b : string) :
  last_byte (a ++ String c b) = last_byte (String c b).
Proof.
  induction a as [|x a IH]; [reflexivity |].
  rewrite string_app_cons. cbn [last_byte]. rewrite IH.
  destruct a; reflexivity.
Qed.

Lemma Filename_last_byte (pc : PackageBuild) : last_byte (Filename pc) = Some "k"%char.
Proof.
  replace (Filename pc) with ((OutDir pc ++ "/" ++ Identity pc) ++ ".apk")
    by (unfold Filename; now rewrite !string_app_assoc).
  apply last_byte_app.
Qed.

Lemma Filename_not_log (pc : PackageBuild) :
  Filename pc ≠ filepath.Join [""; "packages.log"].
Proof.
  intros H. apply (f_equal last_byte) in H.
  rewrite Filename_last_byte in H. vm_compute in H. discriminate.
Qed.

Lemma temp_not_Filename (dir rand : string) (pc : PackageBuild) :
  dir ++ "/" ++ "melange-data-" ++ rand ++ ".tar.gz" ≠ Filename pc.
Proof.
  intros H. apply (f_equal last_byte) in H.
  rewrite Filename_last_byte in H.
  replace (dir ++ "/" ++ "melange-data-" ++ rand ++ ".tar.gz")
    with ((dir ++ "/" ++ "melange-data-" ++ rand) ++ ".tar.gz") in H
    by (now rewrite !string_app_assoc).
  rewrite last_byte_app in H. discriminate.
Qed.

End FileNames.

(** ** A successful emission *)

Section Success.

Variable X : Externals.

Lemma emitDataSection_success (pc pc' : PackageBuild) (fsys : fs.FS) (tmp : string)
    (w w' : World) :
  emitDataSection X pc fsys (Some tmp) w = (None, pc', w') →
  ∃ tard,
    tarball_WriteTar X (dataTarOptions pc) fsys = Ok tard
    ∧ pc' = set_DataHash (sha256_Sum_hex X (dataMember X tard)) pc
    ∧ files w'
      = <[ tmp := default "" (files w !! tmp) ++ dataMember X tard ]> (files w).
Proof.
  unfold emitDataSection, bind, ret.
  destruct (tarball_NewContext X (dataTarOptions pc)); [intros [=] |].
  destruct (pgzip.SetConcurrency (2 ^ 20) (pgzipThreads X)); [intros [=] |].
  destruct (tarball_WriteTar X (dataTarOptions pc) fsys) as [tard | e]; [| intros [=]].
  unfold os.Write, os.Seek_start, Logger.Printf.
  destruct (fault w (CallWrite tmp (dataMember X tard))); [intros [=] |].
  cbn [fault set_files set_logger].
  destruct (fault w (CallSeek tmp)); intros [= <- <-].
  exists tard. repeat split.
Qed.

(** [combine] appends to the output what it reads from the inputs, in
    order, and touches no other file. *)
Lemma combine_success (out : string) (inputs : list Reader) :
  ∀ w w' content,
    combine (Some out) inputs w = (None, w') →
    files w !! out = Some content →
    Forall (fun input => ¬ reads_from out input) inputs →
    files w' !! out = Some (content ++ String.concat "" (List.map (read_input w) inputs))
    ∧ ∀ name, name ≠ out → files w' !! name = files w !! name.
Proof.
  induction inputs as [|input rest IH]; intros w w' content Hc Hout Hin.
  - injection Hc as <-. simpl. rewrite string_app_nil_r. now split.
  - apply Forall_cons in Hin as [Hi Hrest].
    cbn [combine] in Hc. unfold bind, io_Copy in Hc.
    assert (Hread : (match input with
                     | BytesReader b => ret b
                     | FileReader f => os.ReadAll f
                     end) w = (read_input w input, w)).
    { destruct input as [b | [name|]]; reflexivity. }
    unfold bind in Hc. rewrite Hread in Hc.
    assert (Hsame : ∀ w2, (∀ name, name ≠ out → files w2 !! name = files w !! name) →
                          List.map (read_input w2) rest = List.map (read_input w) rest).
    { intros w2 Hw2. apply Forall_fmap_ext_1. eapply Forall_impl; [exact Hrest |].
      intros [b | [name|]] Hn; try reflexivity. unfold read_input.
      rewrite Hw2; [reflexivity |]. intros ->. now apply Hn. }
    cbn [List.map String.concat].
    destruct (String.eqb_spec (read_input w input) "") as [Hempty | Hne].
    + unfold ret in Hc. destruct (IH _ _ _ Hc Hout Hrest) as [Hf Ho].
      split; [| exact Ho]. rewrite Hf, Hempty.
      destruct rest; [reflexivity |]. now rewrite string_app_nil_l.
    + unfold os.Write in Hc.
      destruct (fault w (CallWrite out (read_input w input))); [discriminate |].
      assert (Hout2 : files (set_files
                               (fun fs => <[ out := default "" (fs !! out)
                                                    ++ read_input w input ]> fs) w)
                      !! out = Some (content ++ read_input w input)).
      { destruct w. cbn [files set_files]. rewrite lookup_insert_eq.
        cbn [files] in Hout. now rewrite Hout. }
      destruct (IH _ _ _ Hc Hout2 Hrest) as [Hf Ho].
      assert (Hw2 : ∀ name, name ≠ out →
                      files (set_files
                               (fun fs => <[ out := default "" (fs !! out)
                                                    ++ read_input w input ]> fs) w)
                      !! name = files w !! name).
      { intros name Hn. destruct w. cbn [files set_files].
        now rewrite lookup_insert_ne by congruence. }
      split.
      * rewrite Hf, (Hsame _ Hw2), string_app_assoc.
        destruct rest; [now rewrite string_app_nil_r |]. reflexivity.
      * intros name Hn. rewrite Ho by assumption. now apply Hw2.
Qed.

End Success.

Section Emitted.

Variable X : Externals.

Lemma generateControlSection_inv (pc : PackageBuild) (control : string) :
  generateControlSection X pc = Ok control →
  ∃ tarc,
    tarball_WriteTar X (controlTarOptions pc) (fs.memfs (controlFS pc)) = Ok tarc
    ∧ control = gzip_member X tarc.
Proof.
  unfold generateControlSection.
  destruct (tarball_NewContext X (controlTarOptions pc)); [discriminate |].
  destruct (tarball_WriteTar X (controlTarOptions pc) _) as [tarc | e]; [| discriminate].
  intros [= <-]. now exists tarc.
Qed.

Lemma emitWithTemp_success (pc pc' : PackageBuild) (tmp : string) (w w' : World) :
  emitWithTemp X pc (fs.readlinkFS (WorkspaceSubdir pc)) (Some tmp) w = (None, pc', w') →
  files w !! tmp = Some "" →
  tmp ≠ Filename pc →
  ∃ s,
    same_identity pc pc'
    ∧ sections_of X pc' s
    ∧ files w' !! Filename pc = Some (apk_bytes s).
Proof.
  intros Hemit Htmp Hne. unfold emitWithTemp, bind in Hemit.
  destruct (emitDataSection X pc _ (Some tmp) w) as [[[e|] pc1] w1] eqn:Edata;
    [discriminate |].
  pose proof (emitDataSection_identity X _ _ _ _ _ _ _ Edata) as Hid.
  apply emitDataSection_success in Edata as (tard & Htard & Hpc1 & Hfiles1).
  rewrite Htmp in Hfiles1. cbn [default] in Hfiles1. rewrite string_app_nil_l in Hfiles1.
  destruct (generateControlSection X pc1) as [control | e] eqn:Econtrol;
    [| discriminate].
  destruct (generateControlSection_inv _ _ Econtrol) as (tarc & Htarc & Hcontrol).
  assert (Hname : Filename pc1 = Filename pc) by (subst pc1; reflexivity).
  rewrite Hname in Hemit.
  set (sigres := if wantSignature pc1 then _ else _) in Hemit.
  destruct sigres as [parts | e] eqn:Esig; [| discriminate].
  unfold os.MkdirAll in Hemit.
  destruct (fault w1 (CallMkdirAll (OutDir pc1))); [discriminate |].
  unfold os.Create in Hemit. cbn [fault set_dirs] in Hemit.
  destruct (fault w1 (CallCreate (Filename pc))); [discriminate |].
  match type of Hemit with
  | context [combine _ _ ?w3] => set (w3' := w3) in Hemit
  end.
  destruct (combine (Some (Filename pc)) parts w3') as [[e|] w4] eqn:Ecombine;
    [discriminate |].
  assert (Hout3 : files w3' !! Filename pc = Some "").
  { unfold w3'. destruct w1. cbn [files set_files set_dirs]. apply lookup_insert_eq. }
  assert (Htmp3 : files w3' !! tmp = Some (dataMember X tard)).
  { unfold w3'. destruct w1. cbn [files set_files set_dirs] in *.
    rewrite lookup_insert_ne by congruence. rewrite Hfiles1. apply lookup_insert_eq. }
  assert (Hparts :
            ∃ sig : option string,
              parts = (match sig with Some b => [BytesReader b] | None => [] end
                       ++ [BytesReader control; FileReader (Some tmp)])%list
              ∧ match sig with
                | Some b =>
                    wantSignature pc1 = true
                    ∧ EmitSignature X (Signer pc1) control (SourceDateEpoch (Build_ pc1))
                      = Ok b
                | None => wantSignature pc1 = false
                end).
  { unfold sigres in Esig. destruct (wantSignature pc1).
    - destruct (EmitSignature X _ _ _) as [b | e] eqn:Eb; [| discriminate].
      injection Esig as <-. exists (Some b). now split.
    - injection Esig as <-. now exists None. }
  destruct Hparts as (sig & -> & Hsig).
  apply (combine_success _ _ _ _ "" ) in Ecombine as [Hfile Hother]; [| exact Hout3 |].
  2:{ apply Forall_app. split.
      - destruct sig; repeat constructor; discriminate.
      - repeat constructor; [discriminate |]. intros [= ->]. now apply Hne. }
  exists {| signatureData := sig; controlSectionData := control;
            dataSectionData := dataMember X tard;
            controlTar := tarc; dataTar := tard |}.
  assert (Hlog : files w' !! Filename pc = files w4 !! Filename pc
                 ∧ pc' = pc1).
  { unfold Logger.Printf in Hemit.
    match type of Hemit with
    | context [AppendBuildLog pc1 "" ?w5] =>
        pose proof (AppendBuildLog_frame pc1 "" w5) as [_ Hf];
        destruct (AppendBuildLog pc1 "" w5) as [[e|] w6]
    end; injection Hemit as <- <-; cbn [snd files set_logger] in *;
      (split; [| reflexivity]);
      rewrite (Hf (Filename pc) (Filename_not_log pc)); now destruct w4. }
  destruct Hlog as [-> ->]. split; [exact Hid |]. split.
  - unfold sections_of. cbn [signatureData controlSectionData dataSectionData
                               controlTar dataTar].
    replace (WorkspaceSubdir pc1) with (WorkspaceSubdir pc) by (subst pc1; reflexivity).
    replace (dataTarOptions pc1) with (dataTarOptions pc) by (subst pc1; reflexivity).
    repeat split; assumption.
  - rewrite Hfile. f_equal. unfold apk_bytes.
    cbn [signatureData controlSectionData dataSectionData].
    rewrite string_app_nil_l, map_app. cbn [List.map read_input].
    rewrite Htmp3. cbn [default].
    destruct sig as [b|]; cbn [List.map read_input default app String.concat];
      now rewrite ?string_app_nil_l, ?string_app_nil_r.
Qed.

End Emitted.

(** ** Reading the package back *)

Section ReadBack.

Variable X : Externals.

Lemma EmitPackage_success (pc pc' : PackageBuild) (w w' : World) :
  EmitPackage X pc w = (None, pc', w') →
  ∃ s,
    same_identity pc pc'
    ∧ sections_of X pc' s
    ∧ files w' !! Filename pc = Some (apk_bytes s).
Proof.
  unfold EmitPackage, bind.
  destruct (os.MkdirAll (WorkspaceSubdir pc) w) as [[e|] w1]; [intros [=] |].
  destruct (Logger.Printf _ w1) as [[] w2].
  destruct (GenerateDependencies X pc w2) as [[[e|] pc1] w3] eqn:Egen; [intros [=] |].
  apply GenerateDependencies_identity in Egen as Hid1.
  destruct (calculateInstalledSize X pc1 _ w3) as [[[e|] pc2] w4] eqn:Esize;
    [intros [=] |].
  apply calculateInstalledSize_identity in Esize as Hid2.
  pose proof (same_identity_trans _ _ _ Hid1 Hid2) as Hid.
  destruct (same_identity_Filename _ _ Hid) as [Hname Hsub].
  destruct (Logger.Printf _ w4) as [[] w5].
  unfold os.CreateTemp.
  destruct (fault w5 (CallCreateTemp _)); [intros [=] |].
  set (tmp := temp_dir w5 ++ "/" ++ "melange-data-" ++ temp_rand w5 ++ ".tar.gz").
  set (w6 := set_files _ w5).
  rewrite <- Hsub.
  destruct (emitWithTemp X pc2 _ (Some tmp) w6) as [[r pc3] w7] eqn:Eemit.
  unfold os.Remove, ret. intros [= -> <- <-].
  apply emitWithTemp_success in Eemit as (s & Hid3 & Hsec & Hfile).
  - exists s. split; [eapply same_identity_trans; eassumption |].
    split; [exact Hsec |].
    cbn [files set_files]. destruct w7. cbn [files set_files] in *.
    rewrite Hname in Hfile.
    rewrite lookup_delete_ne; [exact Hfile | apply temp_not_Filename].
  - unfold w6. destruct w5. cbn [files set_files]. apply lookup_insert_eq.
  - apply temp_not_Filename.
Qed.

Lemma string_app_nonempty (a b : string) : a ≠ "" → String.eqb (a ++ b) "" = false.
Proof. destruct a; [congruence | reflexivity]. Qed.

Lemma gunzip_all_member (gunzip : Gunzip) (bytes payload rest : string)
    (fuel : nat) (payloads : list string) :
  is_member gunzip bytes payload →
  gunzip_all gunzip fuel rest = Some payloads →
  gunzip_all gunzip (S fuel) (bytes ++ rest) = Some (payload :: payloads).
Proof.
  intros [Hne Hdec] Hrest. cbn [gunzip_all].
  now rewrite (string_app_nonempty _ _ Hne), Hdec, Hrest.
Qed.

Lemma gunzip_all_end (gunzip : Gunzip) (fuel : nat) : gunzip_all gunzip fuel "" = Some [].
Proof. destruct fuel; reflexivity. Qed.

End ReadBack.

(** C3.  When [EmitPackage] returns without error, the file at
    [Filename] holds the signature section (there exactly when a signing
    key is set), then the control section, then the data section, byte
    after byte; each is a gzip member of its own, so a decoder for which
    the writers' and the signer's outputs are finished members reads the
    file as those members, in that order, and nothing else. *)
Theorem apk_is_concatenation (X : Externals) (gunzip : Gunzip)
    (pc pc' : PackageBuild) (w w' : World) :
  (∀ payload, is_member gunzip (gzip_member X payload) payload) →
  (∀ blockSize blocks payload,
     is_member gunzip (pgzip_member X blockSize blocks payload) payload) →
  (∀ signer control t sig,
     EmitSignature X signer control t = Ok sig → ∃ payload, is_member gunzip sig payload) →
  EmitPackage X pc w = (None, pc', w') →
  ∃ s signaturePayload,
    sections_of X pc' s
    ∧ (is_Some (signatureData s) ↔ SigningKey (Build_ pc) ≠ "")
    ∧ files w' !! Filename pc
      = Some (default "" (signatureData s) ++ controlSectionData s ++ dataSectionData s)
    ∧ (is_Some signaturePayload ↔ is_Some (signatureData s))
    ∧ ∀ fuel, (3 ≤ fuel)%nat →
        gunzip_all gunzip fuel
          (default "" (signatureData s) ++ controlSectionData s ++ dataSectionData s)
        = Some (payloads_of signaturePayload s).
Proof.
  intros Hgzip Hpgzip Hsigner Hemit.
  apply EmitPackage_success in Hemit as (s & (Hb & _) & Hsec & Hfile).
  unfold apk_bytes in Hfile.
  pose proof Hsec as (Htard & Hdata & Htarc & Hcontrol & _ & Hsig).
  assert (Hc : is_member gunzip (controlSectionData s) (controlTar s))
    by (rewrite Hcontrol; apply Hgzip).
  assert (Hd : is_member gunzip (dataSectionData s) (dataTar s))
    by (rewrite Hdata; apply Hpgzip).
  assert (Hkey : wantSignature pc' = true ↔ SigningKey (Build_ pc) ≠ "").
  { unfold wantSignature. rewrite Hb.
    destruct (String.eqb_spec (SigningKey (Build_ pc)) ""); cbn; split; congruence. }
  assert (Htail : ∀ fuel, (2 ≤ fuel)%nat →
            gunzip_all gunzip fuel (controlSectionData s ++ dataSectionData s)
            = Some [controlTar s; dataTar s]).
  { intros [|[|fuel]] Hfuel; try lia.
    apply gunzip_all_member; [exact Hc |].
    rewrite <- (string_app_nil_r (dataSectionData s)).
    apply gunzip_all_member; [exact Hd | apply gunzip_all_end]. }
  destruct (signatureData s) as [sig|] eqn:Esig.
  - destruct Hsig as [Hwant Hemitsig].
    destruct (Hsigner _ _ _ _ Hemitsig) as [p Hp].
    exists s, (Some p). rewrite Esig. cbn [default payloads_of].
    split; [exact Hsec |]. split; [split; [intros _; now apply Hkey | eauto] |].
    split; [exact Hfile |]. split; [split; eauto |].
    intros [|fuel] Hfuel; [lia |].
    apply gunzip_all_member; [exact Hp | apply Htail; lia].
  - exists s, None. rewrite Esig. cbn [default payloads_of].
    split; [exact Hsec |].
    split; [split; [intros [? [=]] | intros Hk; apply Hkey in Hk; congruence] |].
    split; [exact Hfile |]. split; [reflexivity |].
    intros fuel Hfuel. rewrite string_app_nil_l. apply Htail. lia.
Qed.

(** The toy framing of the scenario is read back by its decoder. *)
Section ScenarioFraming.

Lemma take_drop_app (p rest : string) :
  Scenario.take_drop (String.length p) (p ++ rest) = Some (p, rest).
Proof.
  induction p as [|c p IH]; [reflexivity |].
  rewrite string_app_cons. cbn [String.length Scenario.take_drop]. now rewrite IH.
Qed.

Lemma unframe_go_unary (k : nat) :
  ∀ n t, Scenario.unframe_go n (Scenario.unary k ++ t) = Scenario.take_drop (n + k) t.
Proof.
  induction k as [|k IH]; intros n t.
  - cbn [Scenario.unary]. rewrite string_app_cons, string_app_nil_l.
    cbn. now rewrite Nat.add_0_r.
  - cbn [Scenario.unary]. rewrite string_app_cons. cbn [Scenario.unframe_go].
    change (Ascii.eqb "1" "1") with true. cbn iota.
    rewrite IH. f_equal. lia.
Qed.

Lemma frame_is_member (payload : string) :
  is_member Scenario.unframe (Scenario.frame payload) payload.
Proof.
  split.
  - unfold Scenario.frame. destruct (String.length payload); discriminate.
  - intros rest. unfold Scenario.unframe, Scenario.frame.
    rewrite string_app_assoc, unframe_go_unary. apply take_drop_app.
Qed.

Lemma scenario_signature_is_member (signer : ApkSigner) (control : string) (t : Z)
    (sig : string) :
  EmitSignature Scenario.X signer control t = Ok sig →
  ∃ payload, is_member Scenario.unframe sig payload.
Proof.
  destruct signer; simpl; intros [= Hs]; subst sig; eexists; apply frame_is_member.
Qed.

End ScenarioFraming.

Lemma apk_is_concatenation_witness :
  let pc := Scenario.job (Scenario.build "/keys/melange.rsa" "" false) in
  let w := Scenario.world Scenario.no_fault in
  let res := EmitPackage Scenario.X pc w in
  files res.2 !! "/out/x86_64/hello-1.0-r0.apk"
  = Some (Scenario.frame "signature-by:/keys/melange.rsa"
          ++ Scenario.frame "tar:.PKGINFO"
          ++ Scenario.frame "tar:/work/melange-out/hello")
  ∧ ∃ s signaturePayload,
      sections_of Scenario.X res.1.2 s
      ∧ (is_Some (signatureData s) ↔ SigningKey (Build_ pc) ≠ "")
      ∧ files res.2 !! Filename pc
        = Some (default "" (signatureData s) ++ controlSectionData s ++ dataSectionData s)
      ∧ (is_Some signaturePayload ↔ is_Some (signatureData s))
      ∧ ∀ fuel, (3 ≤ fuel)%nat →
          gunzip_all Scenario.unframe fuel
            (default "" (signatureData s) ++ controlSectionData s ++ dataSectionData s)
          = Some (payloads_of signaturePayload s).
Proof.
  intros pc w res. split; [vm_compute; reflexivity |].
  apply (apk_is_concatenation Scenario.X Scenario.unframe pc res.1.2 w res.2).
  - apply frame_is_member.
  - intros blockSize blocks. apply frame_is_member.
  - apply scenario_signature_is_member.
  - vm_compute. reflexivity.
Defined.

(** ** Signing *)

Section Signing.

Variable X : Externals.
Variable sign : ApkSigner → string → Z → result string.

Lemma wantSignature_identity (pc pc' : PackageBuild) :
  same_identity pc pc' → wantSignature pc' = wantSignature pc.
Proof. intros (Hb & _). unfold wantSignature. now rewrite Hb. Qed.

(** Without a signing key the signer is not called: the run is the same
    whatever the signer would do. *)
Lemma emitWithTemp_unsigned (pc : PackageBuild) (fsys : fs.FS) (tmp : os.File)
    (w : World) :
  wantSignature pc = false →
  emitWithTemp (with_EmitSignature sign X) pc fsys tmp w = emitWithTemp X pc fsys tmp w.
Proof.
  intros Hwant. unfold emitWithTemp, bind.
  change (emitDataSection (with_EmitSignature sign X)) with (emitDataSection X).
  destruct (emitDataSection X pc fsys tmp w) as [[[e|] pc1] w1] eqn:Edata; [reflexivity |].
  apply emitDataSection_identity, wantSignature_identity in Edata.
  rewrite Edata, Hwant. reflexivity.
Qed.

Lemma EmitPackage_unsigned (pc : PackageBuild) (w : World) :
  wantSignature pc = false →
  EmitPackage (with_EmitSignature sign X) pc w = EmitPackage X pc w.
Proof.
  intros Hwant. unfold EmitPackage, bind.
  destruct (os.MkdirAll (WorkspaceSubdir pc) w) as [[e|] w1]; [reflexivity |].
  destruct (Logger.Printf _ w1) as [[] w2].
  change (GenerateDependencies (with_EmitSignature sign X))
    with (GenerateDependencies X).
  destruct (GenerateDependencies X pc w2) as [[[e|] pc1] w3] eqn:Egen; [reflexivity |].
  apply GenerateDependencies_identity in Egen.
  change (calculateInstalledSize (with_EmitSignature sign X))
    with (calculateInstalledSize X).
  destruct (calculateInstalledSize X pc1 _ w3) as [[[e|] pc2] w4] eqn:Esize;
    [reflexivity |].
  apply calculateInstalledSize_identity in Esize.
  destruct (Logger.Printf _ w4) as [[] w5].
  destruct (os.CreateTemp _ _ w5) as [[[tmpName|] [e|]] w6]; try reflexivity.
  rewrite emitWithTemp_unsigned; [reflexivity |].
  now rewrite (wantSignature_identity _ _ Esize), (wantSignature_identity _ _ Egen).
Qed.

End Signing.

(** C5 (amended).  For a job with no signing-key path configured,
    emission asks for no signature: the signer (the keyless one is what
    [Signer] would choose) is never called, so the run does not depend on
    it, and the package a successful emission writes is the control
    section followed by the data section, with no signature section
    before them. *)
Theorem no_key_no_signature (X : Externals) (pc pc' : PackageBuild) (w w' : World) :
  SigningKey (Build_ pc) = "" →
  EmitPackage X pc w = (None, pc', w') →
  wantSignature pc = false
  ∧ Signer pc = FulcioApkSigner
  ∧ (∀ sign, EmitPackage (with_EmitSignature sign X) pc w = EmitPackage X pc w)
  ∧ ∃ s,
      sections_of X pc' s
      ∧ signatureData s = None
      ∧ files w' !! Filename pc = Some (controlSectionData s ++ dataSectionData s).
Proof.
  intros Hkey Hemit.
  assert (Hwant : wantSignature pc = false) by (unfold wantSignature; now rewrite Hkey).
  split; [exact Hwant |].
  split; [unfold Signer; now rewrite Hkey |].
  split; [intros sign; now apply EmitPackage_unsigned |].
  apply EmitPackage_success in Hemit as (s & Hid & Hsec & Hfile).
  exists s. split; [exact Hsec |].
  pose proof Hsec as (_ & _ & _ & _ & _ & Hsig).
  rewrite (wantSignature_identity _ _ Hid), Hwant in Hsig.
  unfold apk_bytes in Hfile.
  destruct (signatureData s); [destruct Hsig; discriminate |].
  split; [reflexivity |]. now rewrite string_app_nil_l in Hfile.
Qed.

Lemma no_key_no_signature_witness :
  let pc := Scenario.job (Scenario.build "" "" false) in
  let w := Scenario.world Scenario.no_fault in
  let res := EmitPackage Scenario.X pc w in
  files res.2 !! "/out/x86_64/hello-1.0-r0.apk"
  = Some (Scenario.frame "tar:.PKGINFO" ++ Scenario.frame "tar:/work/melange-out/hello")
  ∧ wantSignature pc = false
  ∧ Signer pc = FulcioApkSigner
  ∧ (∀ sign,
       EmitPackage (with_EmitSignature sign Scenario.X) pc w = EmitPackage Scenario.X pc w)
  ∧ ∃ s,
      sections_of Scenario.X res.1.2 s
      ∧ signatureData s = None
      ∧ files res.2 !! Filename pc = Some (controlSectionData s ++ dataSectionData s).
Proof.
  intros pc w res. split; [vm_compute; reflexivity |].
  apply (no_key_no_signature Scenario.X pc res.1.2 w res.2).
  - reflexivity.
  - vm_compute. reflexivity.
Defined.

(** C5 as worded fails: without a signing key the package does not begin
    with the section the keyless signer would give; it begins with the
    control section. *)
Lemma keyless_signature_counterexample :
  let pc := Scenario.job (Scenario.build "" "" false) in
  let res := EmitPackage Scenario.X pc (Scenario.world Scenario.no_fault) in
  let control := Scenario.frame "tar:.PKGINFO" in
  let keyless := Scenario.frame "keyless-signature" in
  let apk := default "" (files res.2 !! Filename pc) in
  SigningKey (Build_ pc) = ""
  ∧ res.1.1 = None
  ∧ generateControlSection Scenario.X res.1.2 = Ok control
  ∧ EmitSignature Scenario.X FulcioApkSigner control (SourceDateEpoch (Build_ pc)) = Ok keyless
  ∧ files res.2 !! Filename pc = Some apk
  ∧ strings.HasPrefix apk keyless = false
  ∧ strings.HasPrefix apk control = true.
Proof.
  vm_compute. repeat split.
Qed.

(** * Further properties of the code *)

(** ** [dedup] and [removeSelfProvidedDeps] as operations on sets *)

Section DedupAlgebra.

#[local] Instance string_le_antisym : AntiSymm (=) sort.string_le.
Proof. intros a b. apply String.leb_antisym. Qed.

Lemma Strings_perm (l1 l2 : list string) :
  l1 ≡ₚ l2 → sort.Strings l1 = sort.Strings l2.
Proof.
  intros Hp. apply (StronglySorted_unique sort.string_le); try apply Strings_sorted.
  unfold sort.Strings. now rewrite !merge_sort_Permutation.
Qed.

Lemma ascending_le (l : list string) :
  strictly_ascending l → StronglySorted sort.string_le l.
Proof.
  induction 1 as [|a l _ IH Hall]; constructor; [exact IH |].
  eapply Forall_impl; [exact Hall |].
  intros x Hx. apply string_le_lt_eq. now left.
Qed.

Lemma Strings_ascending (l : list string) : strictly_ascending l → sort.Strings l = l.
Proof.
  intros Hl. apply (StronglySorted_unique sort.string_le).
  - apply Strings_sorted.
  - now apply ascending_le.
  - apply merge_sort_Permutation.
Qed.

Lemma dedup_loop_ascending_id (l : list string) :
  ∀ prev,
    strictly_ascending l → Forall (sort.string_lt prev) l → dedup_loop prev l [] = l.
Proof.
  induction l as [|cur rest IH]; intros prev Hs Hp; [reflexivity |].
  apply StronglySorted_inv in Hs as [Hs Hcur].
  apply Forall_cons in Hp as [Hpc Hp].
  rewrite dedup_loop_cons. destruct (String.eqb_spec cur prev) as [-> | Hne].
  - now apply string_lt_irrefl in Hpc.
  - f_equal. now apply IH.
Qed.

Lemma dedup_positive (l : list string) : Forall (sort.string_lt "") (dedup l).
Proof.
  unfold dedup. apply dedup_loop_ascending.
  - apply Strings_sorted.
  - apply Forall_forall. intros x _. apply string_le_empty.
Qed.

(** Two strictly ascending lists with the same entries are the same
    list. *)
Lemma ascending_ext (l1 l2 : list string) :
  strictly_ascending l1 → strictly_ascending l2 →
  (∀ x, x ∈ l1 ↔ x ∈ l2) → l1 = l2.
Proof.
  intros H1 H2 Hx.
  apply (StronglySorted_unique sort.string_le); try now apply ascending_le.
  apply NoDup_Permutation; auto using strictly_ascending_NoDup.
Qed.

End DedupAlgebra.

(** X1.  [dedup] keeps every string of its input except the empty one,
    and nothing else. *)
Theorem dedup_keeps_nonempty (l : list string) (x : string) :
  x ∈ dedup l ↔ x ∈ l ∧ x ≠ "".
Proof. apply dedup_elem. Qed.

(** X2.  The result of [dedup] does not depend on the order or on the
    repetitions of its input: two inputs with the same entries give the
    same list. *)
Theorem dedup_same_entries (l1 l2 : list string) :
  (∀ x, x ∈ l1 ↔ x ∈ l2) → dedup l1 = dedup l2.
Proof.
  intros Hx. apply ascending_ext; try apply dedup_ascending.
  intros x. rewrite !dedup_elem, Hx. reflexivity.
Qed.

Lemma dedup_same_entries_witness :
  dedup ["b"; "a"; "b"; ""] = dedup ["a"; "a"; ""; "b"; "a"].
Proof.
  apply (dedup_same_entries ["b"; "a"; "b"; ""] ["a"; "a"; ""; "b"; "a"]).
  intros x. rewrite !elem_of_cons, !elem_of_nil. tauto.
Defined.

(** X3.  [dedup] is idempotent. *)
Theorem dedup_idempotent (l : list string) : dedup (dedup l) = dedup l.
Proof.
  unfold dedup at 1. rewrite Strings_ascending by apply dedup_ascending.
  apply dedup_loop_ascending_id; [apply dedup_ascending | apply dedup_positive].
Qed.

Section SelfProvidedAlgebra.

Lemma filter_sublist_bool {A : Type} (keep : A → bool) (l : list A) :
  sublist (List.filter keep l) l.
Proof.
  induction l as [|x l IH]; simpl; [constructor |].
  destruct (keep x); now constructor.
Qed.

Lemma providedDepsMap_nil : providedDepsMap [] = ∅.
Proof. reflexivity. Qed.

Lemma filter_true {A : Type} (keep : A → bool) (l : list A) :
  (∀ x, x ∈ l → keep x = true) → List.filter keep l = l.
Proof.
  induction l as [|x l IH]; intros H; simpl; [reflexivity |].
  rewrite (H x) by left. f_equal. apply IH. intros y Hy. apply H. now right.
Qed.

Lemma name_prefix_versioned (name version : string) :
  strings.Contains name "=" = false → name_prefix (name ++ "=" ++ version) = name.
Proof.
  induction name as [|c s IH]; intros Hno; [reflexivity |].
  apply Contains_cons_false in Hno as [Hp Hc].
  rewrite string_app_cons. cbn [name_prefix].
  rewrite HasPrefix_cons, HasPrefix_nil in Hp.
  destruct (Ascii.eqb "=" c); [discriminate |]. f_equal. now apply IH.
Qed.

End SelfProvidedAlgebra.

(** X4.  [removeSelfProvidedDeps] only takes entries away: what it returns
    is the runtime list with some entries left out, the others in their
    order; with nothing provided it returns the runtime list as it is. *)
Theorem removeSelfProvidedDeps_sublist (runtimeDeps providedDeps : list string) :
  sublist (removeSelfProvidedDeps runtimeDeps providedDeps) runtimeDeps
  ∧ removeSelfProvidedDeps runtimeDeps [] = runtimeDeps.
Proof.
  rewrite !removeSelfProvidedDeps_filter. split; [apply filter_sublist_bool |].
  apply filter_true. intros x _. unfold not_provided.
  now rewrite providedDepsMap_nil, lookup_empty.
Qed.

(** X5.  A package that provides a shared object does not depend on it:
    when the provides hold the entry the scanner makes for a soname (one
    with no [=] in it), the filter takes [so:{soname}] out of the
    runtime. *)
Theorem self_provided_soname_removed (soname : string) (runtimeDeps providedDeps : list string) :
  strings.Contains soname "=" = false →
  soProvide soname ∈ providedDeps →
  "so:" ++ soname ∉ removeSelfProvidedDeps runtimeDeps providedDeps.
Proof.
  intros Hno Hin Hr. apply removeSelfProvidedDeps_elem in Hr as [_ Hr].
  apply (Hr _ Hin). unfold soProvide.
  rewrite <- string_app_assoc. symmetry. apply name_prefix_versioned.
  exact Hno.
Qed.

Lemma self_provided_soname_removed_witness :
  "so:libfoo.so.2"
  ∉ removeSelfProvidedDeps ["busybox"; "so:libfoo.so.2"] ["cmd:x=1-r0"; "so:libfoo.so.2=2"].
Proof.
  apply (self_provided_soname_removed "libfoo.so.2"); [reflexivity |].
  right; left.
Defined.

(** X6.  Merging the same generated set a second time changes nothing:
    the result of the merge is stable under a rerun of the scanners on
    the same tree. *)
Theorem mergeDependencies_stable (declared generated : config.Dependencies) :
  mergeDependencies (mergeDependencies declared generated) generated
  = mergeDependencies declared generated.
Proof.
  set (d' := mergeDependencies declared generated).
  set (P' := dedup (append (config.Provides declared) (config.Provides generated))).
  set (R0 := dedup (append (config.Runtime declared) (config.Runtime generated))).
  assert (HdP : config.Provides d' = P') by reflexivity.
  assert (HdR : config.Runtime d' = removeSelfProvidedDeps R0 P') by reflexivity.
  assert (Hp : dedup (append P' (config.Provides generated)) = P').
  { apply ascending_ext; [apply dedup_ascending | apply dedup_ascending |].
    intros x. unfold P', append.
    rewrite !dedup_elem, !elem_of_app, !dedup_elem, !elem_of_app. tauto. }
  assert (Hr : removeSelfProvidedDeps
                 (dedup (append (removeSelfProvidedDeps R0 P') (config.Runtime generated)))
                 P'
               = removeSelfProvidedDeps R0 P').
  { apply ascending_ext.
    - rewrite removeSelfProvidedDeps_filter. apply StronglySorted_filter, dedup_ascending.
    - rewrite removeSelfProvidedDeps_filter. apply StronglySorted_filter, dedup_ascending.
    - intros x. unfold append.
      rewrite !removeSelfProvidedDeps_elem, dedup_elem, elem_of_app,
        removeSelfProvidedDeps_elem.
      unfold R0, append. rewrite dedup_elem, elem_of_app. tauto. }
  change (mergeDependencies d' generated)
    with {| config.Runtime :=
              removeSelfProvidedDeps
                (dedup (append (config.Runtime d') (config.Runtime generated)))
                (dedup (append (config.Provides d') (config.Provides generated)));
            config.Provides := dedup (append (config.Provides d') (config.Provides generated));
            config.Replaces := config.Replaces d';
            config.ProviderPriority := config.ProviderPriority d' |}.
  rewrite HdP, HdR, Hp, Hr, <- HdR, <- HdP. now destruct d'.
Qed.

(** ** What the scanners add *)

Section Appends.

Variable X : Externals.

Lemma appends_refl (okR okP : string → Prop) (g : config.Dependencies) :
  appends okR okP g g.
Proof.
  repeat split; try (exists []; split; [now rewrite app_nil_r | constructor]).
Qed.

Lemma appends_trans (okR okP : string → Prop) (a b c : config.Dependencies) :
  appends okR okP a b → appends okR okP b c → appends okR okP a c.
Proof.
  intros ((r1 & Hr1 & Fr1) & (p1 & Hp1 & Fp1) & Hx1 & Hy1)
         ((r2 & Hr2 & Fr2) & (p2 & Hp2 & Fp2) & Hx2 & Hy2).
  repeat split; try congruence.
  - exists (r1 ++ r2)%list. split; [| now apply Forall_app].
    now rewrite Hr2, Hr1, <- app_assoc.
  - exists (p1 ++ p2)%list. split; [| now apply Forall_app].
    now rewrite Hp2, Hp1, <- app_assoc.
Qed.

Lemma appends_Runtime (okR okP : string → Prop) (g : config.Dependencies)
    (more : list string) :
  Forall okR more → appends okR okP g (set_Runtime (append (config.Runtime g) more) g).
Proof.
  intros Hm. repeat split.
  - now exists more.
  - exists []. split; [now rewrite app_nil_r | constructor].
Qed.

Lemma appends_Provides (okR okP : string → Prop) (g : config.Dependencies)
    (more : list string) :
  Forall okP more → appends okR okP g (set_Provides (append (config.Provides g) more) g).
Proof.
  intros Hm. repeat split.
  - exists []. split; [now rewrite app_nil_r | constructor].
  - now exists more.
Qed.


(** A relation that every call of the walk function keeps is kept by the
    walk. *)
Lemma walk_loop_keeps {S : Type} (R : S → S → Prop)
    (fn : fs.WalkEntry → S → M (option error * S)) :
  (∀ s, R s s) → (∀ a b c, R a b → R b c → R a c) →
  (∀ e s w, R s (fn e s w).1.2) →
  ∀ entries s w, R s (walk_loop fn entries s w).1.2.
Proof.
  intros Hrefl Htrans Hfn. induction entries as [|e rest IH]; intros s w; simpl.
  - apply Hrefl.
  - unfold bind. specialize (Hfn e s w).
    destruct (fn e s w) as [[[err|] s'] w']; simpl in *; [exact Hfn |].
    eapply Htrans; [exact Hfn | apply IH].
Qed.

Lemma interpName_so (interp : string) : starts_with "so:" (interpName interp).
Proof.
  unfold starts_with, interpName, strings.ReplaceAll.
  destruct (strings.HasPrefix ("so:" ++ filepath.Base interp) "so:ld-musl") eqn:E.
  - apply HasPrefix_inv in E as [r ->].
    change ("so:ld-musl" ++ r) with (String "s" ("o:ld-musl" ++ r)).
    cbn [strings.replace_go].
    change (String "s" ("o:ld-musl" ++ r)) with ("so:ld-musl" ++ r).
    now rewrite HasPrefix_app.
  - change ("so:" ++ filepath.Base interp)
      with (String "s" (String "o" (String ":" (filepath.Base interp)))) in *.
    cbn [strings.replace_go]. rewrite E. reflexivity.
Qed.

Lemma scanLibs_appends (path : string) (libs : list string) :
  ∀ st, appends (starts_with "so:") never st.1 (scanLibs path libs st).1.
Proof.
  unfold scanLibs. induction libs as [|lib libs IH]; intros [g d]; simpl.
  - apply appends_refl.
  - destruct (strings.Contains lib ".so.").
    + eapply appends_trans; [| apply IH]. cbn [fst].
      apply appends_Runtime. now repeat constructor.
    + apply IH.
Qed.

Lemma so_map_Forall (sonames : list string) :
  Forall (starts_with "so:") (List.map (fun soname => "so:" ++ soname) sonames).
Proof. apply Forall_forall. intros x Hx. apply list_elem_of_In, in_map_iff in Hx as (s & <- & _). reflexivity. Qed.

Lemma soProvide_Forall (sonames : list string) :
  Forall (starts_with "so:") (List.map soProvide sonames).
Proof. apply Forall_forall. intros x Hx. apply list_elem_of_In, in_map_iff in Hx as (s & <- & _). reflexivity. Qed.

Lemma soSymlink_appends (pc : PackageBuild) (path : string) (st : Scan) (w : World) :
  appends (starts_with "so:") never st.1 (soSymlink X pc path st w).1.2.1.
Proof.
  unfold soSymlink. destruct st as [g d].
  repeat case_match; cbn [fst snd ret bind Logger.Warnf]; try apply appends_refl.
  apply appends_Runtime, so_map_Forall.
Qed.

Lemma soExecutable_appends (pc : PackageBuild) (path : string) (st : Scan) (w : World) :
  appends (starts_with "so:") (starts_with "so:") st.1 (soExecutable X pc path st w).1.2.1
  ∧ (config.NoProvides (Options pc) = true →
     config.Provides (soExecutable X pc path st w).1.2.1 = config.Provides st.1)
  ∧ (config.NoDepends (Options pc) = true →
     config.Runtime (soExecutable X pc path st w).1.2.1 = config.Runtime st.1).
Proof.
  assert (Hweak : ∀ a b, appends (starts_with "so:") never a b →
                         appends (starts_with "so:") (starts_with "so:") a b).
  { intros a b (Hr & (p & Hp & Fp) & Hx). repeat split; try tauto.
    exists p. split; [exact Hp |]. eapply Forall_impl; [exact Fp |]. intros ? []. }
  unfold soExecutable.
  destruct (elf_Open X _) as [ef | e]; [| cbn; split; [apply appends_refl | tauto]].
  destruct (findInterpreter (elf.Progs ef)) as [interp | e];
    [| cbn; split; [apply appends_refl | tauto]].
  unfold bind.
  set (first := if negb (String.eqb interp "") && negb (config.NoDepends (Options pc))
                then _ else _).
  assert (H1 : appends (starts_with "so:") never st.1 (first w).1.1
               ∧ (config.NoDepends (Options pc) = true → (first w).1 = st)).
  { unfold first. destruct (negb (String.eqb interp "")); cbn [andb].
    - destruct (config.NoDepends (Options pc)); cbn [negb].
      + split; [apply appends_refl | reflexivity].
      + split; [| discriminate]. cbn. apply appends_Runtime.
        repeat constructor. apply interpName_so.
    - split; [apply appends_refl | reflexivity]. }
  destruct (first w) as [st1 w1]. cbn [fst] in H1. destruct H1 as [H1 H1n].
  destruct (elf.ImportedLibraries ef) as [libs | e].
  2:{ cbn. split; [now apply Hweak |]. split.
      - intros _. destruct H1 as (_ & (p & Hp & Fp) & _).
        destruct p; [now rewrite app_nil_r in Hp | now inversion Fp].
      - intros Hn. now rewrite (H1n Hn). }
  set (st2 := if negb (config.NoDepends (Options pc)) then scanLibs path libs st1 else st1).
  assert (H2 : appends (starts_with "so:") never st.1 st2.1
               ∧ (config.NoDepends (Options pc) = true → st2 = st)).
  { unfold st2. destruct (config.NoDepends (Options pc)); cbn [negb].
    - split; [exact H1 | intros _; now apply H1n].
    - split; [| discriminate]. eapply appends_trans; [exact H1 | apply scanLibs_appends]. }
  clearbody st2. destruct H2 as [H2 H2n].
  assert (Hprov : config.Provides st2.1 = config.Provides st.1).
  { destruct H2 as (_ & (p & Hp & Fp) & _).
    destruct p; [now rewrite app_nil_r in Hp | now inversion Fp]. }
  destruct (config.NoProvides (Options pc)) eqn:Enp; cbn [negb andb].
  { cbn. split; [now apply Hweak |]. split; [intros _; exact Hprov |].
    intros Hn. now rewrite (H2n Hn). }
  destruct (String.eqb interp "" || strings.HasPrefix (filepath.Base path) "libc").
  2:{ cbn. split; [now apply Hweak |]. split; [discriminate |].
      intros Hn. now rewrite (H2n Hn). }
  destruct (negb (allowedPrefix path libDirs)).
  { cbn. split; [now apply Hweak |]. split; [discriminate |].
    intros Hn. now rewrite (H2n Hn). }
  destruct (elf.DynString_SONAME ef) as [sonames | e].
  2:{ cbn. split; [now apply Hweak |]. split; [discriminate |].
      intros Hn. now rewrite (H2n Hn). }
  cbn. split; [| split; [discriminate |]].
  - eapply appends_trans; [apply Hweak, H2 |].
    apply appends_Provides, soProvide_Forall.
  - intros Hn. now rewrite (H2n Hn).
Qed.

Lemma soWalkFn_appends (pc : PackageBuild) (e : fs.WalkEntry) (st : Scan) (w : World) :
  appends (starts_with "so:") (starts_with "so:") st.1 (soWalkFn X pc e st w).1.2.1
  ∧ (config.NoProvides (Options pc) = true →
     config.Provides (soWalkFn X pc e st w).1.2.1 = config.Provides st.1).
Proof.
  unfold soWalkFn.
  destruct (fs.walk_err e); [cbn; split; [apply appends_refl | tauto] |].
  destruct (fs.Info e) as [fi | err]; [| cbn; split; [apply appends_refl | tauto]].
  destruct (N.eqb _ fs.ModeSymlink).
  - pose proof (soSymlink_appends pc (fs.path e) st w) as (Hr & (p & Hp & Fp) & Hx).
    split.
    + repeat split; try tauto. exists p. split; [exact Hp |].
      eapply Forall_impl; [exact Fp |]. intros ? [].
    + intros _. destruct p; [now rewrite app_nil_r in Hp | now inversion Fp].
  - destruct (negb (fs.IsRegular (fs.Mode fi)));
      [cbn; split; [apply appends_refl | tauto] |].
    destruct (N.eqb _ perm_rx); [| cbn; split; [apply appends_refl | tauto]].
    pose proof (soExecutable_appends pc (fs.path e) st w) as (Ha & Hb & _). now split.
Qed.

End Appends.

Section Scanners.

Variable X : Externals.

Lemma appends_never_Runtime (okP : string → Prop) (g g' : config.Dependencies) :
  appends never okP g g' → config.Runtime g' = config.Runtime g.
Proof.
  intros ((r & Hr & Fr) & _). destruct r; [now rewrite app_nil_r in Hr | now inversion Fr].
Qed.

Lemma appends_never_Provides (okR : string → Prop) (g g' : config.Dependencies) :
  appends okR never g g' → config.Provides g' = config.Provides g.
Proof.
  intros (_ & (p & Hp & Fp) & _). destruct p; [now rewrite app_nil_r in Hp | now inversion Fp].
Qed.

Lemma so_walk_appends (pc : PackageBuild) (entries : list fs.WalkEntry) (st : Scan)
    (w : World) :
  appends (starts_with "so:") (starts_with "so:") st.1
          (walk_loop (soWalkFn X pc) entries st w).1.2.1
  ∧ (config.NoProvides (Options pc) = true →
     config.Provides (walk_loop (soWalkFn X pc) entries st w).1.2.1 = config.Provides st.1).
Proof.
  apply (walk_loop_keeps
           (fun a b : Scan =>
              appends (starts_with "so:") (starts_with "so:") a.1 b.1
              ∧ (config.NoProvides (Options pc) = true →
                 config.Provides b.1 = config.Provides a.1))).
  - intros s. split; [apply appends_refl | reflexivity].
  - intros a b c [H1 H1n] [H2 H2n]. split; [eapply appends_trans; eassumption |].
    intros Hn. now rewrite (H2n Hn), (H1n Hn).
  - intros e s w0. apply soWalkFn_appends.
Qed.

Lemma generateSharedObjectNameDeps_generated (pc : PackageBuild)
    (generated : config.Dependencies) (w : World) :
  (generateSharedObjectNameDeps X pc generated w).1.2
  = (walk_loop (soWalkFn X pc) (WalkDir X (fs.readlinkFS (WorkspaceSubdir pc)))
               (generated, ∅)
               (Logger.Printf "scanning for shared object dependencies..." w).2).1.2.1.
Proof.
  unfold generateSharedObjectNameDeps, bind.
  destruct (Logger.Printf _ w) as [[] w0]. cbn [snd].
  destruct (walk_loop _ _ _ w0) as [[[e|] [g d]] w1]; [reflexivity |].
  cbn [fst snd]. destruct (negb _); [| reflexivity].
  destruct (Logger.Printf _ w1) as [[] w2].
  destruct (os.Create _ w2) as [[f [e|]] w3];
    unfold Logger.Warnf, ret; destruct (json_Encode X f d _) as [[e'|] w4]; reflexivity.
Qed.

Lemma cmdWalkFn_appends (pc : PackageBuild) (e : fs.WalkEntry)
    (g : config.Dependencies) (w : World) :
  appends never (fun x => ∃ basename, x = cmdProvide pc basename) g
          (cmdWalkFn pc e g w).1.2.
Proof.
  unfold cmdWalkFn. repeat case_match; cbn [fst snd ret]; try apply appends_refl.
  apply appends_Provides. repeat constructor. eexists. reflexivity.
Qed.

Lemma pcWalkFn_appends (pc : PackageBuild) (e : fs.WalkEntry)
    (g : config.Dependencies) (w : World) :
  appends never (starts_with "pc:") g (pcWalkFn X pc e g w).1.2
  ∧ (config.NoProvides (Options pc) = true → (pcWalkFn X pc e g w).1.2 = g).
Proof.
  unfold pcWalkFn, generateRuntimePkgConfigDeps.
  destruct (fs.walk_err e); [cbn; split; [apply appends_refl | tauto] |].
  destruct (negb _); [cbn; split; [apply appends_refl | tauto] |].
  destruct (fs.Info e); [| cbn; split; [apply appends_refl | tauto]].
  destruct (N.eqb _ _); [cbn; split; [apply appends_refl | tauto] |].
  destruct (pkgconfig_Load X _); [| cbn; split; [apply appends_refl | tauto]].
  destruct (config.NoProvides (Options pc)); cbn.
  - split; [apply appends_refl | reflexivity].
  - split; [| discriminate]. apply appends_Provides. repeat constructor.
Qed.


Lemma cmd_walk_appends (pc : PackageBuild) (entries : list fs.WalkEntry)
    (g : config.Dependencies) (w : World) :
  appends never (fun x => ∃ basename, x = cmdProvide pc basename) g
          (walk_loop (cmdWalkFn pc) entries g w).1.2.
Proof.
  apply (walk_loop_keeps
           (appends never (fun x => ∃ basename, x = cmdProvide pc basename))).
  - apply appends_refl.
  - apply appends_trans.
  - apply cmdWalkFn_appends.
Qed.


Lemma pc_walk_appends (pc : PackageBuild) (entries : list fs.WalkEntry)
    (g : config.Dependencies) (w : World) :
  appends never (starts_with "pc:") g (walk_loop (pcWalkFn X pc) entries g w).1.2
  ∧ (config.NoProvides (Options pc) = true →
     (walk_loop (pcWalkFn X pc) entries g w).1.2 = g).
Proof.
  apply (walk_loop_keeps
           (fun a b => appends never (starts_with "pc:") a b
                       ∧ (config.NoProvides (Options pc) = true → b = a))).
  - intros s. split; [apply appends_refl | reflexivity].
  - intros a b c [H1 H1n] [H2 H2n]. split; [eapply appends_trans; eassumption |].
    intros Hn. now rewrite (H2n Hn), (H1n Hn).
  - intros e s w1. apply pcWalkFn_appends.
Qed.


End Scanners.

(** X7.  The shared-object scanner only adds: whatever it returns, the
    accumulator is the one it was given with entries appended to runtime
    and to provides, each beginning with [so:]; replaces and the provider
    priority are as before, and with no-provides set so are the
    provides. *)
Theorem shared_object_scanner_appends (X : Externals) (pc : PackageBuild)
    (generated : config.Dependencies) (w : World) :
  let generated' := (generateSharedObjectNameDeps X pc generated w).1.2 in
  appends (starts_with "so:") (starts_with "so:") generated generated'
  ∧ (config.NoProvides (Options pc) = true →
     config.Provides generated' = config.Provides generated).
Proof.
  cbv zeta. rewrite generateSharedObjectNameDeps_generated.
  apply (so_walk_appends X pc _ (generated, ∅)).
Qed.

(** X8.  The command scanner leaves the runtime alone and appends to the
    provides only entries [cmd:{name}={version}-r{epoch}] of the job's
    own version; with no-commands set it returns at once, with the
    accumulator and the world as they were and nothing logged. *)
Theorem command_scanner_appends (X : Externals) (pc : PackageBuild)
    (generated : config.Dependencies) (w : World) :
  let res := generateCmdProviders X pc generated w in
  appends never (fun x => ∃ basename, x = cmdProvide pc basename) generated res.1.2
  ∧ (config.NoCommands (Options pc) = true → res = (None, generated, w)).
Proof.
  cbv zeta. unfold generateCmdProviders.
  destruct (config.NoCommands (Options pc)).
  - split; [apply appends_refl | reflexivity].
  - split; [| discriminate]. unfold bind.
    destruct (Logger.Printf _ w) as [[] w0]. apply cmd_walk_appends.
Qed.

(** X9.  The pkg-config scanner leaves the runtime alone (the runtime
    half is switched off) and appends to the provides only entries that
    begin with [pc:]; with no-provides set it gives back the accumulator
    unchanged. *)
Theorem pkgconfig_scanner_appends (X : Externals) (pc : PackageBuild)
    (generated : config.Dependencies) (w : World) :
  let generated' := (generatePkgConfigDeps X pc generated w).1.2 in
  appends never (starts_with "pc:") generated generated'
  ∧ (config.NoProvides (Options pc) = true → generated' = generated).
Proof.
  cbv zeta. unfold generatePkgConfigDeps, bind.
  destruct (Logger.Printf _ w) as [[] w0]. apply pc_walk_appends.
Qed.

Section Provenance.

Variable X : Externals.



End Provenance.



(** ** [findInterpreter] and the cross-package lookup *)

Section Interpreter.

Lemma trim_left_no_nul (s : string) :
  strings.HasPrefix (strings.trim_left_nul s) (String zero "") = false.
Proof.
  induction s as [|c s IH]; [reflexivity |].
  cbn [strings.trim_left_nul]. destruct (Ascii.eqb c zero) eqn:E; [exact IH |].
  rewrite HasPrefix_cons, Ascii.eqb_sym, E. reflexivity.
Qed.

Lemma trim_right_head (s : string) :
  strings.HasPrefix s (String zero "") = false →
  strings.HasPrefix (strings.trim_right_nul s) (String zero "") = false.
Proof.
  destruct s as [|c s]; [reflexivity |].
  rewrite HasPrefix_cons, HasPrefix_nil. intros H.
  cbn [strings.trim_right_nul].
  destruct (strings.trim_right_nul s).
  - destruct (Ascii.eqb c zero); [reflexivity |].
    now rewrite HasPrefix_cons, HasPrefix_nil.
  - now rewrite HasPrefix_cons, HasPrefix_nil.
Qed.

Lemma trim_right_no_nul (s : string) :
  last_byte (strings.trim_right_nul s) ≠ Some zero.
Proof.
  induction s as [|c s IH]; [discriminate |].
  cbn [strings.trim_right_nul].
  destruct (strings.trim_right_nul s) as [|d t] eqn:E.
  - destruct (Ascii.eqb_spec c zero); [discriminate |]. cbn. congruence.
  - exact IH.
Qed.

End Interpreter.

(** X11.  [findInterpreter] reads the first [PT_INTERP] header and no
    other: the headers before it are passed over, the ones after it are
    never looked at (nor is a failure to read them met); without such a
    header the result is the empty string and no error. *)
Theorem findInterpreter_first (before after : list elf.Prog) (prog : elf.Prog) :
  Forall (fun p => elf.Type_ p ≠ elf.PT_INTERP) before →
  (elf.Type_ prog = elf.PT_INTERP →
   findInterpreter (before ++ prog :: after)%list
   = match elf.Open prog with
     | Ok buf => Ok (strings.TrimNul buf)
     | Err err => Err err
     end)
  ∧ findInterpreter before = Ok "".
Proof.
  induction 1 as [|p before Hp _ IH]; cbn [findInterpreter app].
  - split; [| reflexivity]. intros ->. reflexivity.
  - apply N.eqb_neq in Hp. rewrite Hp. exact IH.
Qed.

Lemma findInterpreter_first_witness :
  findInterpreter
    ({| elf.Type_ := 1%N; elf.Open := Err "unreadable" |}
     :: {| elf.Type_ := 3%N; elf.Open := Ok "/lib/ld.so" |}
     :: [{| elf.Type_ := 3%N; elf.Open := Err "unreadable" |}])
  = Ok "/lib/ld.so".
Proof.
  apply (findInterpreter_first
           [{| elf.Type_ := 1%N; elf.Open := Err "unreadable" |}]
           [{| elf.Type_ := 3%N; elf.Open := Err "unreadable" |}]
           {| elf.Type_ := 3%N; elf.Open := Ok "/lib/ld.so" |}).
  - repeat constructor. discriminate.
  - reflexivity.
Defined.

(** X12.  The interpreter [findInterpreter] returns neither begins nor
    ends with a NUL byte. *)
Theorem findInterpreter_trimmed (progs : list elf.Prog) (interp : string) :
  findInterpreter progs = Ok interp →
  strings.HasPrefix interp (String zero "") = false ∧ last_byte interp ≠ Some zero.
Proof.
  induction progs as [|p progs IH]; cbn [findInterpreter].
  - intros [= <-]. split; [reflexivity | discriminate].
  - destruct (negb _); [exact IH |].
    destruct (elf.Open p) as [buf | e]; [| discriminate].
    intros [= <-]. unfold strings.TrimNul. split.
    + apply trim_right_head, trim_left_no_nul.
    + apply trim_right_no_nul.
Qed.

Lemma findInterpreter_trimmed_witness :
  strings.HasPrefix "/lib/ld-musl-x86_64.so.1" (String zero "") = false
  ∧ last_byte "/lib/ld-musl-x86_64.so.1" ≠ Some zero.
Proof.
  apply (findInterpreter_trimmed (elf.Progs Scenario.app_elf)). reflexivity.
Defined.

(** X13.  The cross-package lookup fails exactly when the link cannot be
    read.  Otherwise it answers with a path that exists, of the form
    [{workspace-dir}/melange-out/{package}/{lib-dir}/{basename(target)}]
    for the job's package, the origin or a subpackage and one of the four
    library directories, or with the empty string when no such path
    exists; a file in [lib] of the job's own package wins over every
    other. *)
Theorem dereference_existing_candidate (X : Externals) (pc : PackageBuild) (path : string) :
  let candidate pkgName libDir target :=
    filepath.Join
      [filepath.Join [WorkspaceDir (Build_ pc); "melange-out"; pkgName];
       libDir; filepath.Base target] in
  let names :=
    (PackageName pc :: config.Name (config.Package_ (Configuration (Build_ pc)))
     :: List.map config.sp_Name (config.Subpackages (Configuration (Build_ pc))))%list in
  match Readlink X (filepath.Join [WorkspaceSubdir pc; path]) with
  | Err err => dereferenceCrossPackageSymlink X pc path = Err err
  | Ok target =>
      ((∃ pkgName libDir,
          pkgName ∈ names ∧ libDir ∈ libDirs
          ∧ Stat X (candidate pkgName libDir target) = None
          ∧ dereferenceCrossPackageSymlink X pc path
            = Ok (candidate pkgName libDir target))
       ∨ ((∀ pkgName libDir, pkgName ∈ names → libDir ∈ libDirs →
                             Stat X (candidate pkgName libDir target) ≠ None)
          ∧ dereferenceCrossPackageSymlink X pc path = Ok ""))
      ∧ (Stat X (candidate (PackageName pc) "lib" target) = None →
         dereferenceCrossPackageSymlink X pc path
         = Ok (candidate (PackageName pc) "lib" target))
  end.
Proof.
  cbv zeta. unfold dereferenceCrossPackageSymlink.
  destruct (Readlink X _) as [target | err]; [| reflexivity].
  set (names := append [PackageName pc; _] _).
  set (cands := flat_map _ names).
  destruct (List.find _ cands) as [testPath|] eqn:Efind.
  - split.
    + left. apply find_some in Efind as [Hin Hstat].
      apply bool_decide_eq_true in Hstat.
      apply in_flat_map in Hin as (pkgName & Hpkg & Hin).
      apply in_map_iff in Hin as (libDir & <- & Hlib).
      exists pkgName, libDir. repeat split; try assumption; now apply list_elem_of_In.
    + intros Hstat. unfold cands, names in Efind. cbn [append app flat_map List.map libDirs] in Efind.
      cbn [List.find] in Efind. rewrite bool_decide_eq_true_2 in Efind by exact Hstat.
      congruence.
  - split.
    + right. split; [| reflexivity]. intros pkgName libDir Hpkg Hlib Hstat.
      assert (Hin : In (filepath.Join
                          [filepath.Join [WorkspaceDir (Build_ pc); "melange-out"; pkgName];
                           libDir; filepath.Base target]) cands).
      { apply in_flat_map. exists pkgName. split; [now apply list_elem_of_In |].
        apply in_map_iff. exists libDir. split; [reflexivity | now apply list_elem_of_In]. }
      pose proof (find_none _ _ Efind _ Hin) as Hf. cbn beta in Hf.
      rewrite bool_decide_eq_true_2 in Hf by exact Hstat. discriminate.
    + intros Hstat. exfalso.
      unfold cands, names in Efind. cbn [append app flat_map List.map libDirs] in Efind.
      cbn [List.find] in Efind. rewrite bool_decide_eq_true_2 in Efind by exact Hstat.
      discriminate.
Qed.

(** ** The build log, the control tree, the installed size *)

(** X14.  With create-build-log set and no failing call,
    [AppendBuildLog] adds one line
    [{arch}|{origin}|{name}|{version}-r{epoch}] at the end of
    [packages.log] in the directory given and keeps what the file held;
    two jobs logged one after the other leave their lines in that order.
    When the file cannot be opened the error is returned and nothing is
    written. *)
Theorem build_log_appends (pc1 pc2 : PackageBuild) (dir : string) (w : World) :
  CreateBuildLog (Build_ pc1) = true →
  CreateBuildLog (Build_ pc2) = true →
  let name := filepath.Join [dir; "packages.log"] in
  let before := default "" (files w !! name) in
  ((∀ data, fault w (CallWrite name data) = None) →
   fault w (CallOpenFile name) = None →
   let r1 := AppendBuildLog pc1 dir w in
   let r2 := AppendBuildLog pc2 dir r1.2 in
   r1.1 = None ∧ files r1.2 !! name = Some (before ++ buildLogLine pc1)
   ∧ r2.1 = None
   ∧ files r2.2 !! name = Some (before ++ buildLogLine pc1 ++ buildLogLine pc2))
  ∧ (∀ e, fault w (CallOpenFile name) = Some e → AppendBuildLog pc1 dir w = (Some e, w)).
Proof.
  intros H1 H2 name before. unfold AppendBuildLog. rewrite H1, H2. cbn [negb].
  unfold bind, os.OpenFile_append, os.Write. fold name. split.
  - intros Hw Ho. rewrite Ho. cbn [fault set_files]. rewrite Hw.
    cbn [fst snd fault files set_files]. rewrite Ho. cbn [fault set_files].
    rewrite Hw. cbn [fst snd files set_files].
    rewrite !lookup_insert_eq. cbn [default]. fold before.
    fold (buildLogLine pc1). fold (buildLogLine pc2).
    repeat split. unfold id. now rewrite string_app_assoc.
  - intros e He. now rewrite He.
Qed.

Lemma build_log_appends_witness :
  let pc := Scenario.job (Scenario.build "" "" true) in
  let r1 := AppendBuildLog pc "" (Scenario.world Scenario.no_fault) in
  let r2 := AppendBuildLog pc "" r1.2 in
  files r2.2 !! "packages.log"
  = Some ("" ++ ("x86_64|hello|hello|1.0-r0" ++ nl) ++ ("x86_64|hello|hello|1.0-r0" ++ nl)).
Proof.
  intros pc r1 r2.
  destruct (build_log_appends pc pc "" (Scenario.world Scenario.no_fault)
              eq_refl eq_refl) as [H _].
  destruct (H (fun _ => eq_refl) eq_refl) as (_ & _ & _ & H2). exact H2.
Defined.

Section ControlTree.


End ControlTree.


Section InstalledSize.

Variable X : Externals.

Lemma sizeWalk_sum (items : list (string * fs.FileInfo)) :
  ∀ pc w,
    walk_loop sizeWalkFn
      (List.map (fun item => {| fs.path := item.1; fs.walk_err := None;
                                fs.Info := Ok item.2 |}) items) pc w
    = (None,
       set_InstalledSize (sum_sizes (InstalledSize pc) (List.map snd items)) pc, w).
Proof.
  induction items as [|[p fi] items IH]; intros pc w.
  - cbn. now destruct pc.
  - cbn [List.map walk_loop]. unfold bind, sizeWalkFn. cbn [fs.walk_err fs.Info ret].
    rewrite IH. cbn [sum_sizes snd List.map InstalledSize set_InstalledSize]. reflexivity.
Qed.

Lemma sum_sizes_exact (infos : list fs.FileInfo) :
  ∀ acc,
    Forall (fun fi => 0 ≤ fs.Size fi)%Z infos →
    (- 2 ^ 63 ≤ acc)%Z →
    (acc + foldr (fun fi t => fs.Size fi + t) 0 infos < 2 ^ 63)%Z →
    sum_sizes acc infos = (acc + foldr (fun fi t => fs.Size fi + t) 0 infos)%Z.
Proof.
  induction infos as [|fi infos IH]; intros acc Hpos Hlo Hhi; cbn [sum_sizes foldr] in *.
  - lia.
  - apply Forall_cons in Hpos as [Hfi Hpos].
    assert (Hrest : (0 ≤ foldr (fun fi t => fs.Size fi + t) 0 infos)%Z).
    { clear -Hpos. induction Hpos; cbn; lia. }
    assert (Hw : wrap64 (acc + fs.Size fi) = (acc + fs.Size fi)%Z).
    { unfold wrap64. rewrite Z.mod_small; lia. }
    rewrite Hw, IH; try assumption; lia.
Qed.

End InstalledSize.

(** X16.  When the walk meets no error, [calculateInstalledSize] adds the
    size of every entry it is passed, directories included, to the size
    the job already has (it does not start from zero), as a 64-bit
    counter; with sizes that are not negative and a total below 2^63 the
    result is the exact sum.  No other field of the job and nothing in
    the world changes. *)
Theorem installed_size_is_sum (X : Externals) (pc : PackageBuild) (fsys : fs.FS)
    (items : list (string * fs.FileInfo)) (w : World) :
  WalkDir X fsys
  = List.map (fun item => {| fs.path := item.1; fs.walk_err := None;
                             fs.Info := Ok item.2 |}) items →
  calculateInstalledSize X pc fsys w
  = (None, set_InstalledSize (sum_sizes (InstalledSize pc) (List.map snd items)) pc, w)
  ∧ (Forall (fun item => 0 ≤ fs.Size item.2)%Z items →
     (- 2 ^ 63 ≤ InstalledSize pc)%Z →
     (InstalledSize pc + foldr (fun item t => fs.Size item.2 + t) 0 items < 2 ^ 63)%Z →
     sum_sizes (InstalledSize pc) (List.map snd items)
     = (InstalledSize pc + foldr (fun item t => fs.Size item.2 + t) 0 items)%Z).
Proof.
  intros Hwalk. split.
  - unfold calculateInstalledSize, bind. now rewrite Hwalk, sizeWalk_sum.
  - intros Hpos Hlo Hhi.
    assert (Hf : foldr (fun item t => (fs.Size item.2 + t)%Z) 0%Z items
                 = foldr (fun fi t => (fs.Size fi + t)%Z) 0%Z (List.map snd items)).
    { clear. induction items as [|i items IH]; cbn; [reflexivity | now rewrite IH]. }
    rewrite Hf in *. apply sum_sizes_exact; try assumption.
    apply Forall_forall. intros fi Hfi.
    apply list_elem_of_In, in_map_iff in Hfi as (item & <- & Hin).
    rewrite Forall_forall in Hpos. now apply Hpos, list_elem_of_In.
Qed.

Lemma installed_size_is_sum_witness :
  let pc := Scenario.job (Scenario.build "" "" false) in
  (calculateInstalledSize Scenario.X pc (fs.readlinkFS "/work/melange-out/hello")
     (Scenario.world Scenario.no_fault)).1
  = (None, set_InstalledSize 33508 pc).
Proof.
  intros pc.
  destruct (installed_size_is_sum Scenario.X pc (fs.readlinkFS "/work/melange-out/hello")
              (List.map (fun e => (fs.path e,
                                   match fs.Info e with
                                   | Ok fi => fi
                                   | Err _ => {| fs.Mode := 0%N; fs.Size := 0 |}
                                   end)) Scenario.tree)
              (Scenario.world Scenario.no_fault) eq_refl) as [H _].
  rewrite H. reflexivity.
Defined.

(** X17.  When [emitDataSection] succeeds on an open file, the bytes it
    has appended to the file are one gzip member, the digest it records
    in the job is the SHA-256 of exactly those compressed bytes (not of
    the tar stream), the job is otherwise unchanged and no other file is
    touched. *)
Theorem data_hash_of_written_bytes (X : Externals) (pc pc' : PackageBuild) (fsys : fs.FS)
    (tmp : string) (w w' : World) :
  emitDataSection X pc fsys (Some tmp) w = (None, pc', w') →
  ∃ tar data,
    tarball_WriteTar X (dataTarOptions pc) fsys = Ok tar
    ∧ data = pgzip_member X (2 ^ 20) (pgzipThreads X) tar
    ∧ files w' !! tmp = Some (default "" (files w !! tmp) ++ data)
    ∧ pc' = set_DataHash (sha256_Sum_hex X data) pc
    ∧ ∀ name, name ≠ tmp → files w' !! name = files w !! name.
Proof.
  intros Hemit.
  apply emitDataSection_success in Hemit as (tar & Htar & Hpc & Hfiles).
  exists tar, (dataMember X tar). split; [exact Htar |]. split; [reflexivity |].
  rewrite Hfiles. split; [apply lookup_insert_eq |]. split; [exact Hpc |].
  intros name Hne. now rewrite lookup_insert_ne by congruence.
Qed.

Lemma data_hash_of_written_bytes_witness :
  let pc := Scenario.job (Scenario.build "" "" false) in
  let w := Scenario.world Scenario.no_fault in
  let r := emitDataSection Scenario.X pc (fs.readlinkFS "/work/melange-out/hello")
             (Some "/tmp/data") w in
  r.1.1 = None
  ∧ ∃ data, files r.2 !! "/tmp/data" = Some data
            ∧ DataHash r.1.2 = sha256_Sum_hex Scenario.X data.
Proof.
  intros pc w r. split; [reflexivity |].
  destruct (data_hash_of_written_bytes Scenario.X pc r.1.2
              (fs.readlinkFS "/work/melange-out/hello") "/tmp/data" w r.2 eq_refl)
    as (tar & data & _ & _ & Hfile & Hpc & _).
  exists (default "" (files w !! "/tmp/data") ++ data). split; [exact Hfile |].
  rewrite Hpc. reflexivity.
Defined.



(** X19.  [combine] copies its inputs in order and stops at the first
    copy that fails: over two lists of inputs it is [combine] over the
    first, followed, when that has not failed, by [combine] over the
    second from the world the first has left; after a failure the later
    inputs are not read and nothing more is written. *)
Theorem combine_stops_at_first_error (out : os.File) (inputs1 inputs2 : list Reader)
    (w : World) :
  combine out (inputs1 ++ inputs2)%list w
  = match combine out inputs1 w with
    | (Some e, w1) => (Some e, w1)
    | (None, w1) => combine out inputs2 w1
    end.
Proof.
  revert w. induction inputs1 as [|input rest IH]; intros w; [reflexivity |].
  cbn [app combine]. unfold bind.
  destruct (io_Copy out input w) as [[e|] w1]; [reflexivity | apply IH].
Qed.

(** ** The files an emission writes *)

Section Frames.

Variable X : Externals.
Variables dir rand : string.

Lemma writes_within_refl (names : list string) (w : World) : writes_within names w w.
Proof. repeat split. Qed.

Lemma writes_within_trans (names : list string) (w1 w2 w3 : World) :
  writes_within names w1 w2 → writes_within names w2 w3 → writes_within names w1 w3.
Proof.
  intros (Hf & Hd & Hr & Hfiles) (Hf' & Hd' & Hr' & Hfiles').
  split; [congruence |]. split; [congruence |]. split; [congruence |].
  intros name Hn. rewrite Hfiles', Hfiles; auto.
Qed.

Lemma writes_within_mono (names names' : list string) (w w' : World) :
  (∀ name, name ∈ names → name ∈ names') →
  writes_within names w w' → writes_within names' w w'.
Proof.
  intros Hsub (Hf & Hd & Hr & Hfiles). repeat (split; [assumption |]).
  intros name Hn. apply Hfiles. intros Hin. apply Hn, Hsub, Hin.
Qed.

Lemma frames_ret {A : Type} (names : list string) (a : A) : frames dir rand names (ret a).
Proof. intros w _ _. apply writes_within_refl. Qed.

Lemma frames_bind_post {A B : Type} (P : A → Prop) (names : list string)
    (m : M A) (k : A → M B) :
  (∀ w, temp_dir w = dir → temp_rand w = rand → P (m w).1) →
  frames dir rand names m →
  (∀ a, P a → frames dir rand names (k a)) →
  frames dir rand names (bind m k).
Proof.
  intros HP Hm Hk w Hd Hr. unfold bind.
  specialize (Hm w Hd Hr). specialize (HP w Hd Hr).
  destruct (m w) as [a w1]. cbn [fst snd] in Hm, HP.
  eapply writes_within_trans; [exact Hm |].
  destruct Hm as (_ & Hd1 & Hr1 & _). apply (Hk a HP); congruence.
Qed.

Lemma frames_bind {A B : Type} (names : list string) (m : M A) (k : A → M B) :
  frames dir rand names m →
  (∀ a, frames dir rand names (k a)) →
  frames dir rand names (bind m k).
Proof.
  intros Hm Hk. apply (frames_bind_post (fun _ => True)); auto.
Qed.

Lemma frames_logs_only {A : Type} (names : list string) (m : M A) :
  logs_only m → frames dir rand names m.
Proof. intros H w _ _. rewrite (H w). destruct w. repeat split. Qed.

Lemma frames_MkdirAll (names : list string) (path : string) :
  frames dir rand names (os.MkdirAll path).
Proof.
  intros w _ _. unfold os.MkdirAll. destruct (fault w _); repeat split.
Qed.

Lemma frames_Create (names : list string) (name : string) :
  name ∈ names → frames dir rand names (os.Create name).
Proof.
  intros Hin w _ _. unfold os.Create. destruct (fault w _); repeat split.
  intros n Hn. cbn [snd files set_files]. apply lookup_insert_ne. congruence.
Qed.

Lemma frames_OpenFile_append (names : list string) (name : string) :
  name ∈ names → frames dir rand names (os.OpenFile_append name).
Proof.
  intros Hin w _ _. unfold os.OpenFile_append. destruct (fault w _); repeat split.
  intros n Hn. cbn [snd files set_files]. apply lookup_insert_ne. congruence.
Qed.

Lemma frames_CreateTemp (names : list string) :
  dir ++ "/" ++ "melange-data-" ++ rand ++ ".tar.gz" ∈ names →
  frames dir rand names (os.CreateTemp "melange-data-" ".tar.gz").
Proof.
  intros Hin w Hd Hr. unfold os.CreateTemp. destruct (fault w _); repeat split.
  intros n Hn. cbn [snd files set_files]. rewrite Hd, Hr.
  apply lookup_insert_ne. congruence.
Qed.

Lemma frames_Write (names : list string) (f : os.File) (data : string) :
  (∀ name, f = Some name → name ∈ names) →
  frames dir rand names (os.Write f data).
Proof.
  intros Hin w _ _. unfold os.Write. destruct f as [name|]; [| repeat split].
  destruct (fault w _); repeat split.
  intros n Hn. cbn [snd files set_files]. apply lookup_insert_ne.
  intros ->. apply Hn, Hin. reflexivity.
Qed.

Lemma frames_Seek_start (names : list string) (f : os.File) :
  frames dir rand names (os.Seek_start f).
Proof. intros w _ _. unfold os.Seek_start. destruct f; repeat split. Qed.

Lemma frames_ReadAll (names : list string) (f : os.File) :
  frames dir rand names (os.ReadAll f).
Proof. intros w _ _. unfold os.ReadAll. destruct f; repeat split. Qed.

Lemma frames_Remove (names : list string) (name : string) :
  name ∈ names → frames dir rand names (os.Remove name).
Proof.
  intros Hin w _ _. unfold os.Remove. repeat split.
  intros n Hn. cbn [snd files set_files]. apply lookup_delete_ne. congruence.
Qed.

Lemma logs_only_sizeWalkFn (e : fs.WalkEntry) (pc : PackageBuild) :
  logs_only (sizeWalkFn e pc).
Proof. unfold sizeWalkFn. repeat case_match; apply logs_only_ret. Qed.

Lemma frames_generateSharedObjectNameDeps (names : list string) (pc : PackageBuild)
    (generated : config.Dependencies) :
  (DependencyLog (Build_ pc) ≠ "" → dependencyLogName pc ∈ names) →
  frames dir rand names (generateSharedObjectNameDeps X pc generated).
Proof.
  intros Hin. unfold generateSharedObjectNameDeps.
  apply frames_bind; [apply frames_logs_only, logs_only_Printf | intros _].
  apply frames_bind;
    [apply frames_logs_only, logs_only_walk_loop; intros e st; apply logs_only_soWalkFn |].
  intros [[e|] [generated' depends]]; [apply frames_ret |].
  destruct (String.eqb_spec (DependencyLog (Build_ pc)) "") as [He | Hne]; cbn [negb];
    [apply frames_ret |].
  specialize (Hin Hne). unfold dependencyLogName in Hin.
  apply frames_bind; [apply frames_logs_only, logs_only_Printf | intros _].
  apply (frames_bind_post
           (fun r => ∀ name, r.1 = Some name
                             → name = DependencyLog (Build_ pc) ++ "." ++ Arch pc)).
  - intros w _ _. unfold os.Create. destruct (fault w _); cbn; congruence.
  - now apply frames_Create.
  - intros [logFile err] Hfile. cbn [fst] in Hfile.
    apply frames_bind.
    + destruct err; apply frames_logs_only; [apply logs_only_Warnf | apply logs_only_ret].
    + intros _. apply frames_bind.
      * unfold json_Encode. destruct (json_Marshal X depends); [| apply frames_ret].
        apply frames_Write. intros name Hn. now rewrite (Hfile name Hn).
      * intros [e|]; apply frames_ret.
Qed.

Lemma frames_GenerateDependencies (names : list string) (pc : PackageBuild) :
  (DependencyLog (Build_ pc) ≠ "" → dependencyLogName pc ∈ names) →
  frames dir rand names (GenerateDependencies X pc).
Proof.
  intros Hin. unfold GenerateDependencies, generators. cbn [run_generators].
  apply frames_bind.
  - apply frames_bind; [now apply frames_generateSharedObjectNameDeps |].
    intros [[e|] g1]; [apply frames_ret |].
    apply frames_bind.
    { unfold generateCmdProviders.
      apply frames_logs_only. repeat case_match; try apply logs_only_ret.
      all: repeat (apply logs_only_bind; [| intros ?]);
        try apply logs_only_Printf; try apply logs_only_ret;
        try (apply logs_only_walk_loop; intros; apply logs_only_cmdWalkFn). }
    intros [[e|] g2]; [apply frames_ret |].
    apply frames_bind; [| intros [[e|] g3]; apply frames_ret].
    unfold generatePkgConfigDeps.
    apply frames_logs_only. repeat case_match; try apply logs_only_ret.
    all: repeat (apply logs_only_bind; [| intros ?]);
      try apply logs_only_Printf; try apply logs_only_ret;
      try (apply logs_only_walk_loop; intros; apply logs_only_pcWalkFn).
  - intros [[e|] g]; [apply frames_ret |].
    apply frames_bind; [| intros _; apply frames_ret].
    intros w _ _. destruct w. repeat split.
Qed.

Lemma frames_calculateInstalledSize (names : list string) (pc : PackageBuild)
    (fsys : fs.FS) :
  frames dir rand names (calculateInstalledSize X pc fsys).
Proof.
  unfold calculateInstalledSize. apply frames_bind.
  - apply frames_logs_only, logs_only_walk_loop. intros; apply logs_only_sizeWalkFn.
  - intros [[e|] pc1]; apply frames_ret.
Qed.

Lemma frames_emitDataSection (names : list string) (pc : PackageBuild) (fsys : fs.FS)
    (f : os.File) :
  (∀ name, f = Some name → name ∈ names) →
  frames dir rand names (emitDataSection X pc fsys f).
Proof.
  intros Hin. unfold emitDataSection.
  destruct (tarball_NewContext X _); [apply frames_ret |].
  destruct (pgzip.SetConcurrency _ _); [apply frames_ret |].
  destruct (tarball_WriteTar X _ fsys); [| apply frames_ret].
  apply frames_bind; [now apply frames_Write |].
  intros [e|]; [apply frames_ret |].
  apply frames_bind; [apply frames_logs_only, logs_only_Printf | intros _].
  apply frames_bind; [apply frames_Seek_start |].
  intros [e|]; apply frames_ret.
Qed.

Lemma frames_combine (names : list string) (out : os.File) (inputs : list Reader) :
  (∀ name, out = Some name → name ∈ names) →
  frames dir rand names (combine out inputs).
Proof.
  intros Hin. induction inputs as [|input rest IH]; [apply frames_ret |].
  cbn [combine]. apply frames_bind; [| intros [e|]; [apply frames_ret | exact IH]].
  unfold io_Copy. apply frames_bind.
  - destruct input; [apply frames_ret | apply frames_ReadAll].
  - intros data. destruct (String.eqb data ""); [apply frames_ret |].
    now apply frames_Write.
Qed.

Lemma frames_AppendBuildLog (names : list string) (pc : PackageBuild) (d : string) :
  (CreateBuildLog (Build_ pc) = true → filepath.Join [d; "packages.log"] ∈ names) →
  frames dir rand names (AppendBuildLog pc d).
Proof.
  intros Hin. unfold AppendBuildLog.
  destruct (CreateBuildLog (Build_ pc)); cbn [negb]; [| apply frames_ret].
  specialize (Hin eq_refl).
  apply (frames_bind_post
           (fun r => ∀ name, r.1 = Some name → name = filepath.Join [d; "packages.log"])).
  - intros w _ _. unfold os.OpenFile_append. destruct (fault w _); cbn; congruence.
  - now apply frames_OpenFile_append.
  - intros [f [e|]] Hf; [apply frames_ret |]. cbn [fst] in Hf.
    apply frames_Write. intros name Hn. now rewrite (Hf name Hn).
Qed.

Lemma frames_emitWithTemp (names : list string) (pc : PackageBuild) (fsys : fs.FS)
    (tmp : os.File) :
  (∀ name, tmp = Some name → name ∈ names) →
  Filename pc ∈ names →
  (CreateBuildLog (Build_ pc) = true → "packages.log" ∈ names) →
  frames dir rand names (emitWithTemp X pc fsys tmp).
Proof.
  intros Htmp Hout Hlog. unfold emitWithTemp.
  apply (frames_bind_post (fun r => same_identity pc r.2)).
  - intros w _ _. destruct (emitDataSection X pc fsys tmp w) as [[e pc1] w1] eqn:E.
    cbn [fst snd]. eapply emitDataSection_identity, E.
  - now apply frames_emitDataSection.
  - intros [[e|] pc1] Hid; [apply frames_ret |]. cbn [snd] in Hid.
    destruct (same_identity_Filename _ _ Hid) as [Hname _].
    destruct Hid as (Hb & _).
    destruct (generateControlSection X pc1); [| apply frames_ret].
    match goal with |- frames _ _ _ (match ?sig with _ => _ end) => destruct sig end;
      [| apply frames_ret].
    apply frames_bind; [apply frames_MkdirAll |].
    intros [e|]; [apply frames_ret |].
    apply (frames_bind_post (fun r => ∀ name, r.1 = Some name → name = Filename pc)).
    + intros w _ _. unfold os.Create. rewrite Hname.
      destruct (fault w _); cbn; congruence.
    + rewrite Hname. now apply frames_Create.
    + intros [outFile [e|]] Hf; [apply frames_ret |]. cbn [fst] in Hf.
      apply frames_bind;
        [apply frames_combine; intros name Hn; now rewrite (Hf name Hn) |].
      intros [e|]; [apply frames_ret |].
      apply frames_bind; [apply frames_logs_only, logs_only_Printf | intros _].
      apply frames_bind; [apply frames_AppendBuildLog; now rewrite Hb |].
      intros [e|]; (apply frames_bind; [| intros _; apply frames_ret]);
        apply frames_logs_only; [apply logs_only_Warnf | apply logs_only_ret].
Qed.

Lemma frames_EmitPackage (names : list string) (pc : PackageBuild) :
  (DependencyLog (Build_ pc) ≠ "" → dependencyLogName pc ∈ names) →
  dir ++ "/" ++ "melange-data-" ++ rand ++ ".tar.gz" ∈ names →
  Filename pc ∈ names →
  (CreateBuildLog (Build_ pc) = true → "packages.log" ∈ names) →
  frames dir rand names (EmitPackage X pc).
Proof.
  intros Hdep Htmp Hout Hlog. unfold EmitPackage.
  apply frames_bind; [apply frames_MkdirAll |].
  intros [e|]; [apply frames_ret |].
  apply frames_bind; [apply frames_logs_only, logs_only_Printf | intros _].
  apply (frames_bind_post (fun r => same_identity pc r.2)).
  { intros w _ _. destruct (GenerateDependencies X pc w) as [[e pc1] w1] eqn:E.
    cbn [fst snd]. eapply GenerateDependencies_identity, E. }
  { now apply frames_GenerateDependencies. }
  intros [[e|] pc1] Hid1; [apply frames_ret |]. cbn [snd] in Hid1.
  apply (frames_bind_post (fun r => same_identity pc1 r.2)).
  { intros w _ _. destruct (calculateInstalledSize X pc1 _ w) as [[e pc2] w1] eqn:E.
    cbn [fst snd]. eapply calculateInstalledSize_identity, E. }
  { apply frames_calculateInstalledSize. }
  intros [[e|] pc2] Hid2; [apply frames_ret |]. cbn [snd] in Hid2.
  pose proof (same_identity_trans _ _ _ Hid1 Hid2) as Hid.
  destruct (same_identity_Filename _ _ Hid) as [Hname _]. destruct Hid as (Hb & _).
  apply frames_bind; [apply frames_logs_only, logs_only_Printf | intros _].
  apply (frames_bind_post
           (fun r => ∀ name, r.1 = Some name
                             → name = dir ++ "/" ++ "melange-data-" ++ rand ++ ".tar.gz")).
  { intros w Hd Hr. unfold os.CreateTemp. rewrite Hd, Hr.
    destruct (fault w _); cbn; congruence. }
  { now apply frames_CreateTemp. }
  intros [[tmpName|] [e|]] Hf; try apply frames_ret. cbn [fst] in Hf.
  rewrite (Hf tmpName eq_refl).
  apply frames_bind.
  { apply frames_emitWithTemp; rewrite ?Hname, ?Hb; try assumption.
    intros name [= <-]. exact Htmp. }
  intros r. apply frames_bind; [now apply frames_Remove | intros _; apply frames_ret].
Qed.

End Frames.

(** X20.  Whatever its outcome, [EmitPackage] writes no file other than
    the dependency log (when one is configured), its temporary data file,
    the package file and [packages.log] (when the build log is asked
    for); the file-system faults are as before. *)
Theorem EmitPackage_writes (X : Externals) (pc : PackageBuild) (w : World) :
  let w' := (EmitPackage X pc w).2 in
  (∀ name, name ∉ emissionFiles pc w → files w' !! name = files w !! name)
  ∧ fault w' = fault w.
Proof.
  intros w'.
  assert (H : writes_within (emissionFiles pc w) w w').
  { apply (frames_EmitPackage X (temp_dir w) (temp_rand w)); try reflexivity;
      unfold emissionFiles.
    - intros Hne. destruct (String.eqb_spec (DependencyLog (Build_ pc)) "");
        [contradiction |]. apply elem_of_app. left. apply list_elem_of_here.
    - apply elem_of_app. right. apply list_elem_of_here.
    - apply elem_of_app. right. apply list_elem_of_further, list_elem_of_here.
    - intros ->. apply elem_of_app. right.
      do 2 apply list_elem_of_further. apply list_elem_of_here. }
  destruct H as (Hf & _ & _ & Hfiles). split; assumption.
Qed.

Section TempFile.

Variable X : Externals.


End TempFile.



Section Computed.

Variable X : Externals.









End Computed.


Section KeyedSigning.

Variable X : Externals.

Lemma Signer_keyed (pc : PackageBuild) :
  wantSignature pc = true →
  Signer pc = KeyApkSigner (SigningKey (Build_ pc)) (SigningPassphrase (Build_ pc)).
Proof.
  unfold wantSignature, Signer. now destruct (String.eqb (SigningKey (Build_ pc)) "").
Qed.

Lemma emitWithTemp_keyed (pc : PackageBuild) (fsys : fs.FS) (tmp : os.File) (w : World) :
  emitWithTemp (with_EmitSignature (keyed_only (EmitSignature X)) X) pc fsys tmp w
  = emitWithTemp X pc fsys tmp w.
Proof.
  unfold emitWithTemp, bind.
  change (emitDataSection (with_EmitSignature (keyed_only (EmitSignature X)) X))
    with (emitDataSection X).
  destruct (emitDataSection X pc fsys tmp w) as [[[e|] pc1] w1]; [reflexivity |].
  change (generateControlSection (with_EmitSignature (keyed_only (EmitSignature X)) X))
    with (generateControlSection X).
  destruct (generateControlSection X pc1) as [control | e]; [| reflexivity].
  destruct (wantSignature pc1) eqn:Hwant; [| reflexivity].
  cbn [EmitSignature with_EmitSignature]. rewrite (Signer_keyed _ Hwant).
  reflexivity.
Qed.

End KeyedSigning.

(** X23.  The keyless signer is never called, with or without a signing
    key: replacing the signer by one that fails on every keyless request
    changes no run of [EmitPackage].  When a signature is made it is made
    with the configured key file and passphrase. *)
Theorem keyless_signer_never_called (X : Externals) (pc : PackageBuild) (w : World) :
  EmitPackage (with_EmitSignature (keyed_only (EmitSignature X)) X) pc w
  = EmitPackage X pc w
  ∧ (wantSignature pc = true →
     Signer pc = KeyApkSigner (SigningKey (Build_ pc)) (SigningPassphrase (Build_ pc))).
Proof.
  split; [| apply Signer_keyed].
  unfold EmitPackage, bind.
  destruct (os.MkdirAll (WorkspaceSubdir pc) w) as [[e|] w1]; [reflexivity |].
  destruct (Logger.Printf _ w1) as [[] w2].
  change (GenerateDependencies (with_EmitSignature (keyed_only (EmitSignature X)) X))
    with (GenerateDependencies X).
  destruct (GenerateDependencies X pc w2) as [[[e|] pc1] w3]; [reflexivity |].
  change (calculateInstalledSize (with_EmitSignature (keyed_only (EmitSignature X)) X))
    with (calculateInstalledSize X).
  destruct (calculateInstalledSize X pc1 _ w3) as [[[e|] pc2] w4]; [reflexivity |].
  destruct (Logger.Printf _ w4) as [[] w5].
  destruct (os.CreateTemp _ _ w5) as [[[tmpName|] [e|]] w6]; try reflexivity.
  now rewrite emitWithTemp_keyed.
Qed.



Section NoDepends.

Variable X : Externals.

Lemma soWalkFn_no_depends (pc : PackageBuild) (e : fs.WalkEntry) (st : Scan) (w : World) :
  config.NoDepends (Options pc) = true →
  symlink_entry e = false →
  config.Runtime (soWalkFn X pc e st w).1.2.1 = config.Runtime st.1.
Proof.
  intros Hno Hsym. unfold soWalkFn. unfold symlink_entry in Hsym.
  destruct (fs.walk_err e); [reflexivity |].
  destruct (fs.Info e) as [fi | err]; [| reflexivity].
  rewrite Hsym.
  destruct (negb (fs.IsRegular (fs.Mode fi))); [reflexivity |].
  destruct (N.eqb _ perm_rx); [| reflexivity].
  now apply soExecutable_appends.
Qed.

Lemma so_walk_no_depends (pc : PackageBuild) (entries : list fs.WalkEntry) :
  config.NoDepends (Options pc) = true →
  Forall (fun e => symlink_entry e = false) entries →
  ∀ st w,
    config.Runtime (walk_loop (soWalkFn X pc) entries st w).1.2.1 = config.Runtime st.1.
Proof.
  intros Hno Hall. induction Hall as [|e rest He Hrest IH]; intros st w; [reflexivity |].
  cbn [walk_loop]. unfold bind.
  pose proof (soWalkFn_no_depends pc e st w Hno He) as H1.
  destruct (soWalkFn X pc e st w) as [[[err|] st1] w1]; [exact H1 |].
  cbn [fst snd] in H1. now rewrite IH.
Qed.

End NoDepends.

(** X25.  With no-depends set, the shared-object scanner adds no runtime
    dependency for the files of the package: when the walk meets no
    symbolic link the runtime list comes back as it was given.  The
    option is not consulted for symbolic links: a link to a library of
    the build still adds the [so:] name of its target. *)
Theorem no_depends_but_for_symlinks (X : Externals) (pc : PackageBuild)
    (generated : config.Dependencies) (w : World) :
  config.NoDepends (Options pc) = true →
  Forall (fun e => symlink_entry e = false)
         (WalkDir X (fs.readlinkFS (WorkspaceSubdir pc))) →
  config.Runtime (generateSharedObjectNameDeps X pc generated w).1.2
  = config.Runtime generated.
Proof.
  intros Hno Hall. rewrite generateSharedObjectNameDeps_generated.
  now rewrite so_walk_no_depends.
Qed.

Lemma no_depends_but_for_symlinks_witness :
  let pc :=
    with_Options {| config.NoProvides := false; config.NoDepends := true;
                    config.NoCommands := false |}
                 (Scenario.job (Scenario.build "" "" false)) in
  let w := Scenario.world Scenario.no_fault in
  let files_only :=
    with_WalkDir
      (fun fsys => List.filter (fun e => negb (symlink_entry e)) (WalkDir Scenario.X fsys))
      Scenario.X in
  config.Runtime (generateSharedObjectNameDeps files_only pc config.no_Dependencies w).1.2
  = []
  ∧ config.Runtime (generateSharedObjectNameDeps Scenario.X pc config.no_Dependencies w).1.2
    = ["so:libfoo.so.2"].
Proof.
  intros pc w files_only. split; [| vm_compute; reflexivity].
  apply (no_depends_but_for_symlinks files_only pc config.no_Dependencies w).
  - reflexivity.
  - vm_compute. repeat constructor.
Defined.
